(** * seller-apis: stock and price reconciliation for Ozon and Yandex Market

    A shallow embedding of [seller.py] and [market.py] and the properties of
    their reconciliation, batching and pagination code.

    Conventions of the embedding.
    - A Python [str] is a Rocq [string] holding its UTF-8 bytes.  Equality,
      [split(".")] and [re.sub("[^0-9]", ...)] only look at ASCII bytes, and no
      byte of a multi-byte UTF-8 sequence is ASCII, so these operations agree
      on bytes and on code points; [int] decodes the bytes.
    - A Python [int] is a [Z].  A Python [float] is a binary64, a
      [spec_float] of the Standard Library that is [valid_binary 53 1024].
    - A value read out of a spreadsheet row is a [PyVal]: [read_excel] yields
      a text, a whole number, a truth value or a number that is not whole for
      a cell; cells that hold a date are not modelled.  A whole number of a
      spreadsheet is below [2^1024], so [str] of it never meets the limit on
      the digits of an integer, and [str_of_int] has none.
    - [int] and [str] are those of CPython 3.11.  [int(s)] reads surrounding
      white space, an optional sign and decimal digits with single
      underscores between them, the white space and the digits being those
      of Unicode 14.0, and rejects more than 4300 digits; [int(x)] of a float
      cuts off its fraction; [str(x)] of a float is its shortest [repr].
    - Effects are explicit: a computation takes the world (the heap of list
      objects and the trace of requests and prints) and returns an outcome and
      the new world.  A raised exception keeps the mutations made before it. *)

From Stdlib Require Import ZArith Lia Ascii String DecimalString DecimalPos.
From Stdlib Require Import Floats.SpecFloat.
From stdpp Require Import base gmap strings list.

Open Scope string_scope.
Open Scope Z_scope.
Open Scope list_scope.

(* ===================================================================== *)
(** * Python values and the builtins the program uses                     *)
(* ===================================================================== *)

(** What a cell of the spreadsheet holds once [read_excel] has read it: a
    text, a whole number, a truth value or a number that is not whole;
    [PNone] is what [watch.get] gives for a column that is not there. *)
Inductive PyVal : Type :=
| PNone
| PStr (s : string)
| PInt (z : Z)
| PBool (b : bool)
| PFloat (f : spec_float).

Inductive ExnKind : Type :=
| ReadTimeout
| ConnectionError
| HTTPError
| ValueError
| TypeError
| AttributeError
| IndexError
| EnvError
| OverflowError.

(** An exception object: its class and its argument (for a literal that
    [int] rejects the literal, for a transport error the text the transport
    gave, otherwise the head of the message). *)
Record Exn : Type := MkExn { exn_kind : ExnKind; exn_arg : string }.

Inductive Outcome (A : Type) : Type :=
| Ret (a : A)
| Raise (e : Exn)
| OutOfFuel.
Arguments Ret {A} a.
Arguments Raise {A} e.
Arguments OutOfFuel {A}.

(** ** Characters *)

Definition is_digit (c : ascii) : bool :=
  let n := nat_of_ascii c in (48 <=? n)%nat && (n <=? 57)%nat.

(** [Py_ISSPACE]: tab, line feed, vertical tab, form feed, carriage return,
    space. *)
Definition is_space (c : ascii) : bool :=
  let n := nat_of_ascii c in ((9 <=? n)%nat && (n <=? 13)%nat) || (n =? 32)%nat.

Definition digit_val (c : ascii) : Z := Z.of_nat (nat_of_ascii c) - 48.

Definition byte_val (c : ascii) : Z := Z.of_nat (nat_of_ascii c).

Definition char_of (n : Z) : ascii := ascii_of_nat (Z.to_nat n).

(** ** Code points *)

(** The value a continuation byte of UTF-8 carries. *)
Definition continuation (c : ascii) : option Z :=
  let b := byte_val c in
  if (128 <=? b) && (b <=? 191) then Some (b - 128) else None.

(** The first code point of a string and the bytes after it; [None] for
    bytes that are not the UTF-8 form of a code point, which no [str]
    holds. *)
Definition decode_utf8 (s : list ascii) : option (Z * list ascii) :=
  match s with
  | [] => None
  | c0 :: s1 =>
      let b0 := byte_val c0 in
      if b0 <? 128 then Some (b0, s1)
      else if (194 <=? b0) && (b0 <=? 223) then
        match s1 with
        | c1 :: s2 =>
            x1 ← continuation c1; Some ((b0 - 192) * 64 + x1, s2)
        | _ => None
        end
      else if (224 <=? b0) && (b0 <=? 239) then
        match s1 with
        | c1 :: c2 :: s3 =>
            x1 ← continuation c1; x2 ← continuation c2;
            let cp := ((b0 - 224) * 64 + x1) * 64 + x2 in
            if (2048 <=? cp) && negb ((55296 <=? cp) && (cp <=? 57343))
            then Some (cp, s3) else None
        | _ => None
        end
      else if (240 <=? b0) && (b0 <=? 244) then
        match s1 with
        | c1 :: c2 :: c3 :: s4 =>
            x1 ← continuation c1; x2 ← continuation c2; x3 ← continuation c3;
            let cp := (((b0 - 240) * 64 + x1) * 64 + x2) * 64 + x3 in
            if (65536 <=? cp) && (cp <=? 1114111) then Some (cp, s4) else None
        | _ => None
        end
      else None
  end.

(** [Py_UNICODE_ISSPACE] beyond ASCII. *)
Definition is_unicode_space (cp : Z) : bool :=
  bool_decide (cp ∈ [133; 160; 5760; 8232; 8233; 8239; 8287; 12288])
  || ((8192 <=? cp) && (cp <=? 8202)).

(** The code point of the digit zero of every script (Unicode 14.0, the
    data of CPython 3.11); the nine code points after it are the digits 1
    to 9 of the script. *)
Definition unicode_zeros : list Z :=
  [48; 1632; 1776; 1984; 2406; 2534; 2662; 2790; 2918; 3046; 3174; 3302;
   3430; 3558; 3664; 3792; 3872; 4160; 4240; 6112; 6160; 6470; 6608; 6784;
   6800; 6992; 7088; 7232; 7248; 42528; 43216; 43264; 43472; 43504; 43600;
   44016; 65296; 66720; 68912; 69734; 69872; 69942; 70096; 70384; 70736;
   70864; 71248; 71360; 71472; 71904; 72016; 72784; 73040; 73120; 92768;
   92864; 93008; 120782; 120792; 120802; 120812; 120822; 123200; 123632;
   125264; 130032].

(** [Py_UNICODE_TODECIMAL] *)
Definition to_decimal (cp : Z) : option Z :=
  zero ← List.find (λ zero, (zero <=? cp) && (cp <? zero + 10)) unicode_zeros;
  Some (cp - zero).

(** ** [str(x)] *)

Definition str_of_int (z : Z) : string := NilZero.string_of_int (Z.to_int z).

(** The decimal digits of a number that is not negative. *)
Definition digits_of (n : Z) : string :=
  NilZero.string_of_uint (N.to_uint (Z.to_N n)).

Fixpoint zero_digits (n : nat) : string :=
  match n with
  | O => ""
  | S n' => String "0" (zero_digits n')
  end.

(** The shortest decimal [d * 10^p] that reads back as the binary64 of
    value [m * 2^e], and of the shortest ones the closest to that value
    (mode 0 of [_Py_dg_dtoa]).  A decimal reads back as the binary64 when it
    lies between the midpoints to the two neighbours; the midpoints
    themselves read back as it when its significand is even. *)
Definition shortest_decimal (m : positive) (e : Z) : Z * Z :=
  (* 2^(E-1) <= m * 2^e < 2^E; [u] is the exponent of the unit in the last
     place, and everything is counted in quarters 2^q of that unit *)
  let E := Z.log2 (Z.pos m) + 1 + e in
  let u := Z.max (E - 53) (-1074) in
  let q := u - 2 in
  let V := if q <=? e then Z.pos m * 2 ^ (e - q) else Z.pos m / 2 ^ (q - e) in
  let even := Z.even (V / 4) in
  (* the neighbour below a power of two is half a unit away *)
  let lo := V - (if (V =? 2 ^ (E - 1 - q)) && (-1074 <? u) then 1 else 2) in
  let hi := V + 2 in
  (* [d * 10^p] against [x * 2^q] *)
  let compare (d p x : Z) : comparison :=
    (d * 10 ^ Z.max p 0 * 2 ^ Z.max (- q) 0
     ?= x * 10 ^ Z.max (- p) 0 * 2 ^ Z.max q 0) in
  let inside (d p : Z) : bool :=
    match compare d p lo, compare d p hi with
    | Gt, Lt => true
    | Eq, Lt | Gt, Eq => even
    | _, _ => false
    end in
  (* the value divided by [10^p], rounded down *)
  let floor_at (p : Z) : Z :=
    (V * 2 ^ Z.max q 0 * 10 ^ Z.max (- p) 0)
    / (2 ^ Z.max (- q) 0 * 10 ^ Z.max p 0) in
  (* 10^k <= m * 2^e < 10^(k+1) *)
  let k0 := (E - 1) * 30103 / 100000 in
  let k := default k0
             (List.find (λ k, (1 <=? floor_at k) && (floor_at k <=? 9))
                        [k0 - 1; k0; k0 + 1]) in
  (* the decimal of [n] digits that reads back, if there is one *)
  let candidate (n : Z) : option (Z * Z) :=
    let p := k - n + 1 in
    let d := floor_at p in
    match inside d p, inside (d + 1) p with
    | true, false => Some (d, p)
    | false, true => Some (d + 1, p)
    | true, true =>
        match compare (2 * d + 1) p (2 * V) with
        | Gt => Some (d, p)
        | Lt => Some (d + 1, p)
        | Eq => Some (if Z.even d then d else d + 1, p)
        end
    | false, false => None
    end in
  default (floor_at (k - 16), k - 16)
    (List.fold_right
       (λ n found, match candidate n with Some c => Some c | None => found end)
       None ((λ n : nat, Z.of_nat n) <$> seq 1 17)).

(** Zeros at the end of the digits go to the exponent. *)
Fixpoint strip_zeros (fuel : nat) (d p : Z) : Z * Z :=
  match fuel with
  | O => (d, p)
  | S fuel' =>
      if (d mod 10 =? 0) && negb (d =? 0) then strip_zeros fuel' (d / 10) (p + 1)
      else (d, p)
  end.

(** [format_float_short] for [repr]: exponent notation when the decimal
    point would stand more than 16 places right of the first digit or more
    than 3 zeros would follow it; otherwise a decimal point with at least
    one digit after it. *)
Definition format_float (negative : bool) (d p : Z) : string :=
  let digits := digits_of d in
  let n := Z.of_nat (String.length digits) in
  let decpt := p + n in
  (if negative then "-" else "") +:+
  (if (decpt <=? -4) || (16 <? decpt) then
     let exponent := decpt - 1 in
     String.substring 0 1 digits
     +:+ (if 1 <? n
          then "." +:+ String.substring 1 (String.length digits - 1) digits
          else "")
     +:+ "e" +:+ (if exponent <? 0 then "-" else "+")
     +:+ (if Z.abs exponent <? 10 then "0" else "")
     +:+ digits_of (Z.abs exponent)
   else if decpt <=? 0 then
     "0." +:+ zero_digits (Z.to_nat (- decpt)) +:+ digits
   else if n <=? decpt then
     digits +:+ zero_digits (Z.to_nat (decpt - n)) +:+ ".0"
   else
     String.substring 0 (Z.to_nat decpt) digits +:+ "."
     +:+ String.substring (Z.to_nat decpt) (Z.to_nat (n - decpt)) digits).

(** [repr(x)] of a float, which is also its [str]. *)
Definition float_repr (f : spec_float) : string :=
  match f with
  | S754_nan => "nan"
  | S754_infinity s => if s then "-inf" else "inf"
  | S754_zero s => if s then "-0.0" else "0.0"
  | S754_finite s m e =>
      let '(d, p) := shortest_decimal m e in
      let '(d, p) := strip_zeros 17 d p in
      format_float s d p
  end.

Definition py_str (v : PyVal) : string :=
  match v with
  | PNone => "None"
  | PStr s => s
  | PInt z => str_of_int z
  | PBool b => if b then "True" else "False"
  | PFloat f => float_repr f
  end.

(** ** [int(x)] *)

(** [_PyUnicode_TransformDecimalAndSpaceToASCII] on a string that is not
    ASCII: white space becomes a space, a decimal digit its ASCII digit, and
    the string ends in a question mark at the first other character beyond
    ASCII.  [fuel] is the number of bytes. *)
Fixpoint transform_decimal_and_space (fuel : nat) (s : list ascii) : list ascii :=
  match fuel, s with
  | _, [] => []
  | O, _ => ["?"%char]
  | S fuel', _ =>
      match decode_utf8 s with
      | Some (cp, rest) =>
          if cp <? 127 then char_of cp :: transform_decimal_and_space fuel' rest
          else if is_unicode_space cp then
            " "%char :: transform_decimal_and_space fuel' rest
          else match to_decimal cp with
               | Some d =>
                   char_of (48 + d) :: transform_decimal_and_space fuel' rest
               | None => ["?"%char]
               end
      | None => ["?"%char]
      end
  end.

(** A string that is ASCII is taken as it is. *)
Definition ascii_digits_and_spaces (s : list ascii) : list ascii :=
  if forallb (λ c, byte_val c <? 128) s then s
  else transform_decimal_and_space (length s) s.

Fixpoint lstrip (s : list ascii) : list ascii :=
  match s with
  | c :: s' => if is_space c then lstrip s' else s
  | [] => []
  end.

(** The digits and underscores at the head of a string, and what follows. *)
Fixpoint span_digits (s : list ascii) : list ascii * list ascii :=
  match s with
  | c :: s' =>
      if is_digit c || Ascii.eqb c "_"%char then
        let '(run, rest) := span_digits s' in (c :: run, rest)
      else ([], s)
  | [] => ([], [])
  end.

(** Digits with single underscores between them; [prev] tells whether the
    previous character was a digit, [acc] is the value read so far. *)
Fixpoint parse_digits (prev : bool) (acc : Z) (s : list ascii) : option Z :=
  match s with
  | [] => if prev then Some acc else None
  | c :: s' =>
      if is_digit c then parse_digits true (acc * 10 + digit_val c) s'
      else if Ascii.eqb c "_"%char && prev then parse_digits false acc s'
      else None
  end.

(** [sys.int_info.default_max_str_digits] *)
Definition max_str_digits : nat := 4300.

Inductive Literal : Type :=
| Invalid
| TooLong
| Value (z : Z).

(** [PyLong_FromString] in base 10: white space, a sign, digits with single
    underscores between them, white space.  The digits are counted against
    the limit once the run of digits has been found well formed and before
    what follows it is looked at. *)
Definition long_from_string (s : list ascii) : Literal :=
  let s := lstrip s in
  let '(negative, s) :=
    match s with
    | "-"%char :: s' => (true, s')
    | "+"%char :: s' => (false, s')
    | _ => (false, s)
    end in
  let '(run, rest) := span_digits s in
  match parse_digits false 0 run with
  | None => Invalid
  | Some z =>
      if (max_str_digits <? length (List.filter is_digit run))%nat then TooLong
      else match lstrip rest with
           | [] => Value (if negative : bool then - z else z)
           | _ => Invalid
           end
  end.

Definition int_of_str (s : string) : Outcome Z :=
  match long_from_string (ascii_digits_and_spaces (list_ascii_of_string s)) with
  | Value z => Ret z
  | TooLong =>
      Raise (MkExn ValueError
               "Exceeds the limit (4300 digits) for integer string conversion")
  | Invalid => Raise (MkExn ValueError s)
  end.

(** [int(x)] of a float: the value with its fraction cut off. *)
Definition int_of_float (f : spec_float) : Outcome Z :=
  match f with
  | S754_zero _ => Ret 0
  | S754_finite s m e =>
      let magnitude :=
        if 0 <=? e then Z.pos m * 2 ^ e else Z.pos m / 2 ^ (- e) in
      Ret (if s then - magnitude else magnitude)
  | S754_infinity _ =>
      Raise (MkExn OverflowError "cannot convert float infinity to integer")
  | S754_nan => Raise (MkExn ValueError "cannot convert float NaN to integer")
  end.

Definition py_int (v : PyVal) : Outcome Z :=
  match v with
  | PInt z => Ret z
  | PStr s => int_of_str s
  | PBool b => Ret (if b then 1 else 0)
  | PFloat f => int_of_float f
  | PNone => Raise (MkExn TypeError "int() argument must be a string or a number")
  end.

(** ** [s.split(sep)] for a one-character separator, and [re.sub] of a
    negated character class *)

Fixpoint split_on (sep : ascii) (s : string) : list string :=
  match s with
  | EmptyString => [EmptyString]
  | String c s' =>
      if Ascii.eqb c sep then EmptyString :: split_on sep s'
      else match split_on sep s' with
           | piece :: rest => String c piece :: rest
           | [] => [String c EmptyString]
           end
  end.

(** [re.sub("[^0-9]", "", s)]: every character outside the class is replaced
    by the empty string. *)
Fixpoint re_sub_non_digit (s : string) : string :=
  match s with
  | EmptyString => EmptyString
  | String c s' =>
      if is_digit c then String c (re_sub_non_digit s') else re_sub_non_digit s'
  end.

(** ** [range(start, stop, step)] and [lst[lo:hi]] *)

(** The number of elements of a range, as CPython computes it. *)
Definition range_len (start stop step : Z) : Z :=
  if 0 <? step then
    if start <? stop then (stop - start - 1) / step + 1 else 0
  else
    if stop <? start then (start - stop - 1) / (- step) + 1 else 0.

Definition py_range (start stop step : Z) : Outcome (list Z) :=
  if step =? 0 then Raise (MkExn ValueError "range() arg 3 must not be zero")
  else Ret ((λ k : nat, start + Z.of_nat k * step)
              <$> seq 0 (Z.to_nat (range_len start stop step))).

(** A slice bound is counted from the end when negative and clamped to the
    list. *)
Definition slice_bound (len i : Z) : Z :=
  if i <? 0 then Z.max 0 (i + len) else Z.min i len.

Definition py_slice {A} (l : list A) (lo hi : Z) : list A :=
  let len := Z.of_nat (length l) in
  let lo' := slice_bound len lo in
  let hi' := slice_bound len hi in
  take (Z.to_nat (hi' - lo')) (drop (Z.to_nat lo') l).

(** [l.remove(x)]: the first occurrence goes; [None] when there is none. *)
Fixpoint remove_first (x : string) (l : list string) : option (list string) :=
  match l with
  | [] => None
  | y :: l' =>
      if bool_decide (x = y) then Some l'
      else cons y <$> remove_first x l'
  end.


(* ===================================================================== *)
(** * Data: spreadsheet rows, request payloads, pages                     *)
(* ===================================================================== *)

(** A row of the spreadsheet, as [to_dict(orient="records")] gives it. *)
Abbreviation Watch := (gmap string PyVal).

(** [watch.get(key)] *)
Definition dict_get (watch : Watch) (key : string) : PyVal :=
  default PNone (watch !! key).

Module SellerData.
(** [{"offer_id": ..., "stock": ...}] *)
Record Stock : Type := MkStock { offer_id : string; stock : Z }.

Record Price : Type := MkPrice {
  auto_action_enabled : string;
  currency_code : string;
  price_offer_id : string;
  old_price : string;
  price : string }.

Record Product : Type := MkProduct {
  product_id : Z;
  product_offer_id : string }.

(** The member [result] of a reply of [/v2/product/list]; [total] is [None]
    when the reply carries none, or one that is not a whole number. *)
Record Page : Type := MkPage {
  items : list Product;
  total : option Z;
  last_id : string }.
End SellerData.

Module MarketData.
Record Item : Type := MkItem { count : Z; type : string; updatedAt : string }.

Record Stock : Type := MkStock {
  sku : string;
  warehouseId : string;
  items : list Item }.

Record Money : Type := MkMoney { value : Z; currencyId : string }.

Record Price : Type := MkPrice { id : string; price : Money }.

(** An entry of [offerMappingEntries]; [shopSku] is read through its
    member [offer]. *)
Record Entry : Type := MkEntry { shopSku : string }.

(** The member [result] of a reply of [offer-mapping-entries]; the token is
    read through its member [paging] and may be absent. *)
Record Page : Type := MkPage {
  offerMappingEntries : list Entry;
  nextPageToken : option string }.
End MarketData.

(* ===================================================================== *)
(** * The world: list objects, requests, prints                           *)
(* ===================================================================== *)

Inductive Request : Type :=
| OzonProductList (last_id client_id seller_token : string)
| OzonImportPrices (prices : list SellerData.Price) (client_id seller_token : string)
| OzonImportStocks (stocks : list SellerData.Stock) (client_id seller_token : string)
| CasioDownload
| MarketOfferMappingEntries (page campaign_id access_token : string)
| MarketPutStocks (stocks : list MarketData.Stock) (campaign_id access_token : string)
| MarketPostPrices (prices : list MarketData.Price) (campaign_id access_token : string).

Inductive Printable : Type :=
| PrText (s : string)
| PrExn (e : Exn).

Inductive Event : Type :=
| Sent (r : Request)
| Printed (args : list Printable).

Abbreviation loc := positive.

Record World : Type := MkWorld {
  heap : gmap loc (list string);   (* the list objects that are shared *)
  trace : list Event               (* oldest event first *)
}.

(** What the program does not control.  A reply is a function of everything
    sent so far, the request it answers included.  A reply without a member
    the code reads into ([result], [items], [paging], [offerMappingEntries],
    [offer]) makes the code raise and counts among the failures; a total or a
    token that is not there is [None], and [last_id] is taken to be there. *)
Record Environment : Type := MkEnvironment {
  environ : gmap string string;
  ozon_page_reply : list Event → Outcome SellerData.Page;
  market_page_reply : list Event → Outcome MarketData.Page;
  update_reply : list Event → Outcome string;
  download_reply : list Event → Outcome (list Watch);
  utcnow : list Event → string   (* the clock, already in ISO format *)
}.

Definition M (A : Type) : Type := World → Outcome A * World.

Definition ret {A} (a : A) : M A := λ w, (Ret a, w).

Definition raise {A} (e : Exn) : M A := λ w, (Raise e, w).

Definition bind {A B} (c : M A) (k : A → M B) : M B :=
  λ w, match c w with
       | (Ret a, w') => k a w'
       | (Raise e, w') => (Raise e, w')
       | (OutOfFuel, w') => (OutOfFuel, w')
       end.

Declare Scope py_scope.
Delimit Scope py_scope with py.
Notation "x <- c ;; k" := (bind c (λ x, k))
  (at level 100, c at next level, right associativity) : py_scope.
Notation "c ;;; k" := (bind c (λ _, k))
  (at level 100, right associativity) : py_scope.
Open Scope py_scope.

Definition lift {A} (o : Outcome A) : M A := λ w, (o, w).

(** [try: body except Exception as e: handler e] *)
Definition try_except {A} (body : M A) (handler : Exn → M A) : M A :=
  λ w, match body w with
       | (Raise e, w') => handler e w'
       | r => r
       end.

(** [for x in l: acc = body acc x], for a list that the body does not change *)
Fixpoint for_fold {A B} (l : list A) (acc : B) (body : B → A → M B) : M B :=
  match l with
  | [] => ret acc
  | x :: l' => acc' <- body acc x ;; for_fold l' acc' body
  end.

Definition for_each {A} (l : list A) (body : A → M unit) : M unit :=
  for_fold l tt (λ _ x, body x).

(** ** List objects *)

(** A new list object with the given content. *)
Definition new_list (content : list string) : M loc :=
  λ w, let l := fresh (dom (heap w)) in
       (Ret l, MkWorld (<[l := content]> (heap w)) (trace w)).

Definition read_list (l : loc) : M (list string) :=
  λ w, (Ret (default [] (heap w !! l)), w).

Definition write_list (l : loc) (content : list string) : M unit :=
  λ w, (Ret tt, MkWorld (<[l := content]> (heap w)) (trace w)).

(** [l.append(x)] *)
Definition list_append (l : loc) (x : string) : M unit :=
  content <- read_list l ;; write_list l (content ++ [x]).

(** [x in l] *)
Definition list_contains (l : loc) (x : string) : M bool :=
  content <- read_list l ;; ret (bool_decide (x ∈ content)).

(** [l.remove(x)] *)
Definition list_remove (l : loc) (x : string) : M unit :=
  content <- read_list l ;;
  match remove_first x content with
  | Some content' => write_list l content'
  | None => raise (MkExn ValueError "list.remove(x): x not in list")
  end.

(** ** Requests and prints *)

Definition emit (ev : Event) : M unit :=
  λ w, (Ret tt, MkWorld (heap w) (trace w ++ [ev])).

Definition request {A} (r : Request) (reply : list Event → Outcome A) : M A :=
  emit (Sent r) ;;; λ w, (reply (trace w), w).

Definition print (args : list Printable) : M unit := emit (Printed args).

(** [env.str(name)] *)
Definition env_str (env : Environment) (name : string) : M string :=
  match environ env !! name with
  | Some v => ret v
  | None => raise (MkExn EnvError name)
  end.

(** The three [except] clauses that close both [main] functions. *)
Definition report (e : Exn) : M unit :=
  match exn_kind e with
  | ReadTimeout => print [PrText "Превышено время ожидания..."]
  | ConnectionError => print [PrExn e; PrText "Ошибка соединения"]
  | _ => print [PrExn e; PrText "ERROR_2"]
  end.

(** Calling an [async def] function without awaiting the result builds a
    coroutine object and runs nothing of its body. *)
Definition not_awaited {A} (coroutine : M A) : M unit := ret tt.

(* ===================================================================== *)
(** * seller.py                                                           *)
(* ===================================================================== *)

Module Seller.
Import SellerData.

Definition price_conversion (price : PyVal) : Outcome string :=
  match price with
  | PStr s =>
      match split_on "."%char s with
      | first :: _ => Ret (re_sub_non_digit first)
      | [] => Raise (MkExn IndexError "list index out of range")
      end
  | _ => Raise (MkExn AttributeError "split")
  end.

(** [list(divide(lst, n))]: what the generator yields, in order. *)
Definition divide {A} (lst : list A) (n : Z) : Outcome (list (list A)) :=
  match py_range 0 (Z.of_nat (length lst)) n with
  | Ret indices => Ret ((λ i, py_slice lst i (i + n)) <$> indices)
  | Raise e => Raise e
  | OutOfFuel => OutOfFuel
  end.

Section WithEnvironment.
Context (env : Environment).

Definition get_product_list (last_id client_id seller_token : string) : M Page :=
  request (OzonProductList last_id client_id seller_token) (ozon_page_reply env).

(** The loop [while True] of [get_offer_ids]; [fuel] bounds the number of
    iterations. *)
Fixpoint get_offer_ids_loop (fuel : nat) (last_id : string)
    (product_list : list Product) (client_id seller_token : string)
    : M (list Product) :=
  match fuel with
  | O => lift OutOfFuel
  | S fuel' =>
      some_prod <- get_product_list last_id client_id seller_token ;;
      let product_list := product_list ++ items some_prod in
      let total := total some_prod in
      let last_id := SellerData.last_id some_prod in
      if bool_decide (total = Some (Z.of_nat (length product_list)))
      then ret product_list
      else get_offer_ids_loop fuel' last_id product_list client_id seller_token
  end.

Definition get_offer_ids (fuel : nat) (client_id seller_token : string) : M loc :=
  product_list <- get_offer_ids_loop fuel "" [] client_id seller_token ;;
  offer_ids <- new_list [] ;;
  for_each product_list
    (λ product, list_append offer_ids (product_offer_id product)) ;;;
  ret offer_ids.

Definition update_price (prices : list Price) (client_id seller_token : string)
    : M string :=
  request (OzonImportPrices prices client_id seller_token) (update_reply env).

Definition update_stocks (stocks : list Stock) (client_id seller_token : string)
    : M string :=
  request (OzonImportStocks stocks client_id seller_token) (update_reply env).

Definition download_stock : M (list Watch) :=
  request CasioDownload (download_reply env).

Definition create_stocks (watch_remnants : list Watch) (offer_ids : loc)
    : M (list Stock) :=
  stocks <- for_fold watch_remnants [] (λ stocks watch,
    found <- list_contains offer_ids (py_str (dict_get watch "Код")) ;;
    if found : bool then
      let count := py_str (dict_get watch "Количество") in
      stock <- (if String.eqb count ">10" then ret 100
                else if String.eqb count "1" then ret 0
                else lift (py_int (dict_get watch "Количество"))) ;;
      let stocks :=
        stocks ++ [MkStock (py_str (dict_get watch "Код")) stock] in
      list_remove offer_ids (py_str (dict_get watch "Код")) ;;;
      ret stocks
    else ret stocks) ;;
  remaining <- read_list offer_ids ;;
  for_fold remaining stocks (λ stocks offer_id,
    ret (stocks ++ [MkStock offer_id 0])).

Definition create_prices (watch_remnants : list Watch) (offer_ids : loc)
    : M (list Price) :=
  for_fold watch_remnants [] (λ prices watch,
    found <- list_contains offer_ids (py_str (dict_get watch "Код")) ;;
    if found : bool then
      converted <- lift (price_conversion (dict_get watch "Цена")) ;;
      let price :=
        MkPrice "UNKNOWN" "RUB" (py_str (dict_get watch "Код")) "0" converted in
      ret (prices ++ [price])
    else ret prices).

(** The body of the coroutine [upload_prices]. *)
Definition upload_prices (fuel : nat) (watch_remnants : list Watch)
    (client_id seller_token : string) : M (list Price) :=
  offer_ids <- get_offer_ids fuel client_id seller_token ;;
  prices <- create_prices watch_remnants offer_ids ;;
  batches <- lift (divide prices 1000) ;;
  for_each batches (λ some_price,
    _ <- update_price some_price client_id seller_token ;; ret tt) ;;;
  ret prices.

(** The body of the coroutine [upload_stocks]. *)
Definition upload_stocks (fuel : nat) (watch_remnants : list Watch)
    (client_id seller_token : string) : M (list Stock * list Stock) :=
  offer_ids <- get_offer_ids fuel client_id seller_token ;;
  stocks <- create_stocks watch_remnants offer_ids ;;
  batches <- lift (divide stocks 100) ;;
  for_each batches (λ some_stock,
    _ <- update_stocks some_stock client_id seller_token ;; ret tt) ;;;
  let not_empty := filter (λ s, stock s ≠ 0) stocks in
  ret (not_empty, stocks).

(** What [main] does inside its [try]. *)
Definition main_body (fuel : nat) (client_id seller_token : string) : M unit :=
  offer_ids <- get_offer_ids fuel client_id seller_token ;;
  watch_remnants <- download_stock ;;
  stocks <- create_stocks watch_remnants offer_ids ;;
  batches <- lift (divide stocks 100) ;;
  for_each batches (λ some_stock,
    _ <- update_stocks some_stock client_id seller_token ;; ret tt) ;;;
  prices <- create_prices watch_remnants offer_ids ;;
  batches <- lift (divide prices 900) ;;
  for_each batches (λ some_price,
    _ <- update_price some_price client_id seller_token ;; ret tt).

Definition main (fuel : nat) : M unit :=
  seller_token <- env_str env "SELLER_TOKEN" ;;
  client_id <- env_str env "CLIENT_ID" ;;
  try_except (main_body fuel client_id seller_token) report.
End WithEnvironment.
End Seller.

(* ===================================================================== *)
(** * market.py                                                           *)
(* ===================================================================== *)

Module Market.
Import MarketData.

(** [not page] for the token read out of a reply *)
Definition falsy (page : option string) : bool :=
  match page with
  | None => true
  | Some s => String.eqb s ""
  end.

Section WithEnvironment.
Context (env : Environment).

Definition get_product_list (page campaign_id access_token : string) : M Page :=
  request (MarketOfferMappingEntries page campaign_id access_token)
          (market_page_reply env).

Definition update_stocks (stocks : list Stock) (campaign_id access_token : string)
    : M string :=
  request (MarketPutStocks stocks campaign_id access_token) (update_reply env).

Definition update_price (prices : list Price) (campaign_id access_token : string)
    : M string :=
  request (MarketPostPrices prices campaign_id access_token) (update_reply env).

(** The loop [while True] of [get_offer_ids]; [fuel] bounds the number of
    iterations. *)
Fixpoint get_offer_ids_loop (fuel : nat) (page : string)
    (product_list : list Entry) (campaign_id market_token : string)
    : M (list Entry) :=
  match fuel with
  | O => lift OutOfFuel
  | S fuel' =>
      some_prod <- get_product_list page campaign_id market_token ;;
      let product_list := product_list ++ offerMappingEntries some_prod in
      let page := nextPageToken some_prod in
      if falsy page then ret product_list
      else get_offer_ids_loop fuel' (default "" page) product_list
                              campaign_id market_token
  end.

Definition get_offer_ids (fuel : nat) (campaign_id market_token : string) : M loc :=
  product_list <- get_offer_ids_loop fuel "" [] campaign_id market_token ;;
  offer_ids <- new_list [] ;;
  for_each product_list (λ product, list_append offer_ids (shopSku product)) ;;;
  ret offer_ids.

(** [str(datetime.datetime.utcnow().replace(microsecond=0).isoformat() + "Z")] *)
Definition now_iso_z : M string :=
  λ w, (Ret (utcnow env (trace w) +:+ "Z"), w).

Definition create_stocks (watch_remnants : list Watch) (offer_ids : loc)
    (warehouse_id : string) : M (list Stock) :=
  date <- now_iso_z ;;
  stocks <- for_fold watch_remnants [] (λ stocks watch,
    found <- list_contains offer_ids (py_str (dict_get watch "Код")) ;;
    if found : bool then
      let count := py_str (dict_get watch "Количество") in
      stock <- (if String.eqb count ">10" then ret 100
                else if String.eqb count "1" then ret 0
                else lift (py_int (dict_get watch "Количество"))) ;;
      let stocks :=
        stocks ++ [MkStock (py_str (dict_get watch "Код")) warehouse_id
                           [MkItem stock "FIT" date]] in
      list_remove offer_ids (py_str (dict_get watch "Код")) ;;;
      ret stocks
    else ret stocks) ;;
  remaining <- read_list offer_ids ;;
  for_fold remaining stocks (λ stocks offer_id,
    ret (stocks ++ [MkStock offer_id warehouse_id [MkItem 0 "FIT" date]])).

Definition create_prices (watch_remnants : list Watch) (offer_ids : loc)
    : M (list Price) :=
  for_fold watch_remnants [] (λ prices watch,
    found <- list_contains offer_ids (py_str (dict_get watch "Код")) ;;
    if found : bool then
      converted <- lift (Seller.price_conversion (dict_get watch "Цена")) ;;
      value <- lift (py_int (PStr converted)) ;;
      let price :=
        MkPrice (py_str (dict_get watch "Код")) (MkMoney value "RUR") in
      ret (prices ++ [price])
    else ret prices).

(** The body of the coroutine [upload_prices]. *)
Definition upload_prices (fuel : nat) (watch_remnants : list Watch)
    (campaign_id market_token : string) : M (list Price) :=
  offer_ids <- get_offer_ids fuel campaign_id market_token ;;
  prices <- create_prices watch_remnants offer_ids ;;
  batches <- lift (Seller.divide prices 500) ;;
  for_each batches (λ some_prices,
    _ <- update_price some_prices campaign_id market_token ;; ret tt) ;;;
  ret prices.

(** [stock.get("items")[0].get("count")] *)
Definition first_count (s : Stock) : Outcome Z :=
  match items s with
  | item :: _ => Ret (count item)
  | [] => Raise (MkExn IndexError "list index out of range")
  end.

(** The body of the coroutine [upload_stocks]. *)
Definition upload_stocks (fuel : nat) (watch_remnants : list Watch)
    (campaign_id market_token warehouse_id : string)
    : M (list Stock * list Stock) :=
  offer_ids <- get_offer_ids fuel campaign_id market_token ;;
  stocks <- create_stocks watch_remnants offer_ids warehouse_id ;;
  batches <- lift (Seller.divide stocks 2000) ;;
  for_each batches (λ some_stock,
    _ <- update_stocks some_stock campaign_id market_token ;; ret tt) ;;;
  not_empty <- for_fold stocks [] (λ kept stock,
    count <- lift (first_count stock) ;;
    ret (if bool_decide (count ≠ 0) then kept ++ [stock] else kept)) ;;
  ret (not_empty, stocks).

(** What [main] does inside its [try]: the FBS campaign, then the DBS
    campaign.  [upload_prices] is called and not awaited. *)
Definition main_body (fuel : nat) (watch_remnants : list Watch)
    (market_token campaign_fbs_id campaign_dbs_id
     warehouse_fbs_id warehouse_dbs_id : string) : M unit :=
  (* FBS *)
  offer_ids <- get_offer_ids fuel campaign_fbs_id market_token ;;
  stocks <- create_stocks watch_remnants offer_ids warehouse_fbs_id ;;
  batches <- lift (Seller.divide stocks 2000) ;;
  for_each batches (λ some_stock,
    _ <- update_stocks some_stock campaign_fbs_id market_token ;; ret tt) ;;;
  not_awaited (upload_prices fuel watch_remnants campaign_fbs_id market_token) ;;;
  (* DBS *)
  offer_ids <- get_offer_ids fuel campaign_dbs_id market_token ;;
  stocks <- create_stocks watch_remnants offer_ids warehouse_dbs_id ;;
  batches <- lift (Seller.divide stocks 2000) ;;
  for_each batches (λ some_stock,
    _ <- update_stocks some_stock campaign_dbs_id market_token ;; ret tt) ;;;
  not_awaited (upload_prices fuel watch_remnants campaign_dbs_id market_token).

Definition main (fuel : nat) : M unit :=
  market_token <- env_str env "MARKET_TOKEN" ;;
  campaign_fbs_id <- env_str env "FBS_ID" ;;
  campaign_dbs_id <- env_str env "DBS_ID" ;;
  warehouse_fbs_id <- env_str env "WAREHOUSE_FBS_ID" ;;
  warehouse_dbs_id <- env_str env "WAREHOUSE_DBS_ID" ;;
  watch_remnants <- Seller.download_stock env ;;
  try_except
    (main_body fuel watch_remnants market_token campaign_fbs_id
               campaign_dbs_id warehouse_fbs_id warehouse_dbs_id)
    report.
End WithEnvironment.
End Market.

(* ===================================================================== *)
(** * The notions the properties are stated with                          *)
(* ===================================================================== *)

(** [str(watch.get("Код"))], the offer id a row is matched by. *)
Definition code (watch : Watch) : string := py_str (dict_get watch "Код").

(** [str(watch.get("Количество"))], the quantity token of a row. *)
Definition quantity_token (watch : Watch) : string :=
  py_str (dict_get watch "Количество").

(** The quantity normaliser as the specification words it: [">10"] is 100,
    ["1"] is 0, anything else is parsed as a base-10 integer. *)
Definition normalize_quantity (token : string) : Outcome Z :=
  if String.eqb token ">10" then Ret 100
  else if String.eqb token "1" then Ret 0
  else int_of_str token.

(** The price normaliser as the specification words it: the substring before
    the first decimal point, with every non-digit character deleted. *)
Fixpoint before_first_dot (s : string) : string :=
  match s with
  | EmptyString => EmptyString
  | String c s' =>
      if Ascii.eqb c "."%char then EmptyString
      else String c (before_first_dot s')
  end.

Definition delete_non_digits (s : string) : string :=
  string_of_list_ascii (List.filter is_digit (list_ascii_of_string s)).

Definition normalize_price (price_text : string) : string :=
  delete_non_digits (before_first_dot price_text).

(** The count [create_stocks] computes for a row it matches. *)
Definition stock_of (watch : Watch) : Outcome Z :=
  let count := quantity_token watch in
  if String.eqb count ">10" then Ret 100
  else if String.eqb count "1" then Ret 0
  else py_int (dict_get watch "Количество").

(** The first loop of [create_stocks] as a function of the content of the
    offer-id list: the outcome and the content the list is left with.  [mk]
    builds the record of a marketplace from an offer id and a count. *)
Fixpoint match_rows {R} (mk : string → Z → R) (rows : list Watch)
    (ids : list string) (acc : list R) : Outcome (list R) * list string :=
  match rows with
  | [] => (Ret acc, ids)
  | watch :: rows' =>
      if bool_decide (code watch ∈ ids) then
        match stock_of watch with
        | Ret n =>
            match remove_first (code watch) ids with
            | Some ids' => match_rows mk rows' ids' (acc ++ [mk (code watch) n])
            | None =>
                (Raise (MkExn ValueError "list.remove(x): x not in list"), ids)
            end
        | Raise e => (Raise e, ids)
        | OutOfFuel => (OutOfFuel, ids)
        end
      else match_rows mk rows' ids acc
  end.

(** One turn of the first loop of [create_stocks]. *)
Definition stock_turn {R} (mk : string → Z → R) (offer_ids : loc)
    (stocks : list R) (watch : Watch) : M (list R) :=
  found <- list_contains offer_ids (py_str (dict_get watch "Код")) ;;
  if found : bool then
    let count := py_str (dict_get watch "Количество") in
    stock <- (if String.eqb count ">10" then ret 100
              else if String.eqb count "1" then ret 0
              else lift (py_int (dict_get watch "Количество"))) ;;
    let stocks := stocks ++ [mk (py_str (dict_get watch "Код")) stock] in
    list_remove offer_ids (py_str (dict_get watch "Код")) ;;;
    ret stocks
  else ret stocks.

(** Both loops of [create_stocks]: the rows that match, then a record of
    count 0 for every id the first loop left in the list. *)
Definition stocks_result {R} (mk : string → Z → R) (rows : list Watch)
    (ids : list string) : Outcome (list R) * list string :=
  match match_rows mk rows ids [] with
  | (Ret matched, ids') => (Ret (matched ++ ((λ id, mk id 0) <$> ids')), ids')
  | r => r
  end.

(** A loop whose body neither reads nor writes the world. *)
Fixpoint fold_outcome {A B} (f : B → A → Outcome B) (l : list A) (acc : B)
    : Outcome B :=
  match l with
  | [] => Ret acc
  | x :: l' =>
      match f acc x with
      | Ret acc' => fold_outcome f l' acc'
      | Raise e => Raise e
      | OutOfFuel => OutOfFuel
      end
  end.

(** One turn of the loop of [create_prices], for a list holding [ids];
    [convert] reads the price of a row and [mk] builds the record. *)
Definition price_turn {V P} (convert : Watch → Outcome V) (mk : string → V → P)
    (ids : list string) (prices : list P) (watch : Watch) : Outcome (list P) :=
  if bool_decide (code watch ∈ ids) then
    match convert watch with
    | Ret v => Ret (prices ++ [mk (code watch) v])
    | Raise e => Raise e
    | OutOfFuel => OutOfFuel
    end
  else Ret prices.

(** How the two marketplaces build a stock record and read a price. *)
Definition ozon_stock : string → Z → SellerData.Stock := SellerData.MkStock.

Definition market_stock (warehouse_id date : string) (sku : string) (n : Z)
    : MarketData.Stock :=
  MarketData.MkStock sku warehouse_id [MarketData.MkItem n "FIT" date].

Definition ozon_price (offer_id converted : string) : SellerData.Price :=
  SellerData.MkPrice "UNKNOWN" "RUB" offer_id "0" converted.

Definition market_price (id : string) (value : Z) : MarketData.Price :=
  MarketData.MkPrice id (MarketData.MkMoney value "RUR").

Definition ozon_convert (watch : Watch) : Outcome string :=
  Seller.price_conversion (dict_get watch "Цена").

Definition market_convert (watch : Watch) : Outcome Z :=
  match Seller.price_conversion (dict_get watch "Цена") with
  | Ret converted => py_int (PStr converted)
  | Raise e => Raise e
  | OutOfFuel => OutOfFuel
  end.

(** The world with the list object [l] holding [content]. *)
Definition with_list (w : World) (l : loc) (content : list string) : World :=
  MkWorld (<[l := content]> (heap w)) (trace w).

(** ** What the outcome of a reconciliation has to satisfy *)

(** Stock records against the remote ids: either the call returns and the
    offer ids of the records are the remote ids, each as often as it is
    remote; or it raises what reading the count of a row with a remote code
    raised.  It never runs out of fuel. *)
Definition stock_ids_spec {R} (id_of : R → string) (rows : list Watch)
    (remote : list string) (o : Outcome (list R)) : Prop :=
  match o with
  | Ret stocks =>
      id_of <$> stocks ≡ₚ remote ∧ (NoDup remote → NoDup (id_of <$> stocks))
  | Raise e =>
      ∃ watch, watch ∈ rows ∧ code watch ∈ remote ∧ stock_of watch = Raise e
  | OutOfFuel => False
  end.

(** ** The stock records, row by row *)

(** The count of a quantity cell, by what the cell holds.  A text is
    normalised as the specification says.  A whole number is itself, and 0
    when it is 1, whose text is the token ["1"].  A truth value is 0 or 1
    and a number that is not whole loses its fraction, although the text of
    neither is an integer literal.  An absent cell is rejected. *)
Definition cell_count (cell : PyVal) : Outcome Z :=
  match cell with
  | PStr token => normalize_quantity token
  | PInt z => Ret (if z =? 1 then 0 else z)
  | PBool b => Ret (if b then 1 else 0)
  | PFloat f => int_of_float f
  | PNone => Raise (MkExn TypeError "int() argument must be a string or a number")
  end.

(** How often [x] occurs in [l]. *)
Definition occurrences (x : string) (l : list string) : nat :=
  length (filter (λ y, y = x) l).

(** The rows that get a record, in inventory order: a row gets one when its
    code occurs among the remote ids more often than among the codes of the
    rows before it, which [earlier] holds.  So for pairwise distinct remote
    ids the rows served are the rows with a remote code that are the first to
    carry their code. *)
Fixpoint served (remote earlier : list string) (rows : list Watch)
    : list Watch :=
  match rows with
  | [] => []
  | watch :: rows' =>
      if bool_decide (occurrences (code watch) earlier
                      < occurrences (code watch) remote)%nat
      then watch :: served remote (code watch :: earlier) rows'
      else served remote (code watch :: earlier) rows'
  end.

(** The remote ids that get a record of count 0, in remote order: a remote
    id gets one when it occurs among the remote ids before it, which
    [earlier] holds, at least as often as among the codes of the rows.  So
    for pairwise distinct remote ids these are the ids that are the code of
    no row. *)
Fixpoint unserved (codes earlier : list string) (remote : list string)
    : list string :=
  match remote with
  | [] => []
  | id :: remote' =>
      if bool_decide (occurrences id earlier < occurrences id codes)%nat
      then unserved codes (id :: earlier) remote'
      else id :: unserved codes (id :: earlier) remote'
  end.

(** The records of the rows served, or the exception of the first of them
    whose count cannot be read. *)
Fixpoint row_records {R} (mk : string → Z → R) (rows : list Watch)
    : Outcome (list R) :=
  match rows with
  | [] => Ret []
  | watch :: rows' =>
      match cell_count (dict_get watch "Количество") with
      | Ret n =>
          match row_records mk rows' with
          | Ret records => Ret (mk (code watch) n :: records)
          | failure => failure
          end
      | Raise e => Raise e
      | OutOfFuel => OutOfFuel
      end
  end.

(** What [create_stocks] has to give for the rows [rows] when the list
    holds [remote]: the records of the rows served, then a record of count 0
    for every remote id that is not served, and nothing else; or the
    exception of the first row served whose count cannot be read. *)
Definition expected_stocks {R} (mk : string → Z → R) (rows : list Watch)
    (remote : list string) : Outcome (list R) :=
  match row_records mk (served remote [] rows) with
  | Ret records =>
      Ret (records ++ ((λ id, mk id 0) <$> unserved (code <$> rows) [] remote))
  | failure => failure
  end.

(** [ids] after [l.remove(x)] for every [x] of [codes] that it holds. *)
Definition remove_each (codes ids : list string) : list string :=
  foldl (λ ids x, default ids (remove_first x ids)) ids codes.

(** What a call of [create_stocks] on the list object [l], holding [remote],
    does to the world: the trace and the other list objects stay; [l] is left
    with a sub-sequence of [remote], which is [remote] itself when no row
    carries a remote code; and when the call returns, [l] is shorter as soon
    as a row carries a remote code, and for pairwise distinct remote ids
    holds exactly those that are the code of no row. *)
Definition stock_frame_spec {R} (rows : list Watch) (remote : list string)
    (l : loc) (w : World) (r : Outcome (list R) * World) : Prop :=
  trace (snd r) = trace w
  ∧ (∀ l' : loc, l' ≠ l → heap (snd r) !! l' = heap w !! l')
  ∧ ∃ remaining,
      heap (snd r) !! l = Some remaining
      ∧ remaining `sublist_of` remote
      ∧ ((∀ watch, watch ∈ rows → code watch ∉ remote) → remaining = remote)
      ∧ (∀ stocks, fst r = Ret stocks →
           ((∃ watch, watch ∈ rows ∧ code watch ∈ remote) →
            (length remaining < length remote)%nat)
           ∧ (NoDup remote →
              ∀ id, id ∈ remaining ↔ id ∈ remote ∧ id ∉ code <$> rows)).

(** Price records against the remote ids: either the call returns and an id
    has a price record exactly when it is remote and the code of a row; or it
    raises what reading the price of a row with a remote code raised. *)
Definition price_ids_spec {V P} (id_of : P → string)
    (convert : Watch → Outcome V) (rows : list Watch) (remote : list string)
    (o : Outcome (list P)) : Prop :=
  match o with
  | Ret prices =>
      ∀ id, id ∈ id_of <$> prices ↔ id ∈ remote ∧ id ∈ code <$> rows
  | Raise e =>
      ∃ watch, watch ∈ rows ∧ code watch ∈ remote ∧ convert watch = Raise e
  | OutOfFuel => False
  end.

(** ** Paging sessions *)

(** A well-behaved session of Yandex Market.  Asked for the page at token
    [page] after the events [tr], then for the page at each token it returns,
    the backend serves [pages]; the last page, and no page before it, comes
    with an empty or absent token.  [tr'] is the trace once the last page has
    been fetched. *)
Inductive market_session (env : Environment) (campaign_id market_token : string)
    : string → list Event → list MarketData.Page → list Event → Prop :=
| market_session_last page tr p :
    market_page_reply env
      (tr ++ [Sent (MarketOfferMappingEntries page campaign_id market_token)])
      = Ret p →
    Market.falsy (MarketData.nextPageToken p) = true →
    market_session env campaign_id market_token page tr [p]
      (tr ++ [Sent (MarketOfferMappingEntries page campaign_id market_token)])
| market_session_next page tr p ps tr' :
    market_page_reply env
      (tr ++ [Sent (MarketOfferMappingEntries page campaign_id market_token)])
      = Ret p →
    Market.falsy (MarketData.nextPageToken p) = false →
    market_session env campaign_id market_token
      (default "" (MarketData.nextPageToken p))
      (tr ++ [Sent (MarketOfferMappingEntries page campaign_id market_token)])
      ps tr' →
    market_session env campaign_id market_token page tr (p :: ps) tr'.

(** A session of Yandex Market in which a page fetch fails with [e] before
    any page came with an empty or absent token. *)
Inductive market_session_fails (env : Environment)
    (campaign_id market_token : string)
    : string → list Event → Exn → list Event → Prop :=
| market_fails_now page tr e :
    market_page_reply env
      (tr ++ [Sent (MarketOfferMappingEntries page campaign_id market_token)])
      = Raise e →
    market_session_fails env campaign_id market_token page tr e
      (tr ++ [Sent (MarketOfferMappingEntries page campaign_id market_token)])
| market_fails_later page tr p e tr' :
    market_page_reply env
      (tr ++ [Sent (MarketOfferMappingEntries page campaign_id market_token)])
      = Ret p →
    Market.falsy (MarketData.nextPageToken p) = false →
    market_session_fails env campaign_id market_token
      (default "" (MarketData.nextPageToken p))
      (tr ++ [Sent (MarketOfferMappingEntries page campaign_id market_token)])
      e tr' →
    market_session_fails env campaign_id market_token page tr e tr'.

(** A well-behaved session of Ozon.  With [n] items fetched so far, the
    backend serves [pages]; the last page, and no page before it, reports a
    total equal to the number of items fetched up to and including it. *)
Inductive ozon_session (env : Environment) (client_id seller_token : string)
    : string → nat → list Event → list SellerData.Page → list Event → Prop :=
| ozon_session_last last_id n tr p :
    ozon_page_reply env
      (tr ++ [Sent (OzonProductList last_id client_id seller_token)]) = Ret p →
    SellerData.total p = Some (Z.of_nat (n + length (SellerData.items p))) →
    ozon_session env client_id seller_token last_id n tr [p]
      (tr ++ [Sent (OzonProductList last_id client_id seller_token)])
| ozon_session_next last_id n tr p ps tr' :
    ozon_page_reply env
      (tr ++ [Sent (OzonProductList last_id client_id seller_token)]) = Ret p →
    SellerData.total p ≠ Some (Z.of_nat (n + length (SellerData.items p))) →
    ozon_session env client_id seller_token (SellerData.last_id p)
      (n + length (SellerData.items p))
      (tr ++ [Sent (OzonProductList last_id client_id seller_token)]) ps tr' →
    ozon_session env client_id seller_token last_id n tr (p :: ps) tr'.

(** A session of Ozon in which a page fetch fails with [e] before the total
    was reached. *)
Inductive ozon_session_fails (env : Environment)
    (client_id seller_token : string)
    : string → nat → list Event → Exn → list Event → Prop :=
| ozon_fails_now last_id n tr e :
    ozon_page_reply env
      (tr ++ [Sent (OzonProductList last_id client_id seller_token)])
      = Raise e →
    ozon_session_fails env client_id seller_token last_id n tr e
      (tr ++ [Sent (OzonProductList last_id client_id seller_token)])
| ozon_fails_later last_id n tr p e tr' :
    ozon_page_reply env
      (tr ++ [Sent (OzonProductList last_id client_id seller_token)]) = Ret p →
    SellerData.total p ≠ Some (Z.of_nat (n + length (SellerData.items p))) →
    ozon_session_fails env client_id seller_token (SellerData.last_id p)
      (n + length (SellerData.items p))
      (tr ++ [Sent (OzonProductList last_id client_id seller_token)]) e tr' →
    ozon_session_fails env client_id seller_token last_id n tr e tr'.

(** With fuel for [requests] turns, [run] returns a new list object holding
    [ids] and leaves the trace [tr']. *)
Definition paginates_to (run : nat → M loc) (w : World) (requests : nat)
    (ids : list string) (tr' : list Event) : Prop :=
  ∀ fuel : nat, (requests ≤ fuel)%nat →
    let l := fresh (dom (heap w)) in
    heap w !! l = None
    ∧ run fuel w = (Ret l, MkWorld (<[l := ids]> (heap w)) tr').

(** With fuel for [requests] turns, [run] raises [e]: there is no list. *)
Definition pagination_fails (run : nat → M loc) (w : World) (requests : nat)
    (e : Exn) (tr' : list Event) : Prop :=
  ∀ fuel : nat, (requests ≤ fuel)%nat →
    run fuel w = (Raise e, MkWorld (heap w) tr').

(** ** Backends for three pages *)

(** The token or last id of the request a reply answers. *)
Definition asked_cursor (tr : list Event) : string :=
  match last tr with
  | Some (Sent (MarketOfferMappingEntries page _ _)) => page
  | Some (Sent (OzonProductList last_id _ _)) => last_id
  | _ => ""
  end.

(** Yandex Market serves ["A"; "B"], then ["C"], then ["D"] with no token;
    Ozon serves the same ids and reports a total of 4.  Updates are
    acknowledged; the download fails. *)
Definition three_pages : Environment :=
  MkEnvironment ∅
    (λ tr, if String.eqb (asked_cursor tr) "" then
             Ret (SellerData.MkPage
                    [SellerData.MkProduct 1 "A"; SellerData.MkProduct 2 "B"]
                    (Some 4) "id2")
           else if String.eqb (asked_cursor tr) "id2" then
             Ret (SellerData.MkPage [SellerData.MkProduct 3 "C"] (Some 4) "id3")
           else
             Ret (SellerData.MkPage [SellerData.MkProduct 4 "D"] (Some 4) ""))
    (λ tr, if String.eqb (asked_cursor tr) "" then
             Ret (MarketData.MkPage
                    [MarketData.MkEntry "A"; MarketData.MkEntry "B"]
                    (Some "p2"))
           else if String.eqb (asked_cursor tr) "p2" then
             Ret (MarketData.MkPage [MarketData.MkEntry "C"] (Some "p3"))
           else
             Ret (MarketData.MkPage [MarketData.MkEntry "D"] None))
    (λ _, Ret "{}")
    (λ _, Raise (MkExn HTTPError "404"))
    (λ _, "2024-01-01T00:00:00").

(** The same, with the second page of either marketplace timing out. *)
Definition second_page_times_out : Environment :=
  MkEnvironment ∅
    (λ tr, if String.eqb (asked_cursor tr) "" then ozon_page_reply three_pages tr
           else Raise (MkExn ReadTimeout "read timed out"))
    (λ tr, if String.eqb (asked_cursor tr) "" then market_page_reply three_pages tr
           else Raise (MkExn ReadTimeout "read timed out"))
    (λ _, Ret "{}")
    (λ _, Raise (MkExn HTTPError "404"))
    (λ _, "2024-01-01T00:00:00").

Definition empty_world : World := MkWorld ∅ [].

(** ** The orchestrators *)

(** A request that carries price records. *)
Definition is_price_update (ev : Event) : Prop :=
  match ev with
  | Sent (OzonImportPrices _ _ _) | Sent (MarketPostPrices _ _ _) => True
  | _ => False
  end.

(** What [main] of market.py does for one campaign: the statements under the
    comment [FBS], and again under [DBS]. *)
Definition campaign_pipeline (env : Environment) (fuel : nat)
    (watch_remnants : list Watch) (market_token campaign_id warehouse_id : string)
    : M unit :=
  offer_ids <- Market.get_offer_ids env fuel campaign_id market_token ;;
  stocks <- Market.create_stocks env watch_remnants offer_ids warehouse_id ;;
  batches <- lift (Seller.divide stocks 2000) ;;
  for_each batches (λ some_stock,
    _ <- Market.update_stocks env some_stock campaign_id market_token ;; ret tt) ;;;
  not_awaited (Market.upload_prices env fuel watch_remnants campaign_id market_token).

(** A request that addresses the campaign [campaign_id]. *)
Definition addresses_campaign (campaign_id : string) (ev : Event) : Prop :=
  match ev with
  | Sent (MarketOfferMappingEntries _ c _)
  | Sent (MarketPutStocks _ c _)
  | Sent (MarketPostPrices _ c _) => c = campaign_id
  | _ => False
  end.

(** A computation that, from any world, adds to the trace only events that
    satisfy [P], whatever its outcome. *)
Definition emits_only {A} (P : Event → Prop) (c : M A) : Prop :=
  ∀ w, ∃ evs, trace (snd (c w)) = trace w ++ evs ∧ Forall P evs.

(** A backend whose pages never end: Ozon keeps reporting a total of 1 with
    two items a page, Yandex Market keeps handing out the same token. *)
Definition endless_pages : Environment :=
  MkEnvironment ∅
    (λ _, Ret (SellerData.MkPage
                 [SellerData.MkProduct 1 "A"; SellerData.MkProduct 2 "B"]
                 (Some 1) "again"))
    (λ _, Ret (MarketData.MkPage [MarketData.MkEntry "A"] (Some "again")))
    (λ _, Ret "{}")
    (λ _, Ret [])
    (λ _, "2024-01-01T00:00:00").

(** A backend that acknowledges the first request it receives and answers
    every later update with a server error. *)
Definition second_update_fails : Environment :=
  MkEnvironment ∅
    (λ _, Raise (MkExn HTTPError "500"))
    (λ _, Raise (MkExn HTTPError "500"))
    (λ tr, if (length tr =? 1)%nat then Ret "{}"
           else Raise (MkExn HTTPError "500"))
    (λ _, Raise (MkExn HTTPError "500"))
    (λ _, "2024-01-01T00:00:00").

(** The pages Ozon serves in [three_pages], and the requests that fetch
    them for the client ["client"]. *)
Definition ozon_three_pages : list SellerData.Page :=
  [SellerData.MkPage [SellerData.MkProduct 1 "A"; SellerData.MkProduct 2 "B"]
     (Some 4) "id2";
   SellerData.MkPage [SellerData.MkProduct 3 "C"] (Some 4) "id3";
   SellerData.MkPage [SellerData.MkProduct 4 "D"] (Some 4) ""].

Definition ozon_three_requests : list Event :=
  [Sent (OzonProductList "" "client" "token");
   Sent (OzonProductList "id2" "client" "token");
   Sent (OzonProductList "id3" "client" "token")].

(** ** The scenario of the specification *)

Definition row (code quantity price : PyVal) : Watch :=
  {[ "Код" := code; "Количество" := quantity; "Цена" := price ]}.

Definition scenario_rows : list Watch :=
  [row (PStr "A") (PStr ">10") (PStr "100.00 руб");
   row (PStr "B") (PStr "1") (PStr "50.00 руб")].

Definition scenario_remote : list string := ["A"; "B"; "C"].

(** A row whose quantity is a negative number, and a world whose list
    object holds its code. *)
Definition negative_rows : list Watch :=
  [row (PStr "A") (PStr "-5") (PStr "100.00 руб")].

Definition negative_world : World := MkWorld {[ 1%positive := ["A"] ]} [].

(** Two rows with the same code, the second with a quantity that is no
    number; and a row whose quantity is the number 2.5. *)
Definition repeated_rows : list Watch :=
  [row (PStr "A") (PStr "5") (PStr "100.00 руб");
   row (PStr "A") (PStr "many") (PStr "100.00 руб")].

Definition fraction_rows : list Watch :=
  [row (PStr "A") (PFloat (S754_finite false 5629499534213120 (-51)))
       (PStr "100.00 руб")].

(** An environment in which nothing answers and the clock stands still. *)
Definition silent_environment : Environment :=
  MkEnvironment ∅ (λ _, OutOfFuel) (λ _, OutOfFuel) (λ _, OutOfFuel)
    (λ _, OutOfFuel) (λ _, "2024-01-01T00:00:00").

(** A world whose only list object, at address 1, holds the remote ids. *)
Definition scenario_world : World :=
  MkWorld {[ 1%positive := scenario_remote ]} [].

(** A shop with both marketplaces configured.  Ozon lists ["A"; "B"; "C"] on
    one page.  Yandex Market serves the campaign ["FBS"] one page and then
    times out, and serves the campaign ["DBS"] its only page.  The download
    gives the rows of the scenario, and updates are acknowledged. *)
Definition example_shop : Environment :=
  MkEnvironment
    {[ "SELLER_TOKEN" := "token"; "CLIENT_ID" := "client";
       "MARKET_TOKEN" := "token"; "FBS_ID" := "FBS"; "DBS_ID" := "DBS";
       "WAREHOUSE_FBS_ID" := "WF"; "WAREHOUSE_DBS_ID" := "WD" ]}
    (λ _, Ret (SellerData.MkPage
                 [SellerData.MkProduct 1 "A"; SellerData.MkProduct 2 "B";
                  SellerData.MkProduct 3 "C"] (Some 3) ""))
    (λ tr, match last tr with
           | Some (Sent (MarketOfferMappingEntries page campaign_id _)) =>
               if String.eqb campaign_id "FBS" then
                 if String.eqb page "" then
                   Ret (MarketData.MkPage
                          [MarketData.MkEntry "A"; MarketData.MkEntry "B"]
                          (Some "p2"))
                 else Raise (MkExn ReadTimeout "read timed out")
               else Ret (MarketData.MkPage [MarketData.MkEntry "A"] None)
           | _ => Raise (MkExn HTTPError "400")
           end)
    (λ _, Ret "{}")
    (λ _, Ret scenario_rows)
    (λ _, "2024-01-01T00:00:00").

(** The chunk of [n] elements at position [k] of a list. *)
Definition chunk_at {A} (l : list A) (n : nat) (k : nat) : list A :=
  take n (drop (k * n) l).

(** The characters [str] prints for a number given by its decimal digits. *)
Definition uint_chars (d : Decimal.uint) : list ascii :=
  list_ascii_of_string (NilEmpty.string_of_uint d).

(** The digits [str] prints for an integer, after its sign. *)
Definition abs_digits (z : Z) : Decimal.uint := N.to_uint (Z.abs_N z).

(** A character that is no part of an integer literal. *)
Definition is_foreign (c : ascii) : bool :=
  negb (is_digit c || is_space c || Ascii.eqb c "_"%char
        || Ascii.eqb c "+"%char || Ascii.eqb c "-"%char).

(** The characters the string of a float is known by: its decimal point, the
    mark of its exponent, or the [n] of [nan] and [inf]. *)
Definition is_marker (c : ascii) : bool :=
  Ascii.eqb c "."%char || Ascii.eqb c "e"%char || Ascii.eqb c "n"%char.

Definition has_marker (s : string) : bool :=
  existsb is_marker (list_ascii_of_string s).

(* ===================================================================== *)
(** * The batcher: [divide]                                               *)
(* ===================================================================== *)

Section Divide.
Context {A : Type}.
Implicit Types (l : list A) (n : Z).

Lemma py_slice_chunk l i n :
  0 ≤ i → 0 < n →
  py_slice l i (i + n) = take (Z.to_nat n) (drop (Z.to_nat i) l).
Proof.
  intros Hi Hn. unfold py_slice, slice_bound.
  destruct (Z.ltb_spec i 0); [lia|].
  destruct (Z.ltb_spec (i + n) 0); [lia|].
  destruct (Z.le_gt_cases i (Z.of_nat (length l))) as [Hle|Hgt].
  - rewrite (Z.min_l i) by lia.
    destruct (Z.le_gt_cases (i + n) (Z.of_nat (length l))).
    + rewrite Z.min_l by lia. f_equal. lia.
    + rewrite Z.min_r by lia.
      assert (length (drop (Z.to_nat i) l) ≤ Z.to_nat n)%nat
        by (rewrite length_drop; lia).
      rewrite (take_ge _ (Z.to_nat n)) by done.
      rewrite take_ge; [done|]. rewrite length_drop. lia.
  - rewrite !Z.min_r by lia.
    rewrite Z.sub_diag.
    assert (drop (Z.to_nat i) l = []) as -> by (apply drop_ge; lia).
    by rewrite !take_nil.
Qed.

Lemma divide_chunks l n :
  0 < n →
  Seller.divide l n =
    Ret (chunk_at l (Z.to_nat n)
           <$> seq 0 (Z.to_nat (range_len 0 (Z.of_nat (length l)) n))).
Proof.
  intros Hn. unfold Seller.divide, py_range.
  destruct (Z.eqb_spec n 0); [lia|].
  f_equal. rewrite <- list_fmap_compose.
  apply list_fmap_ext. intros _ k _. simpl.
  rewrite py_slice_chunk by lia.
  unfold chunk_at. do 2 f_equal. lia.
Qed.

Lemma concat_chunk_at l (n c : nat) :
  concat (chunk_at l n <$> seq 0 c) = take (c * n) l.
Proof.
  induction c as [|c IH]; [done|].
  rewrite seq_S, fmap_app, concat_app, IH. simpl.
  rewrite app_nil_r. unfold chunk_at.
  rewrite take_take_drop. f_equal. lia.
Qed.

Lemma range_len_chunks (len n : Z) :
  0 ≤ len → 0 < n →
  let c := range_len 0 len n in
  0 ≤ c ∧ len ≤ c * n ∧ (0 < c → (c - 1) * n < len).
Proof.
  intros Hlen Hn. unfold range_len.
  destruct (Z.ltb_spec 0 n); [|lia].
  destruct (Z.ltb_spec 0 len); simpl; [|lia].
  rewrite Z.sub_0_r.
  pose proof (Z.div_mod (len - 1) n ltac:(lia)) as Hdm.
  pose proof (Z.mod_pos_bound (len - 1) n Hn) as Hmod.
  pose proof (Z.div_pos (len - 1) n ltac:(lia) Hn).
  nia.
Qed.
End Divide.

(** C7. For every list and every chunk size [n > 0], [divide] yields chunks
    whose concatenation, in order, is the list itself; no chunk is longer
    than [n], and every chunk but the last has exactly [n] elements. *)
Theorem divide_roundtrip_and_sizes {A} (lst : list A) (n : Z) :
  0 < n →
  ∃ chunks : list (list A),
    Seller.divide lst n = Ret chunks
    ∧ concat chunks = lst
    ∧ (∀ chunk, chunk ∈ chunks → Z.of_nat (length chunk) ≤ n)
    ∧ (∀ (i : nat) chunk,
         chunks !! i = Some chunk → (i + 1 < length chunks)%nat →
         Z.of_nat (length chunk) = n).
Proof.
  intros Hn.
  pose proof (range_len_chunks (Z.of_nat (length lst)) n
                ltac:(lia) Hn) as (Hc0 & Hcover & Hlast).
  set (c := range_len 0 (Z.of_nat (length lst)) n) in *.
  eexists. split; [by apply divide_chunks|]. fold c.
  split; [|split].
  - rewrite concat_chunk_at. apply take_ge. nia.
  - intros chunk [k [-> _]]%list_elem_of_fmap.
    unfold chunk_at. rewrite length_take. lia.
  - intros i chunk Hi Hlt.
    rewrite length_fmap, length_seq in Hlt.
    rewrite list_lookup_fmap in Hi.
    destruct (seq 0 (Z.to_nat c) !! i) as [k|] eqn:Hk; [|done].
    apply lookup_seq in Hk as [-> _]. simpl in Hi.
    injection Hi as <-. unfold chunk_at.
    rewrite length_take, length_drop.
    assert ((Z.of_nat i + 1) * n ≤ (c - 1) * n) by nia.
    specialize (Hlast ltac:(lia)).
    assert (Z.of_nat (i * Z.to_nat n) = Z.of_nat i * n) by lia.
    lia.
Qed.

(** The chunk size 2 on a list of five elements. *)
Lemma divide_roundtrip_and_sizes_witness :
  ∃ chunks : list (list Z),
    Seller.divide [1; 2; 3; 4; 5] 2 = Ret chunks
    ∧ concat chunks = [1; 2; 3; 4; 5]
    ∧ (∀ chunk, chunk ∈ chunks → Z.of_nat (length chunk) ≤ 2)
    ∧ (∀ (i : nat) chunk,
         chunks !! i = Some chunk → (i + 1 < length chunks)%nat →
         Z.of_nat (length chunk) = 2).
Proof. apply (divide_roundtrip_and_sizes [1; 2; 3; 4; 5] 2). lia. Defined.

(* ===================================================================== *)
(** * The price normaliser: [price_conversion]                            *)
(* ===================================================================== *)

Lemma split_on_dot_first (s : string) :
  ∃ rest, split_on "."%char s = before_first_dot s :: rest.
Proof.
  induction s as [|c s [rest IH]]; simpl; [by eexists|].
  destruct (Ascii.eqb c "."); [by eexists|].
  rewrite IH. by eexists.
Qed.

Lemma re_sub_non_digit_filter (s : string) :
  re_sub_non_digit s = delete_non_digits s.
Proof.
  unfold delete_non_digits.
  induction s as [|c s IH]; simpl; [done|].
  destruct (is_digit c); simpl; by rewrite IH.
Qed.

Lemma delete_non_digits_none (s : string) :
  Forall (λ c, is_digit c = false) (list_ascii_of_string s) →
  delete_non_digits s = "".
Proof.
  unfold delete_non_digits.
  induction s as [|c s IH]; simpl; [done|].
  intros [Hc Hs]%Forall_cons. rewrite Hc. by apply IH.
Qed.

(** C8. On a string, [price_conversion] returns the part before the first
    decimal point with every non-digit character deleted; the three prices of
    the specification come out as ["5990"], ["100"] and ["0"]; and a price
    whose integer part holds no digit gives the empty string. *)
Theorem price_conversion_normalizes :
  (∀ s, Seller.price_conversion (PStr s) = Ret (normalize_price s))
  ∧ Seller.price_conversion (PStr "5'990.00 руб") = Ret "5990"
  ∧ Seller.price_conversion (PStr "100 руб") = Ret "100"
  ∧ Seller.price_conversion (PStr "0.50 руб") = Ret "0"
  ∧ (∀ s, Forall (λ c, is_digit c = false)
                 (list_ascii_of_string (before_first_dot s)) →
          Seller.price_conversion (PStr s) = Ret "").
Proof.
  assert (∀ s, Seller.price_conversion (PStr s) = Ret (normalize_price s)) as H.
  { intros s. unfold Seller.price_conversion, normalize_price.
    destruct (split_on_dot_first s) as [rest ->].
    by rewrite re_sub_non_digit_filter. }
  split; [exact H|]. repeat split; try reflexivity.
  intros s Hs. rewrite H. unfold normalize_price.
  by rewrite delete_non_digits_none.
Qed.

(** A price with no digit before its decimal point. *)
Lemma price_conversion_normalizes_witness :
  Seller.price_conversion (PStr "руб.50") = Ret "".
Proof.
  apply (proj2 (proj2 (proj2 (proj2 price_conversion_normalizes)))).
  vm_compute. repeat constructor.
Defined.

(* ===================================================================== *)
(** * [int] and [str]                                                     *)
(* ===================================================================== *)

Lemma parse_digits_acc (d : Decimal.uint) (acc : positive) :
  parse_digits true (Z.pos acc) (uint_chars d)
  = Some (Z.pos (Pos.of_uint_acc d acc)).
Proof.
  revert acc. unfold uint_chars.
  induction d; intros acc; simpl; [done|..];
    rewrite <- IHd; f_equal; unfold digit_val;
    match goal with
    | |- context [nat_of_ascii ?c] =>
        let v := eval vm_compute in (nat_of_ascii c) in
        change (nat_of_ascii c) with v
    end; lia.
Qed.

Lemma parse_digits_uint (d : Decimal.uint) (prev : bool) :
  d ≠ Decimal.Nil →
  parse_digits prev 0 (uint_chars d) = Some (Z.of_N (Pos.of_uint d)).
Proof.
  revert prev. induction d as [|d IH|d _|d _|d _|d _|d _|d _|d _|d _|d _];
    intros prev Hd; [done|..]; unfold uint_chars; simpl;
    match goal with
    | |- context [0 * 10 + digit_val ?c] =>
        let v := eval vm_compute in (0 * 10 + digit_val c) in
        change (0 * 10 + digit_val c) with v
    end; try apply parse_digits_acc.
  destruct d; [done|..]; by apply IH.
Qed.

Lemma uint_chars_digits (d : Decimal.uint) : Forall (λ c, is_digit c = true) (uint_chars d).
Proof. unfold uint_chars. induction d; simpl; constructor; done. Qed.

Lemma is_digit_not_space (c : ascii) : is_digit c = true → is_space c = false.
Proof.
  unfold is_digit, is_space. intros [H1 H2]%andb_prop.
  apply Nat.leb_le in H1, H2.
  destruct (Nat.leb_spec (nat_of_ascii c) 13); [lia|].
  rewrite andb_false_r. simpl. apply Nat.eqb_neq. lia.
Qed.

Lemma lstrip_head (c : ascii) (s : list ascii) :
  is_space c = false → lstrip (c :: s) = c :: s.
Proof. intros H. simpl. by rewrite H. Qed.

Lemma digit_val_nonneg (c : ascii) : is_digit c = true → 0 ≤ digit_val c.
Proof.
  unfold is_digit, digit_val. intros [H1 _]%andb_prop.
  apply Nat.leb_le in H1. lia.
Qed.

Lemma parse_digits_nonneg (s : list ascii) (prev : bool) (acc z : Z) :
  0 ≤ acc → parse_digits prev acc s = Some z → 0 ≤ z.
Proof.
  revert prev acc. induction s as [|c s IH]; intros prev acc Hacc; simpl.
  - destruct prev; [|done]. by intros [= <-].
  - destruct (is_digit c) eqn:Hc.
    + apply IH. pose proof (digit_val_nonneg c Hc). lia.
    + destruct (Ascii.eqb c "_" && prev); [by apply IH|done].
Qed.

Lemma parse_digits_some (s : list ascii) (prev : bool) (acc : Z) :
  Forall (λ c, is_digit c = true) s → s ≠ [] →
  ∃ z, parse_digits prev acc s = Some z.
Proof.
  revert prev acc. induction s as [|c s IH]; intros prev acc Hs Hne; [done|].
  apply Forall_cons in Hs as [Hc Hs]. simpl. rewrite Hc.
  destruct s as [|c' s]; [by eexists|]. by apply IH.
Qed.

Lemma delete_non_digits_digits (s : string) :
  Forall (λ c, is_digit c = true) (list_ascii_of_string (delete_non_digits s)).
Proof.
  unfold delete_non_digits. rewrite list_ascii_of_string_of_list_ascii.
  induction s as [|c s IH]; simpl; [done|].
  destruct (is_digit c) eqn:Hc; [by constructor|done].
Qed.

(** ** Strings of digits *)

Lemma is_digit_ascii (c : ascii) : is_digit c = true → (byte_val c <? 128) = true.
Proof.
  unfold is_digit, byte_val. intros [_ H2]%andb_prop.
  apply Nat.leb_le in H2. apply Z.ltb_lt. lia.
Qed.

Lemma ascii_digits_and_spaces_ascii (s : list ascii) :
  Forall (λ c, (byte_val c <? 128) = true) s → ascii_digits_and_spaces s = s.
Proof.
  intros Hs. unfold ascii_digits_and_spaces.
  assert (forallb (λ c, byte_val c <? 128) s = true) as ->; [|done].
  induction Hs as [|c s Hc _ IH]; [done|]. simpl. by rewrite Hc.
Qed.

Lemma span_digits_digits (s : list ascii) :
  Forall (λ c, is_digit c = true) s → span_digits s = (s, []).
Proof.
  induction s as [|c s IH]; [done|].
  intros [Hc Hs]%Forall_cons. simpl. rewrite Hc. simpl. by rewrite IH.
Qed.

Lemma filter_digits_digits (s : list ascii) :
  Forall (λ c, is_digit c = true) s → List.filter is_digit s = s.
Proof.
  induction s as [|c s IH]; [done|].
  intros [Hc Hs]%Forall_cons. simpl. rewrite Hc. by rewrite IH.
Qed.

(** What [PyLong_FromString] makes of digits after an optional minus
    sign. *)
Lemma long_from_string_digits (negative : bool) (s : list ascii) :
  Forall (λ c, is_digit c = true) s →
  long_from_string ((if negative then ["-"%char] else []) ++ s)
  = match parse_digits false 0 s with
    | None => Invalid
    | Some z =>
        if (max_str_digits <? length s)%nat then TooLong
        else Value (if negative then - z else z)
    end.
Proof.
  intros Hs. unfold long_from_string.
  assert (lstrip ((if negative then ["-"%char] else []) ++ s)
          = (if negative then ["-"%char] else []) ++ s) as ->.
  { destruct negative; [done|]. destruct s as [|c s]; [done|].
    apply Forall_cons in Hs as [Hc _]. apply lstrip_head.
    by apply is_digit_not_space. }
  assert ((match (if negative then ["-"%char] else []) ++ s with
           | "-"%char :: s' => (true, s')
           | "+"%char :: s' => (false, s')
           | _ => (false, (if negative then ["-"%char] else []) ++ s)
           end) = (negative, s)) as ->.
  { destruct negative; [done|]. destruct s as [|c s]; [done|].
    apply Forall_cons in Hs as [Hc _]. simpl.
    destruct c as [[] [] [] [] [] [] [] []]; done. }
  rewrite span_digits_digits by done.
  rewrite filter_digits_digits by done.
  destruct (parse_digits false 0 s); [|done].
  by destruct (_ <? _)%nat.
Qed.

Lemma long_from_string_unsigned (s : list ascii) :
  Forall (λ c, is_digit c = true) s →
  long_from_string s
  = match parse_digits false 0 s with
    | None => Invalid
    | Some z => if (max_str_digits <? length s)%nat then TooLong else Value z
    end.
Proof. exact (long_from_string_digits false s). Qed.

Lemma long_from_string_minus (s : list ascii) :
  Forall (λ c, is_digit c = true) s →
  long_from_string ("-"%char :: s)
  = match parse_digits false 0 s with
    | None => Invalid
    | Some z => if (max_str_digits <? length s)%nat then TooLong else Value (- z)
    end.
Proof. exact (long_from_string_digits true s). Qed.

Lemma length_list_ascii (s : string) :
  length (list_ascii_of_string s) = String.length s.
Proof. induction s as [|c s IH]; simpl; by f_equal. Qed.

Lemma int_of_str_digits (s : string) :
  Forall (λ c, is_digit c = true) (list_ascii_of_string s) →
  int_of_str s
  = match parse_digits false 0 (list_ascii_of_string s) with
    | None => Raise (MkExn ValueError s)
    | Some z =>
        if (max_str_digits <? String.length s)%nat
        then Raise (MkExn ValueError
               "Exceeds the limit (4300 digits) for integer string conversion")
        else Ret z
    end.
Proof.
  intros Hs. unfold int_of_str.
  rewrite ascii_digits_and_spaces_ascii.
  2:{ eapply Forall_impl; [done|]. apply is_digit_ascii. }
  rewrite long_from_string_unsigned, length_list_ascii by done.
  destruct (parse_digits _ _ _); [|done]. by destruct (_ <? _)%nat.
Qed.

(** [int] of a string of digits only is not negative. *)
Lemma int_of_digits_nonneg (s : string) (z : Z) :
  int_of_str (delete_non_digits s) = Ret z → 0 ≤ z.
Proof.
  rewrite int_of_str_digits by apply delete_non_digits_digits.
  destruct (parse_digits _ _ _) as [z'|] eqn:Hp; [|done].
  destruct (_ <? _)%nat; [done|].
  intros [= <-]. by eapply parse_digits_nonneg.
Qed.

(** [int] reads a string of digits only unless it is empty or longer than
    the limit. *)
Lemma int_of_digits_returns (s : string) :
  (∃ z, int_of_str (delete_non_digits s) = Ret z)
  ↔ delete_non_digits s ≠ ""
    ∧ (String.length (delete_non_digits s) ≤ max_str_digits)%nat.
Proof.
  rewrite int_of_str_digits by apply delete_non_digits_digits.
  pose proof (delete_non_digits_digits s) as Hd.
  destruct (delete_non_digits s) as [|c t] eqn:Ht.
  { simpl. split; [by intros [z ?]|by intros [? _]]. }
  destruct (parse_digits_some (list_ascii_of_string (String c t)) false 0 Hd)
    as [z ->]; [done|].
  destruct (Nat.ltb_spec max_str_digits (String.length (String c t))).
  - split; [by intros [? ?]|]. intros [_ ?]. lia.
  - split; [|by eexists]. intros _. split; [done|lia].
Qed.

(** ** [str] of an integer *)

Lemma str_of_int_chars (z : Z) :
  abs_digits z ≠ Decimal.Nil
  ∧ Z.of_N (Pos.of_uint (abs_digits z)) = Z.abs z
  ∧ list_ascii_of_string (str_of_int z)
    = (if z <? 0 then ["-"%char] else []) ++ uint_chars (abs_digits z).
Proof.
  assert (∀ d, d ≠ Decimal.Nil →
            NilZero.string_of_uint d = NilEmpty.string_of_uint d) as Hnz.
  { by intros []. }
  unfold str_of_int, abs_digits. destruct z as [|p|p]; simpl; [done|..];
    pose proof (Unsigned.to_uint_nonnil p) as Hd; rewrite Hnz by done;
    (split; [done|]); (split; [|done]); by rewrite Unsigned.of_to.
Qed.

(** [int(str(z))] is [z], unless [z] has more digits than the limit. *)
Lemma int_of_str_of_int (z : Z) :
  int_of_str (str_of_int z)
  = if (max_str_digits <? length (uint_chars (abs_digits z)))%nat
    then Raise (MkExn ValueError
           "Exceeds the limit (4300 digits) for integer string conversion")
    else Ret z.
Proof.
  destruct (str_of_int_chars z) as (Hd & Hval & Hchars).
  unfold int_of_str. rewrite Hchars.
  rewrite ascii_digits_and_spaces_ascii.
  2:{ apply Forall_app. split.
      - destruct (z <? 0); repeat constructor.
      - eapply Forall_impl; [apply uint_chars_digits|]. apply is_digit_ascii. }
  destruct (Z.ltb_spec z 0); cbn [app].
  - rewrite long_from_string_minus by apply uint_chars_digits.
    rewrite (parse_digits_uint _ false Hd), Hval.
    destruct (_ <? _)%nat; [done|]. f_equal. lia.
  - rewrite long_from_string_unsigned by apply uint_chars_digits.
    rewrite (parse_digits_uint _ false Hd), Hval.
    destruct (_ <? _)%nat; [done|]. f_equal. lia.
Qed.

Lemma int_of_str_of_int_ret (z n : Z) :
  int_of_str (str_of_int z) = Ret n → n = z.
Proof.
  rewrite int_of_str_of_int. destruct (_ <? _)%nat; [done|]. by intros [= ->].
Qed.

(** [str] of an integer is never the token [">10"], and is the token ["1"]
    for the integer 1 only. *)
Lemma str_of_int_tokens (z : Z) :
  str_of_int z ≠ ">10" ∧ (str_of_int z = "1" → z = 1).
Proof.
  destruct (str_of_int_chars z) as (Hd & Hval & Hchars).
  split; intros Heq; rewrite Heq in Hchars.
  - pose proof (uint_chars_digits (abs_digits z)) as Hdig.
    destruct (z <? 0); simpl in Hchars; [discriminate Hchars|].
    rewrite <- Hchars in Hdig. by apply Forall_cons in Hdig as [? _].
  - destruct (Z.ltb_spec z 0); simpl in Hchars; [discriminate Hchars|].
    pose proof (parse_digits_uint _ false Hd) as Hp.
    rewrite <- Hchars, Hval in Hp.
    injection Hp as Hp. change (0 * 10 + digit_val "1") with 1 in Hp. lia.
Qed.

(** ** Strings that [int] rejects *)

Lemma lstrip_foreign (s : list ascii) :
  existsb is_foreign s = true → existsb is_foreign (lstrip s) = true.
Proof.
  induction s as [|c s IH]; [done|]. simpl.
  destruct (is_space c) eqn:Hc; [|done].
  assert (is_foreign c = false) as ->.
  { unfold is_foreign. rewrite Hc. by rewrite orb_true_r. }
  done.
Qed.

Lemma lstrip_foreign_nonempty (s : list ascii) :
  existsb is_foreign s = true → lstrip s ≠ [].
Proof. intros H%lstrip_foreign. by destruct (lstrip s). Qed.

Lemma span_digits_foreign (s run rest : list ascii) :
  span_digits s = (run, rest) →
  existsb is_foreign s = true → existsb is_foreign rest = true.
Proof.
  revert run. induction s as [|c s IH]; intros run; simpl; [by intros [= _ <-]|].
  destruct (is_digit c || Ascii.eqb c "_"%char) eqn:Hc.
  - destruct (span_digits s) as [run' rest'] eqn:Hspan. intros [= _ <-].
    assert (is_foreign c = false) as ->; [|by apply (IH run')].
    unfold is_foreign.
    destruct (is_digit c); [done|]. simpl in Hc. rewrite Hc.
    by rewrite orb_true_r.
  - by intros [= _ <-].
Qed.

Lemma long_from_string_foreign (s : list ascii) (z : Z) :
  existsb is_foreign s = true → long_from_string s ≠ Value z.
Proof.
  intros Hs%lstrip_foreign. unfold long_from_string.
  set (s1 := lstrip s) in *.
  assert (∃ negative s2,
            (match s1 with
             | "-"%char :: s' => (true, s')
             | "+"%char :: s' => (false, s')
             | _ => (false, s1)
             end) = (negative, s2) ∧ existsb is_foreign s2 = true)
    as (negative & s2 & -> & Hs2).
  { destruct s1 as [|c s']; [done|].
    destruct (Ascii.eqb_spec c "-"%char) as [->|?];
      [by exists true, s'|].
    destruct (Ascii.eqb_spec c "+"%char) as [->|?];
      [by exists false, s'|].
    exists false, (c :: s'). split; [|done].
    destruct c as [[] [] [] [] [] [] [] []]; done. }
  destruct (span_digits s2) as [run rest] eqn:Hspan.
  destruct (parse_digits false 0 run); [|done].
  destruct (_ <? _)%nat; [done|].
  pose proof (lstrip_foreign_nonempty rest
                (span_digits_foreign _ _ _ Hspan Hs2)).
  by destruct (lstrip rest).
Qed.

Lemma is_marker_foreign (c : ascii) :
  is_marker c = true → is_foreign c = true ∧ byte_val c < 127.
Proof.
  unfold is_marker.
  destruct (Ascii.eqb_spec c "."%char) as [->|_]; [by vm_compute|].
  destruct (Ascii.eqb_spec c "e"%char) as [->|_]; [by vm_compute|].
  destruct (Ascii.eqb_spec c "n"%char) as [->|_]; [by vm_compute|done].
Qed.

Lemma continuation_not_marker (c : ascii) (x : Z) :
  continuation c = Some x → is_marker c = false ∧ 0 ≤ x.
Proof.
  unfold continuation.
  destruct ((128 <=? byte_val c) && (byte_val c <=? 191)) eqn:Hb; [|done].
  apply andb_prop in Hb as [H1%Z.leb_le _]. intros [= <-].
  split; [|lia]. destruct (is_marker c) eqn:Hm; [|done].
  apply is_marker_foreign in Hm as [_ ?]. lia.
Qed.

(** A code point is one ASCII byte or several bytes that are not ASCII. *)
Lemma decode_utf8_bytes (s rest : list ascii) (cp : Z) :
  decode_utf8 s = Some (cp, rest) →
  (∃ c, s = c :: rest ∧ cp = byte_val c ∧ cp < 128)
  ∨ (∃ bytes, s = bytes ++ rest ∧ bytes ≠ [] ∧ 128 ≤ cp
       ∧ Forall (λ c, is_marker c = false) bytes).
Proof.
  destruct s as [|c0 s1]; [done|]. unfold decode_utf8. intros Hdec.
  destruct (Z.ltb_spec (byte_val c0) 128) as [?|Hhigh].
  { injection Hdec as <- <-. left. by exists c0. }
  assert (is_marker c0 = false) as Hc0.
  { destruct (is_marker c0) eqn:Hm; [|done].
    apply is_marker_foreign in Hm as [_ ?]. lia. }
  right.
  destruct ((194 <=? byte_val c0) && (byte_val c0 <=? 223)) eqn:H2.
  { apply andb_prop in H2 as [H2%Z.leb_le _].
    destruct s1 as [|c1 s2]; [done|].
    destruct (continuation c1) as [x1|] eqn:Hx1; [|done].
    apply continuation_not_marker in Hx1 as [? ?].
    injection Hdec as <- <-. exists [c0; c1].
    split; [done|]. split; [done|]. split; [lia|]. by repeat constructor. }
  destruct ((224 <=? byte_val c0) && (byte_val c0 <=? 239)) eqn:H3.
  { destruct s1 as [|c1 [|c2 s3]]; [done..|].
    destruct (continuation c1) as [x1|] eqn:Hx1; [|done].
    destruct (continuation c2) as [x2|] eqn:Hx2; [|done].
    apply continuation_not_marker in Hx1 as [? ?].
    apply continuation_not_marker in Hx2 as [? ?].
    cbn in Hdec. destruct (_ && _) eqn:Hcp in Hdec; [|done].
    apply andb_prop in Hcp as [Hcp%Z.leb_le _].
    injection Hdec as <- <-. exists [c0; c1; c2].
    split; [done|]. split; [done|]. split; [lia|]. by repeat constructor. }
  destruct ((240 <=? byte_val c0) && (byte_val c0 <=? 244)) eqn:H4; [|done].
  destruct s1 as [|c1 [|c2 [|c3 s4]]]; [done..|].
  destruct (continuation c1) as [x1|] eqn:Hx1; [|done].
  destruct (continuation c2) as [x2|] eqn:Hx2; [|done].
  destruct (continuation c3) as [x3|] eqn:Hx3; [|done].
  apply continuation_not_marker in Hx1 as [? ?].
  apply continuation_not_marker in Hx2 as [? ?].
  apply continuation_not_marker in Hx3 as [? ?].
  cbn in Hdec. destruct (_ && _) eqn:Hcp in Hdec; [|done].
  apply andb_prop in Hcp as [Hcp%Z.leb_le _].
  injection Hdec as <- <-. exists [c0; c1; c2; c3].
  split; [done|]. split; [done|]. split; [lia|]. by repeat constructor.
Qed.

Lemma char_of_byte_val (c : ascii) : char_of (byte_val c) = c.
Proof.
  unfold char_of, byte_val. rewrite Nat2Z.id. apply ascii_nat_embedding.
Qed.

Lemma existsb_marker_app (l1 l2 : list ascii) :
  Forall (λ c, is_marker c = false) l1 →
  existsb is_marker (l1 ++ l2) = existsb is_marker l2.
Proof.
  induction 1 as [|c l1 Hc _ IH]; [done|]. simpl. by rewrite Hc.
Qed.

Lemma transform_foreign (fuel : nat) (s : list ascii) :
  existsb is_marker s = true →
  existsb is_foreign (transform_decimal_and_space fuel s) = true.
Proof.
  revert s. induction fuel as [|fuel IH]; intros s Hs.
  { by destruct s. }
  destruct s as [|c0 s1] eqn:Heq; [done|]. rewrite <- Heq in *.
  assert (transform_decimal_and_space (S fuel) s
          = match decode_utf8 s with
            | Some (cp, rest) =>
                if cp <? 127 then char_of cp :: transform_decimal_and_space fuel rest
                else if is_unicode_space cp then
                  " "%char :: transform_decimal_and_space fuel rest
                else match to_decimal cp with
                     | Some d =>
                         char_of (48 + d) :: transform_decimal_and_space fuel rest
                     | None => ["?"%char]
                     end
            | None => ["?"%char]
            end) as ->.
  { by rewrite Heq. }
  clear Heq c0 s1.
  destruct (decode_utf8 s) as [[cp rest]|] eqn:Hdec; [|done].
  apply decode_utf8_bytes in Hdec
    as [(c & -> & -> & Hlow)|(bytes & -> & _ & Hhigh & Hbytes)].
  - simpl in Hs. destruct (is_marker c) eqn:Hm.
    + apply is_marker_foreign in Hm as [Hf Hlt].
      destruct (Z.ltb_spec (byte_val c) 127); [|lia].
      simpl. by rewrite char_of_byte_val, Hf.
    + simpl in Hs. specialize (IH rest Hs).
      destruct (_ <? 127); [simpl; by rewrite IH, orb_true_r|].
      destruct (is_unicode_space _); [simpl; by rewrite IH|].
      destruct (to_decimal _); [|done]. simpl. by rewrite IH, orb_true_r.
  - rewrite existsb_marker_app in Hs by done. specialize (IH rest Hs).
    destruct (_ <? 127); [simpl; by rewrite IH, orb_true_r|].
    destruct (is_unicode_space _); [simpl; by rewrite IH|].
    destruct (to_decimal _); [|done]. simpl. by rewrite IH, orb_true_r.
Qed.

Lemma existsb_marker_foreign (s : list ascii) :
  existsb is_marker s = true → existsb is_foreign s = true.
Proof.
  induction s as [|c s IH]; [done|]. simpl.
  destruct (is_marker c) eqn:Hm.
  - apply is_marker_foreign in Hm as [-> _]. done.
  - simpl. intros H%IH. by rewrite H, orb_true_r.
Qed.

(** A string with a decimal point, an [e] or an [n] is no integer
    literal. *)
Lemma int_of_str_marker (s : string) (z : Z) :
  existsb is_marker (list_ascii_of_string s) = true → int_of_str s ≠ Ret z.
Proof.
  intros Hs. unfold int_of_str.
  assert (existsb is_foreign
            (ascii_digits_and_spaces (list_ascii_of_string s)) = true) as Hf.
  { unfold ascii_digits_and_spaces. destruct (forallb _ _).
    - by apply existsb_marker_foreign.
    - by apply transform_foreign. }
  destruct (long_from_string _) as [| |z'] eqn:Hl; [done..|].
  by apply long_from_string_foreign in Hl.
Qed.

Lemma int_of_str_fuel (s : string) : int_of_str s ≠ OutOfFuel.
Proof. unfold int_of_str. by destruct (long_from_string _). Qed.

Lemma py_int_fuel (v : PyVal) : py_int v ≠ OutOfFuel.
Proof.
  destruct v as [|s|z|b|f]; [done| |done..|by destruct f].
  apply int_of_str_fuel.
Qed.

(** ** [str] of a float *)

Lemma has_marker_app (s t : string) :
  has_marker (s +:+ t) = has_marker s || has_marker t.
Proof.
  unfold has_marker. induction s as [|c s IH]; [done|].
  simpl. rewrite IH. by rewrite orb_assoc.
Qed.

(** Whatever the float, its string has a decimal point, an exponent or is
    [nan] or [inf]. *)
Lemma float_repr_marker (f : spec_float) : has_marker (float_repr f) = true.
Proof.
  destruct f as [s|s| |s m e]; [by destruct s..|done|].
  unfold float_repr. destruct (shortest_decimal m e) as [d p].
  destruct (strip_zeros 17 d p) as [d' p']. unfold format_float.
  rewrite has_marker_app. apply orb_true_iff. right.
  repeat match goal with
         | |- context [if ?b then _ else _] => destruct b
         end;
    rewrite ?has_marker_app; simpl; by rewrite ?orb_true_r.
Qed.

(* ===================================================================== *)
(** * Running computations                                                *)
(* ===================================================================== *)

Lemma with_list_same (w : World) (l : loc) (content : list string) :
  heap w !! l = Some content → with_list w l content = w.
Proof.
  intros H. destruct w as [h t]. unfold with_list. simpl in *.
  by rewrite insert_id.
Qed.

Lemma with_list_twice (w : World) (l : loc) (c1 c2 : list string) :
  with_list (with_list w l c1) l c2 = with_list w l c2.
Proof. unfold with_list. simpl. by rewrite insert_insert_eq. Qed.

Lemma with_list_lookup (w : World) (l : loc) (content : list string) :
  heap (with_list w l content) !! l = Some content.
Proof. unfold with_list. simpl. apply lookup_insert_eq. Qed.

Lemma for_fold_pure {A B} (f : B → A → Outcome B) (body : B → A → M B)
    (l : list A) (acc : B) (w : World) :
  (∀ acc x, body acc x w = (f acc x, w)) →
  for_fold l acc body w = (fold_outcome f l acc, w).
Proof.
  intros Hbody. revert acc. induction l as [|x l IH]; intros acc; [done|].
  simpl. unfold bind. rewrite Hbody.
  destruct (f acc x); [apply IH|done..].
Qed.

Lemma for_fold_append {A B} (g : A → B) (l : list A) (acc : list B) (w : World) :
  for_fold l acc (λ acc x, ret (acc ++ [g x])) w = (Ret (acc ++ (g <$> l)), w).
Proof.
  revert acc. induction l as [|x l IH]; intros acc; simpl.
  - by rewrite app_nil_r.
  - unfold bind, ret at 1. rewrite IH. by rewrite <- app_assoc.
Qed.

Lemma remove_first_elem (x : string) (l : list string) :
  x ∈ l → ∃ l', remove_first x l = Some l'.
Proof.
  induction l as [|y l IH]; [by intros ?%elem_of_nil|].
  intros Hx. simpl. case_bool_decide; [by eexists|].
  apply elem_of_cons in Hx as [?|Hx]; [done|].
  destruct (IH Hx) as [l' ->]. by eexists.
Qed.

Lemma remove_first_perm (x : string) (l l' : list string) :
  remove_first x l = Some l' → l ≡ₚ x :: l'.
Proof.
  revert l'. induction l as [|y l IH]; intros l'; [done|]. simpl.
  case_bool_decide as Hxy; [by intros [= <-]; subst|].
  destruct (remove_first x l) as [k|]; [|done].
  intros [= <-]. rewrite (IH k eq_refl). apply Permutation_swap.
Qed.

Lemma remove_first_sublist (x : string) (l l' : list string) :
  remove_first x l = Some l' → l' `sublist_of` l.
Proof.
  revert l'. induction l as [|y l IH]; intros l'; [done|]. simpl.
  case_bool_decide as Hxy; [intros [= <-]; by apply sublist_cons|].
  destruct (remove_first x l) as [k|]; [|done].
  intros [= <-]. apply sublist_skip. by apply IH.
Qed.

Lemma remove_first_other (x y : string) (l l' : list string) :
  remove_first x l = Some l' → y ≠ x → y ∈ l → y ∈ l'.
Proof.
  intros Hr Hne Hy. apply remove_first_perm in Hr.
  rewrite Hr in Hy. apply elem_of_cons in Hy as [?|?]; done.
Qed.

(* ===================================================================== *)
(** * The reconciler: [create_stocks] and [create_prices]                 *)
(* ===================================================================== *)

Lemma bind_run {A B} (c : M A) (k : A → M B) (w : World) :
  bind c k w = match c w with
               | (Ret a, w') => k a w'
               | (Raise e, w') => (Raise e, w')
               | (OutOfFuel, w') => (OutOfFuel, w')
               end.
Proof. reflexivity. Qed.

Lemma list_contains_run (l : loc) (x : string) (ids : list string) (w : World) :
  heap w !! l = Some ids →
  list_contains l x w = (Ret (bool_decide (x ∈ ids)), w).
Proof. intros Hl. unfold list_contains, bind, read_list, ret. by rewrite Hl. Qed.

Lemma list_remove_run (l : loc) (x : string) (ids ids' : list string) (w : World) :
  heap w !! l = Some ids → remove_first x ids = Some ids' →
  list_remove l x w = (Ret tt, with_list w l ids').
Proof.
  intros Hl Hr. unfold list_remove, bind, read_list. rewrite Hl. simpl.
  by rewrite Hr.
Qed.

Lemma read_list_run (l : loc) (ids : list string) (w : World) :
  heap w !! l = Some ids → read_list l w = (Ret ids, w).
Proof. intros Hl. unfold read_list. by rewrite Hl. Qed.

(** One turn of the first loop. *)
Lemma stock_turn_run {R} (mk : string → Z → R) (l : loc) (ids : list string)
    (acc : list R) (watch : Watch) (w : World) :
  heap w !! l = Some ids →
  stock_turn mk l acc watch w =
    if bool_decide (code watch ∈ ids) then
      match stock_of watch with
      | Ret n =>
          match remove_first (code watch) ids with
          | Some ids' => (Ret (acc ++ [mk (code watch) n]), with_list w l ids')
          | None => (Raise (MkExn ValueError "list.remove(x): x not in list"), w)
          end
      | Raise e => (Raise e, w)
      | OutOfFuel => (OutOfFuel, w)
      end
    else (Ret acc, w).
Proof.
  intros Hl. unfold stock_turn. rewrite bind_run.
  rewrite (list_contains_run _ _ ids) by done. fold (code watch).
  case_bool_decide as Hin; [|done].
  unfold stock_of, quantity_token. rewrite bind_run.
  destruct (String.eqb _ ">10"); [|destruct (String.eqb _ "1")].
  3: destruct (py_int _) as [n|e|]; [|done..].
  all: unfold ret at 1, lift; cbv beta; rewrite bind_run;
    destruct (remove_first_elem _ _ Hin) as [ids' Hrem];
    rewrite (list_remove_run _ _ ids ids') by done; by rewrite Hrem.
Qed.

(** The first loop of [create_stocks] run on a world where the list object
    holds [ids]. *)
Lemma stock_loop_run {R} (mk : string → Z → R) (rows : list Watch)
    (l : loc) (ids : list string) (acc : list R) (w : World) :
  heap w !! l = Some ids →
  for_fold rows acc (stock_turn mk l) w
  = (fst (match_rows mk rows ids acc),
     with_list w l (snd (match_rows mk rows ids acc))).
Proof.
  revert ids acc w. induction rows as [|watch rows IH]; intros ids acc w Hl.
  { simpl. by rewrite with_list_same. }
  cbn [for_fold match_rows]. rewrite bind_run.
  rewrite (stock_turn_run mk l ids) by done.
  case_bool_decide as Hin; [|by apply IH].
  destruct (stock_of watch) as [n|e|]; [|by rewrite with_list_same..].
  destruct (remove_first_elem _ _ Hin) as [ids' Hrem]. rewrite Hrem.
  rewrite (IH ids' _ (with_list w l ids') (with_list_lookup _ _ _)).
  by rewrite with_list_twice.
Qed.

(** [create_stocks] of both marketplaces, run on a world where the list
    object holds [ids]: only that object changes. *)
Lemma stocks_loops_run {R} (mk : string → Z → R) (rows : list Watch)
    (l : loc) (ids : list string) (w : World) :
  heap w !! l = Some ids →
  (stocks <- for_fold rows [] (stock_turn mk l) ;;
   remaining <- read_list l ;;
   for_fold remaining stocks (λ stocks offer_id,
     ret (stocks ++ [mk offer_id 0]))) w
  = (fst (stocks_result mk rows ids),
     with_list w l (snd (stocks_result mk rows ids))).
Proof.
  intros Hl. rewrite bind_run, (stock_loop_run mk rows l ids) by done.
  unfold stocks_result.
  destruct (match_rows mk rows ids []) as [[matched|e|] ids']; [|done..].
  cbn [fst snd]. rewrite bind_run.
  rewrite (read_list_run _ ids') by apply with_list_lookup.
  by rewrite for_fold_append.
Qed.

Lemma seller_create_stocks_run (rows : list Watch) (l : loc)
    (ids : list string) (w : World) :
  heap w !! l = Some ids →
  Seller.create_stocks rows l w
  = (fst (stocks_result ozon_stock rows ids),
     with_list w l (snd (stocks_result ozon_stock rows ids))).
Proof. apply (stocks_loops_run ozon_stock). Qed.

Lemma market_create_stocks_run (env : Environment) (rows : list Watch)
    (l : loc) (warehouse_id : string) (ids : list string) (w : World) :
  heap w !! l = Some ids →
  let mk := market_stock warehouse_id (utcnow env (trace w) +:+ "Z") in
  Market.create_stocks env rows l warehouse_id w
  = (fst (stocks_result mk rows ids), with_list w l (snd (stocks_result mk rows ids))).
Proof. intros Hl mk. apply (stocks_loops_run mk rows l ids w Hl). Qed.

Section MatchRows.
Context {R : Type} (mk : string → Z → R) (id_of : R → string).
Context (id_of_mk : ∀ id n, id_of (mk id n) = id).
Implicit Types (rows : list Watch) (ids : list string) (acc : list R).

Lemma stock_of_fuel (watch : Watch) : stock_of watch ≠ OutOfFuel.
Proof.
  unfold stock_of. repeat destruct (String.eqb _ _); try done.
  apply py_int_fuel.
Qed.

(** The list only shrinks, whatever the outcome. *)
Lemma match_rows_sublist rows ids acc o ids' :
  match_rows mk rows ids acc = (o, ids') → ids' `sublist_of` ids.
Proof.
  revert ids acc. induction rows as [|watch rows IH]; intros ids acc; simpl.
  { by intros [= _ <-]. }
  case_bool_decide as Hin; [|by apply IH].
  destruct (stock_of watch) as [n|e|]; [|by intros [= _ <-]..].
  destruct (remove_first _ _) as [ids1|] eqn:Hrem; [|by intros [= _ <-]].
  intros H%IH. etrans; [done|]. by eapply remove_first_sublist.
Qed.

(** What a run that returns has appended, and what it has left. *)
Lemma match_rows_ret rows ids acc out ids' :
  match_rows mk rows ids acc = (Ret out, ids') →
  ∃ matched,
    out = acc ++ matched
    ∧ (id_of <$> matched) ++ ids' ≡ₚ ids
    ∧ Forall (λ r, ∃ watch n, watch ∈ rows ∧ code watch ∈ ids
                     ∧ stock_of watch = Ret n ∧ r = mk (code watch) n) matched.
Proof.
  revert ids acc. induction rows as [|watch rows IH]; intros ids acc; simpl.
  { intros [= <- <-]. exists []. by rewrite app_nil_r. }
  case_bool_decide as Hin.
  - destruct (stock_of watch) as [n|e|] eqn:Hn; [|done..].
    destruct (remove_first _ _) as [ids1|] eqn:Hrem; [|done].
    intros (matched & -> & Hperm & Hall)%IH.
    exists (mk (code watch) n :: matched). split; [by rewrite <- app_assoc|].
    split.
    + rewrite fmap_cons, id_of_mk. simpl. rewrite Hperm.
      symmetry. by apply remove_first_perm.
    + constructor.
      * exists watch, n. repeat split; [left|done..].
      * eapply Forall_impl; [done|]. simpl.
        intros r (watch' & n' & ? & Hin' & ? & ->).
        exists watch', n'. repeat split; [by right| |done..].
        eapply elem_of_sublist; [done|]. by eapply remove_first_sublist.
  - intros (matched & -> & Hperm & Hall)%IH.
    exists matched. repeat split; [done|].
    eapply Forall_impl; [done|]. simpl.
    intros r (watch' & n' & ? & ? & ? & ->).
    exists watch', n'. repeat split; [by right|done..].
Qed.

(** The first row that carries a code of the list is matched. *)
Lemma match_rows_first rows ids acc out ids' (i : nat) (watch : Watch) :
  match_rows mk rows ids acc = (Ret out, ids') →
  rows !! i = Some watch → code watch ∈ ids →
  (∀ (j : nat) watch', (j < i)%nat → rows !! j = Some watch' →
                       code watch' ≠ code watch) →
  ∃ n, stock_of watch = Ret n ∧ mk (code watch) n ∈ out.
Proof.
  revert ids acc i.
  induction rows as [|watch0 rows IH]; intros ids acc i; [done|]. simpl.
  destruct i as [|i]; simpl.
  - intros Hrun [= ->] Hin _. rewrite bool_decide_eq_true_2 in Hrun by done.
    destruct (stock_of watch) as [n|e|] eqn:Hn; [|done..].
    destruct (remove_first _ _) as [ids1|] eqn:Hrem; [|done].
    apply match_rows_ret in Hrun as (matched & -> & _).
    exists n. split; [done|]. set_solver.
  - intros Hrun Hi Hin Hfirst.
    assert (code watch0 ≠ code watch) as Hne by (apply (Hfirst 0%nat); [lia|done]).
    assert (∀ (j : nat) watch', (j < i)%nat → rows !! j = Some watch' →
                                code watch' ≠ code watch) as Hfirst'.
    { intros j watch' Hj Hw. apply (Hfirst (S j)); [lia|done]. }
    case_bool_decide as Hin0; [|by eapply IH].
    destruct (stock_of watch0) as [n0|e|]; [|done..].
    destruct (remove_first _ _) as [ids1|] eqn:Hrem; [|done].
    eapply IH; [done..| |done].
    eapply remove_first_other; [done| |done]. congruence.
Qed.

(** A remote id that no row carries stays in the list. *)
Lemma match_rows_unmatched rows ids acc o ids' (r : string) :
  match_rows mk rows ids acc = (o, ids') →
  r ∈ ids → r ∉ code <$> rows → r ∈ ids'.
Proof.
  revert ids acc. induction rows as [|watch rows IH]; intros ids acc; simpl.
  { by intros [= _ <-]. }
  intros Hrun Hr Hnot. apply not_elem_of_cons in Hnot as [Hne Hnot].
  case_bool_decide as Hin; [|by eapply IH].
  destruct (stock_of watch) as [n|e|]; [|by injection Hrun as _ <-..].
  destruct (remove_first _ _) as [ids1|] eqn:Hrem; [|by injection Hrun as _ <-].
  eapply IH; [done| |done]. by eapply remove_first_other.
Qed.

(** With pairwise distinct remote ids, no code of a row is left in the list
    once the loop has run to its end. *)
Lemma match_rows_consumes rows ids acc out ids' :
  match_rows mk rows ids acc = (Ret out, ids') → NoDup ids →
  ∀ watch, watch ∈ rows → code watch ∉ ids'.
Proof.
  revert ids acc. induction rows as [|watch0 rows IH]; intros ids acc; simpl.
  { intros _ _ watch Hw. by apply elem_of_nil in Hw. }
  intros Hrun Hnd watch Hw.
  case_bool_decide as Hin0.
  - destruct (stock_of watch0) as [n0|e|]; [|done..].
    destruct (remove_first _ _) as [ids1|] eqn:Hrem; [|done].
    pose proof (remove_first_perm _ _ _ Hrem) as Hperm.
    rewrite Hperm in Hnd. apply NoDup_cons in Hnd as [Hnot Hnd1].
    apply elem_of_cons in Hw as [->|Hw]; [|by eapply IH].
    intros Hin'. apply Hnot.
    eapply elem_of_sublist; [done|]. by eapply match_rows_sublist.
  - apply elem_of_cons in Hw as [->|Hw]; [|by eapply IH].
    intros Hin'. apply Hin0.
    eapply elem_of_sublist; [done|]. by eapply match_rows_sublist.
Qed.

(** A run raises only what the count of a row of the list raised. *)
Lemma match_rows_raise rows ids acc e ids' :
  match_rows mk rows ids acc = (Raise e, ids') →
  ∃ watch, watch ∈ rows ∧ code watch ∈ ids ∧ stock_of watch = Raise e.
Proof.
  revert ids acc. induction rows as [|watch rows IH]; intros ids acc; simpl.
  { done. }
  case_bool_decide as Hin.
  - destruct (stock_of watch) as [n|e'|] eqn:Hn; [| |done].
    + destruct (remove_first_elem _ _ Hin) as [ids1 Hrem]. rewrite Hrem.
      intros (watch' & ? & Hin' & ?)%IH. exists watch'.
      repeat split; [by right| |done].
      eapply elem_of_sublist; [done|]. by eapply remove_first_sublist.
    + intros [= -> _]. exists watch. repeat split; [left|done..].
  - intros (watch' & ? & ? & ?)%IH. exists watch'.
    repeat split; [by right|done..].
Qed.

Lemma match_rows_fuel rows ids acc ids' :
  match_rows mk rows ids acc ≠ (OutOfFuel, ids').
Proof.
  revert ids acc. induction rows as [|watch rows IH]; intros ids acc; simpl.
  { done. }
  case_bool_decide as Hin; [|apply IH].
  destruct (stock_of watch) as [n|e'|] eqn:Hn; [|done|].
  - destruct (remove_first_elem _ _ Hin) as [ids1 ->]. apply IH.
  - by apply stock_of_fuel in Hn.
Qed.

(** Rows that carry no code of the list leave everything as it is. *)
Lemma match_rows_none rows ids acc :
  (∀ watch, watch ∈ rows → code watch ∉ ids) →
  match_rows mk rows ids acc = (Ret acc, ids).
Proof.
  induction rows as [|watch rows IH]; intros Hnone; [done|]. simpl.
  rewrite bool_decide_eq_false_2 by (apply Hnone; left).
  apply IH. intros ??. apply Hnone. by right.
Qed.

(** A row that carries a code of the list makes the list shorter. *)
Lemma match_rows_some rows ids acc out ids' (watch : Watch) :
  match_rows mk rows ids acc = (Ret out, ids') →
  watch ∈ rows → code watch ∈ ids → (length ids' < length ids)%nat.
Proof.
  revert ids acc. induction rows as [|watch0 rows IH]; intros ids acc; simpl.
  { intros _ Hw. by apply elem_of_nil in Hw. }
  intros Hrun Hw Hin.
  case_bool_decide as Hin0.
  - destruct (stock_of watch0) as [n0|e|]; [|done..].
    destruct (remove_first _ _) as [ids1|] eqn:Hrem; [|done].
    apply match_rows_sublist, sublist_length in Hrun.
    apply remove_first_perm, Permutation_length in Hrem. simpl in Hrem. lia.
  - apply elem_of_cons in Hw as [->|Hw]; [done|]. by eapply IH.
Qed.
End MatchRows.

(** [create_prices] reads the list object and changes nothing. *)
Lemma seller_create_prices_run (rows : list Watch) (l : loc)
    (ids : list string) (w : World) :
  heap w !! l = Some ids →
  Seller.create_prices rows l w
  = (fold_outcome (price_turn ozon_convert ozon_price ids) rows [], w).
Proof.
  intros Hl. apply for_fold_pure. intros acc watch.
  rewrite bind_run, (list_contains_run _ _ ids) by done.
  unfold price_turn, ozon_convert. fold (code watch).
  case_bool_decide; [|done].
  rewrite bind_run. unfold lift.
  by destruct (Seller.price_conversion _).
Qed.

Lemma market_create_prices_run (rows : list Watch) (l : loc)
    (ids : list string) (w : World) :
  heap w !! l = Some ids →
  Market.create_prices rows l w
  = (fold_outcome (price_turn market_convert market_price ids) rows [], w).
Proof.
  intros Hl. apply for_fold_pure. intros acc watch.
  rewrite bind_run, (list_contains_run _ _ ids) by done.
  unfold price_turn, market_convert. fold (code watch).
  case_bool_decide; [|done].
  rewrite bind_run. unfold lift.
  destruct (Seller.price_conversion _) as [converted|e|]; [|done..].
  rewrite bind_run. by destruct (py_int _).
Qed.

Section PriceTurns.
Context {V P : Type} (convert : Watch → Outcome V) (mk : string → V → P).
Context (id_of : P → string) (id_of_mk : ∀ id v, id_of (mk id v) = id).
Implicit Types (rows : list Watch) (ids : list string) (acc : list P).

(** The ids of the price records: the codes of the rows that are in the
    list, in the order of the rows. *)
Lemma price_turns_ret rows ids acc prices :
  fold_outcome (price_turn convert mk ids) rows acc = Ret prices →
  ∃ priced,
    prices = acc ++ priced
    ∧ id_of <$> priced = filter (λ id, id ∈ ids) (code <$> rows)
    ∧ Forall (λ p, ∃ watch v, watch ∈ rows ∧ convert watch = Ret v
                     ∧ p = mk (code watch) v) priced.
Proof.
  revert acc. induction rows as [|watch rows IH]; intros acc; simpl.
  { intros [= <-]. exists []. by rewrite app_nil_r. }
  unfold price_turn at 1. rewrite filter_cons.
  destruct (decide (code watch ∈ ids)) as [Hin|Hin].
  - rewrite bool_decide_eq_true_2 by done.
    destruct (convert watch) as [v|e|] eqn:Hv; [|done..].
    intros (priced & -> & Hids & Hall)%IH.
    exists (mk (code watch) v :: priced).
    split; [by rewrite <- app_assoc|]. split.
    + by rewrite fmap_cons, id_of_mk, Hids.
    + constructor; [exists watch, v; repeat split; [left|done..]|].
      eapply Forall_impl; [done|]. simpl.
      intros p (watch' & v' & ? & ? & ->). exists watch', v'.
      repeat split; [by right|done..].
  - rewrite bool_decide_eq_false_2 by done.
    intros (priced & -> & Hids & Hall)%IH. exists priced.
    repeat split; [done|].
    eapply Forall_impl; [done|]. simpl.
    intros p (watch' & v' & ? & ? & ->). exists watch', v'.
    repeat split; [by right|done..].
Qed.

Lemma price_turns_raise rows ids acc e :
  fold_outcome (price_turn convert mk ids) rows acc = Raise e →
  ∃ watch, watch ∈ rows ∧ code watch ∈ ids ∧ convert watch = Raise e.
Proof.
  revert acc. induction rows as [|watch rows IH]; intros acc; simpl; [done|].
  unfold price_turn at 1. case_bool_decide as Hin.
  - destruct (convert watch) as [v|e'|] eqn:Hv; [| |done].
    + intros (watch' & ? & ? & ?)%IH. exists watch'.
      repeat split; [by right|done..].
    + intros [= ->]. exists watch. repeat split; [left|done..].
  - intros (watch' & ? & ? & ?)%IH. exists watch'.
    repeat split; [by right|done..].
Qed.

Lemma price_turns_fuel rows ids acc :
  (∀ watch, convert watch ≠ OutOfFuel) →
  fold_outcome (price_turn convert mk ids) rows acc ≠ OutOfFuel.
Proof.
  intros Hc. revert acc.
  induction rows as [|watch rows IH]; intros acc; simpl; [done|].
  unfold price_turn at 1. case_bool_decide as Hin; [|apply IH].
  destruct (convert watch) as [v|e'|] eqn:Hv; [apply IH|done|].
  by apply Hc in Hv.
Qed.

(** A list that holds no code of the rows gives no price record. *)
Lemma price_turns_none rows ids acc :
  (∀ watch, watch ∈ rows → code watch ∉ ids) →
  fold_outcome (price_turn convert mk ids) rows acc = Ret acc.
Proof.
  revert acc. induction rows as [|watch rows IH]; intros acc Hnone; [done|].
  simpl. unfold price_turn at 1.
  rewrite bool_decide_eq_false_2 by (apply Hnone; left).
  apply IH. intros ??. apply Hnone. by right.
Qed.
End PriceTurns.

Lemma price_conversion_fuel (v : PyVal) : Seller.price_conversion v ≠ OutOfFuel.
Proof.
  unfold Seller.price_conversion. destruct v; try done.
  by destruct (split_on _ _).
Qed.


Lemma market_convert_fuel (watch : Watch) : market_convert watch ≠ OutOfFuel.
Proof.
  unfold market_convert.
  destruct (Seller.price_conversion _) eqn:H; [apply py_int_fuel|done|].
  by apply price_conversion_fuel in H.
Qed.

(** C1. Whenever the offer-id list holds [remote], [create_stocks] of either
    marketplace returns records whose offer ids are exactly the remote ids,
    as a multiset, hence without duplicates when the remote ids are pairwise
    distinct; the only other outcome is the exception of a count that could
    not be read. *)
Theorem create_stocks_complete (env : Environment) (rows : list Watch)
    (l : loc) (remote : list string) (warehouse_id : string) (w : World) :
  heap w !! l = Some remote →
  stock_ids_spec SellerData.offer_id rows remote
    (fst (Seller.create_stocks rows l w))
  ∧ stock_ids_spec MarketData.sku rows remote
      (fst (Market.create_stocks env rows l warehouse_id w)).
Proof.
  intros Hl.
  assert (∀ {R} (mk : string → Z → R) (id_of : R → string),
            (∀ id n, id_of (mk id n) = id) →
            stock_ids_spec id_of rows remote
              (fst (stocks_result mk rows remote))) as Hgen.
  { intros R mk id_of Hid. unfold stocks_result.
    destruct (match_rows mk rows remote []) as [[matched|e|] ids'] eqn:Hrun.
    - apply (match_rows_ret mk id_of Hid) in Hrun as (m & -> & Hperm & _).
      simpl. rewrite fmap_app, <- list_fmap_compose.
      assert ((id_of ∘ (λ id, mk id 0)) <$> ids' = ids') as ->.
      { rewrite <- (list_fmap_id ids') at 2.
        apply list_fmap_ext. intros; simpl; apply Hid. }
      split; [done|]. intros Hnd. by rewrite Hperm.
    - simpl. by eapply match_rows_raise.
    - by apply match_rows_fuel in Hrun. }
  split.
  - rewrite (seller_create_stocks_run rows l remote) by done.
    by apply Hgen.
  - rewrite (market_create_stocks_run env rows l warehouse_id remote) by done.
    by apply Hgen.
Qed.

(** The scenario of the specification: two rows against three remote ids. *)
Lemma create_stocks_complete_witness :
  stock_ids_spec SellerData.offer_id scenario_rows scenario_remote
    (fst (Seller.create_stocks scenario_rows 1%positive scenario_world))
  ∧ stock_ids_spec MarketData.sku scenario_rows scenario_remote
      (fst (Market.create_stocks
              silent_environment scenario_rows 1%positive "W" scenario_world)).
Proof. apply create_stocks_complete. reflexivity. Defined.

(** C3. Whenever the offer-id list holds [remote], [create_prices] of either
    marketplace returns a price record for an id exactly when the id is a
    remote id and the code of an inventory row; the only other outcome is the
    exception of a price that could not be read. *)
Theorem create_prices_domain (rows : list Watch) (l : loc)
    (remote : list string) (w : World) :
  heap w !! l = Some remote →
  price_ids_spec SellerData.price_offer_id ozon_convert rows remote
    (fst (Seller.create_prices rows l w))
  ∧ price_ids_spec MarketData.id market_convert rows remote
      (fst (Market.create_prices rows l w)).
Proof.
  intros Hl.
  assert (∀ {V P} (convert : Watch → Outcome V) (mk : string → V → P)
            (id_of : P → string),
            (∀ id v, id_of (mk id v) = id) →
            (∀ watch, convert watch ≠ OutOfFuel) →
            price_ids_spec id_of convert rows remote
              (fold_outcome (price_turn convert mk remote) rows [])) as Hgen.
  { intros V P convert mk id_of Hid Hfuel.
    destruct (fold_outcome _ rows []) as [prices|e|] eqn:Hrun; simpl.
    - apply (price_turns_ret convert mk id_of Hid) in Hrun
        as (priced & -> & Hids & _).
      intros id. simpl. rewrite Hids, list_elem_of_filter. tauto.
    - by eapply price_turns_raise.
    - by apply price_turns_fuel in Hrun. }
  split.
  - rewrite (seller_create_prices_run rows l remote) by done.
    apply Hgen; [done|]. intros watch. apply price_conversion_fuel.
  - rewrite (market_create_prices_run rows l remote) by done.
    apply Hgen; [done|]. apply market_convert_fuel.
Qed.

Lemma create_prices_domain_witness :
  price_ids_spec SellerData.price_offer_id ozon_convert
    scenario_rows scenario_remote
    (fst (Seller.create_prices scenario_rows 1%positive scenario_world))
  ∧ price_ids_spec MarketData.id market_convert scenario_rows scenario_remote
      (fst (Market.create_prices scenario_rows 1%positive scenario_world)).
Proof. apply create_prices_domain. reflexivity. Defined.

(** The count the code computes for a row is the count of its quantity
    cell. *)
Lemma stock_of_cell (watch : Watch) :
  stock_of watch = cell_count (dict_get watch "Количество").
Proof.
  unfold stock_of, quantity_token.
  destruct (dict_get watch "Количество") as [|s|z|b|f]; cbn [py_str cell_count py_int].
  - done.
  - done.
  - destruct (str_of_int_tokens z) as [Hne H1].
    destruct (String.eqb_spec (str_of_int z) ">10"); [done|].
    destruct (String.eqb_spec (str_of_int z) "1") as [Heq|Hne1].
    + by rewrite (H1 Heq).
    + destruct (Z.eqb_spec z 1) as [->|]; done.
  - by destruct b.
  - pose proof (float_repr_marker f) as Hm.
    destruct (String.eqb_spec (float_repr f) ">10") as [Heq|_];
      [by rewrite Heq in Hm|].
    destruct (String.eqb_spec (float_repr f) "1") as [Heq|_];
      [by rewrite Heq in Hm|done].
Qed.

(** A quantity token that normalises belongs to a cell whose count is that
    number: the token of a truth value, of a number that is not whole and of
    an absent cell does not normalise. *)
Lemma stock_of_ret (watch : Watch) (n : Z) :
  normalize_quantity (quantity_token watch) = Ret n → stock_of watch = Ret n.
Proof.
  rewrite stock_of_cell. unfold quantity_token.
  destruct (dict_get watch "Количество") as [|s|z|b|f];
    cbn [py_str cell_count].
  - by vm_compute.
  - done.
  - destruct (str_of_int_tokens z) as [Hne H1]. unfold normalize_quantity.
    destruct (String.eqb_spec (str_of_int z) ">10"); [done|].
    destruct (String.eqb_spec (str_of_int z) "1") as [Heq|Hne1].
    + by rewrite (H1 Heq).
    + intros ->%int_of_str_of_int_ret.
      destruct (Z.eqb_spec z 1) as [->|]; done.
  - destruct b; by vm_compute.
  - pose proof (float_repr_marker f) as Hm. unfold normalize_quantity.
    destruct (String.eqb_spec (float_repr f) ">10") as [Heq|_];
      [by rewrite Heq in Hm|].
    destruct (String.eqb_spec (float_repr f) "1") as [Heq|_];
      [by rewrite Heq in Hm|].
    intros H. by apply int_of_str_marker in H.
Qed.

(** ** Counting occurrences *)

Lemma occurrences_cons (x y : string) (l : list string) :
  occurrences x (y :: l)
  = ((if bool_decide (y = x) then 1 else 0) + occurrences x l)%nat.
Proof.
  unfold occurrences. rewrite filter_cons. by case_bool_decide; case_decide.
Qed.

Lemma occurrences_elem (x : string) (l : list string) :
  x ∈ l ↔ (0 < occurrences x l)%nat.
Proof.
  induction l as [|y l IH].
  { split; [by intros ?%elem_of_nil|]. intros H. by apply Nat.lt_irrefl in H. }
  rewrite occurrences_cons, elem_of_cons, IH.
  case_bool_decide as Hy; [subst; split; [lia|by left]|].
  split; [intros [->|?]; [done|lia]|intros ?; right; lia].
Qed.

Lemma occurrences_remove_first (x y : string) (l l' : list string) :
  remove_first y l = Some l' →
  occurrences x l
  = ((if bool_decide (y = x) then 1 else 0) + occurrences x l')%nat.
Proof.
  intros Hr%remove_first_perm. rewrite <- occurrences_cons.
  unfold occurrences. by rewrite Hr.
Qed.

Lemma remove_first_none (x : string) (l : list string) :
  x ∉ l → remove_first x l = None.
Proof.
  induction l as [|y l IH]; [done|].
  intros [Hne Hl]%not_elem_of_cons. simpl.
  case_bool_decide; [done|]. by rewrite IH.
Qed.

(** ** The rows served *)

Section Served.
Context {R : Type} (mk : string → Z → R) (remote : list string).

(** The first loop makes the records of the rows served; [ids] is what the
    list holds once the rows whose codes are [earlier] have had their
    turn. *)
Lemma match_rows_served (rows : list Watch) (ids earlier : list string)
    (acc : list R) :
  (∀ c, occurrences c ids = occurrences c remote - occurrences c earlier)%nat →
  fst (match_rows mk rows ids acc)
  = match row_records mk (served remote earlier rows) with
    | Ret records => Ret (acc ++ records)
    | failure => failure
    end.
Proof.
  revert ids earlier acc.
  induction rows as [|watch rows IH]; intros ids earlier acc Hinv.
  { simpl. by rewrite app_nil_r. }
  cbn [match_rows served].
  assert (code watch ∈ ids
          ↔ (occurrences (code watch) earlier
             < occurrences (code watch) remote)%nat) as Hserved.
  { rewrite occurrences_elem, Hinv. lia. }
  case_bool_decide as Hin.
  - rewrite bool_decide_true by (by apply Hserved).
    cbn [row_records]. rewrite stock_of_cell.
    destruct (cell_count _) as [n|e|]; [|done..].
    destruct (remove_first_elem _ _ Hin) as [ids' Hrem]. rewrite Hrem.
    rewrite (IH ids' (code watch :: earlier)).
    + destruct (row_records _ _); [|done..]. by rewrite <- app_assoc.
    + intros c. rewrite occurrences_cons.
      pose proof (occurrences_remove_first c _ _ _ Hrem) as Hc.
      rewrite Hinv in Hc. case_bool_decide; lia.
  - rewrite bool_decide_false by (by rewrite <- Hserved).
    apply IH. intros c. rewrite occurrences_cons, Hinv.
    case_bool_decide as Hc; [|lia]. subst c.
    assert (occurrences (code watch) ids = 0)%nat as Hzero.
    { destruct (occurrences (code watch) ids) eqn:Ho; [done|].
      exfalso. apply Hin, occurrences_elem. lia. }
    rewrite Hinv in Hzero. lia.
Qed.

(** What the first loop leaves of the list when it returns. *)
Lemma match_rows_leaves (rows : list Watch) (ids ids' : list string)
    (acc out : list R) :
  match_rows mk rows ids acc = (Ret out, ids') →
  ids' = remove_each (code <$> rows) ids.
Proof.
  revert ids acc. induction rows as [|watch rows IH]; intros ids acc; simpl.
  { by intros [= _ <-]. }
  case_bool_decide as Hin.
  - destruct (stock_of watch) as [n|e|]; [|done..].
    destruct (remove_first_elem _ _ Hin) as [ids1 Hrem]. rewrite Hrem.
    apply IH.
  - rewrite remove_first_none by done. apply IH.
Qed.
End Served.

(** ** The remote ids not served *)

Lemma remove_first_skip (x y : string) (l : list string) :
  x ≠ y →
  default (y :: l) (remove_first x (y :: l)) = y :: default l (remove_first x l).
Proof.
  intros Hne. simpl. rewrite bool_decide_false by done.
  by destruct (remove_first x l).
Qed.

Lemma remove_each_cons (id : string) (codes ids : list string) :
  remove_each codes (id :: ids)
  = match remove_first id codes with
    | Some codes' => remove_each codes' ids
    | None => id :: remove_each codes ids
    end.
Proof.
  revert ids. induction codes as [|c codes IH]; intros ids; [done|].
  change (remove_each (c :: codes) (id :: ids))
    with (remove_each codes (default (id :: ids) (remove_first c (id :: ids)))).
  destruct (decide (c = id)) as [->|Hne].
  - simpl. by rewrite !bool_decide_true by done.
  - rewrite remove_first_skip, IH by done. simpl.
    rewrite (bool_decide_false (id = c)) by done.
    by destruct (remove_first id codes).
Qed.

(** Only the surplus of the codes over the earlier ids matters. *)
Lemma unserved_surplus (codes1 earlier1 codes2 earlier2 remote : list string) :
  (∀ c, occurrences c codes1 - occurrences c earlier1
        = occurrences c codes2 - occurrences c earlier2)%nat →
  unserved codes1 earlier1 remote = unserved codes2 earlier2 remote.
Proof.
  revert earlier1 earlier2.
  induction remote as [|id remote IH]; intros earlier1 earlier2 Heq; [done|].
  cbn [unserved].
  rewrite (IH (id :: earlier1) (id :: earlier2)).
  2:{ intros c. rewrite !occurrences_cons. specialize (Heq c).
      case_bool_decide; lia. }
  specialize (Heq id).
  case_bool_decide; case_bool_decide; (done || lia).
Qed.

Lemma remove_each_unserved (codes remote : list string) :
  remove_each codes remote = unserved codes [] remote.
Proof.
  revert codes. induction remote as [|id remote IH]; intros codes.
  { unfold remove_each. induction codes as [|c codes IHc]; [done|]. apply IHc. }
  rewrite remove_each_cons. cbn [unserved].
  change (occurrences id []) with 0%nat.
  destruct (remove_first id codes) as [codes'|] eqn:Hrem.
  - assert (id ∈ codes) as Hin.
    { apply remove_first_perm in Hrem. rewrite Hrem. by left. }
    rewrite bool_decide_true by (by apply occurrences_elem).
    rewrite IH. apply unserved_surplus. intros c.
    rewrite (occurrences_remove_first c _ _ _ Hrem), occurrences_cons.
    change (occurrences c []) with 0%nat. case_bool_decide; lia.
  - assert (id ∉ codes) as Hin.
    { intros [codes' ?]%remove_first_elem. congruence. }
    rewrite bool_decide_false by (by rewrite <- occurrences_elem).
    rewrite IH. f_equal. apply unserved_surplus. intros c.
    rewrite occurrences_cons. change (occurrences c []) with 0%nat.
    case_bool_decide as Hc; [|lia]. subst c.
    destruct (occurrences id codes) eqn:Ho; [lia|].
    exfalso. apply Hin, occurrences_elem. lia.
Qed.

Lemma stocks_result_expected {R} (mk : string → Z → R) (rows : list Watch)
    (remote : list string) :
  fst (stocks_result mk rows remote) = expected_stocks mk rows remote.
Proof.
  unfold stocks_result, expected_stocks.
  pose proof (match_rows_served mk remote rows remote [] []) as Hrun.
  destruct (match_rows mk rows remote []) as [o ids'] eqn:Hrows.
  cbn [fst] in Hrun.
  rewrite Hrun in * by (intros c; change (occurrences c []) with 0%nat; lia).
  clear Hrun.
  destruct (row_records mk (served remote [] rows)) as [records|e|]; [|done..].
  apply match_rows_leaves in Hrows as ->.
  by rewrite remove_each_unserved.
Qed.

(** The quantity tokens of the specification. *)
Example normalize_quantity_tokens :
  normalize_quantity ">10" = Ret 100
  ∧ normalize_quantity "1" = Ret 0
  ∧ normalize_quantity "37" = Ret 37
  ∧ normalize_quantity "many" = Raise (MkExn ValueError "many").
Proof. repeat split; reflexivity. Qed.

(** The end-to-end scenario of the specification, for Ozon. *)
Example scenario_records :
  fst (Seller.create_stocks scenario_rows 1%positive scenario_world)
  = Ret [SellerData.MkStock "A" 100; SellerData.MkStock "B" 0;
         SellerData.MkStock "C" 0]
  ∧ fst (Seller.create_prices scenario_rows 1%positive scenario_world)
    = Ret [ozon_price "A" "100"; ozon_price "B" "50"].
Proof. split; reflexivity. Qed.

(** C2, as the code has it.  Whenever the offer-id list holds [remote],
    [create_stocks] of either marketplace gives exactly the records of
    [expected_stocks].  A row gets a record when its code occurs among the
    remote ids more often than among the codes of the rows before it: for
    pairwise distinct remote ids, the first row that carries a remote code,
    and no later row with the same code.  The count of the record is 100
    when the text of the quantity cell is [">10"], 0 when it is ["1"], and
    [int] of the cell otherwise: the base-10 integer the token parses to when
    the cell is a text, the number itself when the cell is a whole number, 0
    or 1 for a truth value, and the number without its fraction when it is
    not whole.  After these records comes one record of count 0 for every
    remote id left over, and nothing else.  The quantity of the first row
    served that cannot be read is not given a default: the call raises the
    exception of [int]. *)
Theorem create_stocks_counts (env : Environment) (rows : list Watch)
    (l : loc) (remote : list string) (warehouse_id : string) (w : World) :
  heap w !! l = Some remote →
  fst (Seller.create_stocks rows l w) = expected_stocks ozon_stock rows remote
  ∧ fst (Market.create_stocks env rows l warehouse_id w)
    = expected_stocks
        (market_stock warehouse_id (utcnow env (trace w) +:+ "Z")) rows remote.
Proof.
  intros Hl. split.
  - rewrite (seller_create_stocks_run rows l remote) by done.
    apply stocks_result_expected.
  - rewrite (market_create_stocks_run env rows l warehouse_id remote) by done.
    apply stocks_result_expected.
Qed.

(** The scenario of the specification: the counts 100, 0 and 0. *)
Lemma create_stocks_counts_witness :
  fst (Seller.create_stocks scenario_rows 1%positive scenario_world)
  = Ret [SellerData.MkStock "A" 100; SellerData.MkStock "B" 0;
         SellerData.MkStock "C" 0]
  ∧ fst (Market.create_stocks silent_environment scenario_rows 1%positive "W"
           scenario_world)
    = expected_stocks (market_stock "W" "2024-01-01T00:00:00Z")
        scenario_rows scenario_remote.
Proof.
  apply (create_stocks_counts silent_environment scenario_rows 1%positive
           scenario_remote "W" scenario_world).
  reflexivity.
Defined.

(** C2 as stated fails.  Of two rows that carry the same remote code the
    second gets no record, and its quantity, which is no number, raises
    nothing.  And a quantity cell that holds the number 2.5, whose token
    ["2.5"] is no base-10 integer, gets the count 2 and raises nothing. *)
Lemma create_stocks_skips_repeated_code :
  heap negative_world !! 1%positive = Some ["A"]
  ∧ code <$> repeated_rows = ["A"; "A"]
  ∧ quantity_token <$> repeated_rows = ["5"; "many"]
  ∧ normalize_quantity "many" = Raise (MkExn ValueError "many")
  ∧ fst (Seller.create_stocks repeated_rows 1%positive negative_world)
    = Ret [SellerData.MkStock "A" 5]
  ∧ fst (Market.create_stocks silent_environment repeated_rows 1%positive "W"
           negative_world)
    = Ret [market_stock "W" "2024-01-01T00:00:00Z" "A" 5]
  ∧ quantity_token <$> fraction_rows = ["2.5"]
  ∧ normalize_quantity "2.5" = Raise (MkExn ValueError "2.5")
  ∧ fst (Seller.create_stocks fraction_rows 1%positive negative_world)
    = Ret [SellerData.MkStock "A" 2]
  ∧ fst (Market.create_stocks silent_environment fraction_rows 1%positive "W"
           negative_world)
    = Ret [market_stock "W" "2024-01-01T00:00:00Z" "A" 2].
Proof. vm_compute. done. Qed.

Lemma stocks_result_frame {R} (mk : string → Z → R) (id_of : R → string)
    (rows : list Watch) (remote : list string) (l : loc) (w : World) :
  (∀ id n, id_of (mk id n) = id) →
  heap w !! l = Some remote →
  stock_frame_spec rows remote l w
    (fst (stocks_result mk rows remote),
     with_list w l (snd (stocks_result mk rows remote))).
Proof.
  intros Hid Hl. unfold stock_frame_spec. cbn [fst snd].
  split; [done|]. split.
  { intros l' Hne. unfold with_list. simpl. by rewrite lookup_insert_ne. }
  exists (snd (stocks_result mk rows remote)).
  split; [apply with_list_lookup|].
  unfold stocks_result.
  destruct (match_rows mk rows remote []) as [o ids'] eqn:Hrun.
  assert (ids' `sublist_of` remote) as Hsub by (by eapply match_rows_sublist).
  assert ((∀ watch, watch ∈ rows → code watch ∉ remote) → ids' = remote) as Hnone.
  { intros Hn. rewrite (match_rows_none mk) in Hrun by done. congruence. }
  destruct o as [matched|e|]; cbn [fst snd];
    (split; [done|]); (split; [done|]); intros stocks Hret; [|done..].
  split.
  - intros (watch & Hw & Hin). by eapply (match_rows_some mk).
  - intros Hnd id. split.
    + intros Hr. split; [by eapply elem_of_sublist|].
      intros (watch & -> & Hw)%list_elem_of_fmap.
      by eapply (match_rows_consumes mk).
    + intros [Hr Hnot]. by eapply (match_rows_unmatched mk).
Qed.

(** C4, as the code has it.  [create_stocks] takes the matched codes out of
    the caller's own list object: there is no working copy.  After the call
    the object holds a sub-sequence of what it held; it is unchanged when no
    row carries a remote code, shorter when the call returns and some row
    does, and for pairwise distinct remote ids it then holds exactly the ids
    that are the code of no row.  The trace and every other list object are
    as before. *)
Theorem create_stocks_frame (env : Environment) (rows : list Watch)
    (l : loc) (remote : list string) (warehouse_id : string) (w : World) :
  heap w !! l = Some remote →
  stock_frame_spec rows remote l w (Seller.create_stocks rows l w)
  ∧ stock_frame_spec rows remote l w
      (Market.create_stocks env rows l warehouse_id w).
Proof.
  intros Hl. split.
  - rewrite (seller_create_stocks_run rows l remote) by done.
    by apply (stocks_result_frame ozon_stock SellerData.offer_id).
  - rewrite (market_create_stocks_run env rows l warehouse_id remote) by done.
    by apply (stocks_result_frame _ MarketData.sku).
Qed.

Lemma create_stocks_frame_witness :
  stock_frame_spec scenario_rows scenario_remote 1%positive scenario_world
    (Seller.create_stocks scenario_rows 1%positive scenario_world)
  ∧ stock_frame_spec scenario_rows scenario_remote 1%positive scenario_world
      (Market.create_stocks silent_environment scenario_rows 1%positive "W"
         scenario_world).
Proof. apply create_stocks_frame. reflexivity. Defined.

(** C4 as stated fails: in the scenario of the specification the caller's
    list holds ["A"; "B"; "C"] before the call and ["C"] after it. *)
Lemma create_stocks_changes_caller_list :
  heap scenario_world !! 1%positive = Some ["A"; "B"; "C"]
  ∧ heap (snd (Seller.create_stocks scenario_rows 1%positive scenario_world))
      !! 1%positive = Some ["C"]
  ∧ heap (snd (Market.create_stocks silent_environment scenario_rows
                 1%positive "W" scenario_world))
      !! 1%positive = Some ["C"].
Proof. vm_compute. done. Qed.

Lemma price_conversion_digits (v : PyVal) (converted : string) :
  Seller.price_conversion v = Ret converted →
  ∃ s, converted = delete_non_digits s.
Proof.
  unfold Seller.price_conversion. destruct v as [|s|z|b|f]; [done| |done..].
  destruct (split_on _ _) as [|first rest]; [done|].
  intros [= <-]. exists first. apply re_sub_non_digit_filter.
Qed.

Lemma market_convert_nonneg (watch : Watch) (z : Z) :
  market_convert watch = Ret z → 0 ≤ z.
Proof.
  unfold market_convert.
  destruct (Seller.price_conversion _) as [converted|e|] eqn:Hc; [|done..].
  apply price_conversion_digits in Hc as [s ->]. simpl.
  apply int_of_digits_nonneg.
Qed.

Lemma stock_of_nonneg (watch : Watch) (n : Z) :
  (∀ q, py_int (dict_get watch "Количество") = Ret q → 0 ≤ q) →
  stock_of watch = Ret n → 0 ≤ n.
Proof.
  intros Hq. unfold stock_of.
  destruct (String.eqb _ ">10"); [intros [= <-]; lia|].
  destruct (String.eqb _ "1"); [intros [= <-]; lia|].
  apply Hq.
Qed.

Lemma stocks_result_nonneg {R} (mk : string → Z → R) (id_of : R → string)
    (nonneg : R → Prop) (rows : list Watch) (remote : list string)
    (stocks : list R) :
  (∀ id n, id_of (mk id n) = id) → (∀ id n, 0 ≤ n → nonneg (mk id n)) →
  (∀ watch q, watch ∈ rows → code watch ∈ remote →
     py_int (dict_get watch "Количество") = Ret q → 0 ≤ q) →
  fst (stocks_result mk rows remote) = Ret stocks →
  Forall nonneg stocks.
Proof.
  intros Hid Hmk Hrows. unfold stocks_result.
  destruct (match_rows mk rows remote []) as [[matched|e|] ids'] eqn:Hrun;
    [|done..].
  intros [= <-].
  apply (match_rows_ret mk id_of Hid) in Hrun as (m & [= ->] & _ & Hall).
  apply Forall_app. split.
  - eapply Forall_impl; [done|]. simpl.
    intros r (watch & n & ? & ? & Hn & ->). apply Hmk.
    eapply stock_of_nonneg; [|done]. intros q. by apply Hrows.
  - apply Forall_fmap, Forall_forall. intros id _. simpl. by apply Hmk.
Qed.

(** C9, as the code has it.  Every price record of [create_prices] carries a
    price that is not negative: an integer at least 0 for Yandex Market, a
    string of digits for Ozon.  Every stock record of [create_stocks] carries
    a count that is not negative provided no row with a remote code has a
    quantity that reads as a negative integer; such a quantity is passed on
    as it is. *)
Theorem records_nonnegative (env : Environment) (rows : list Watch)
    (l : loc) (remote : list string) (warehouse_id : string) (w : World) :
  heap w !! l = Some remote →
  (∀ prices, fst (Market.create_prices rows l w) = Ret prices →
     Forall (λ p, 0 ≤ MarketData.value (MarketData.price p)) prices)
  ∧ (∀ prices, fst (Seller.create_prices rows l w) = Ret prices →
       Forall (λ p, ∀ z, int_of_str (SellerData.price p) = Ret z → 0 ≤ z)
              prices)
  ∧ ((∀ watch q, watch ∈ rows → code watch ∈ remote →
        py_int (dict_get watch "Количество") = Ret q → 0 ≤ q) →
     (∀ stocks, fst (Seller.create_stocks rows l w) = Ret stocks →
        Forall (λ s, 0 ≤ SellerData.stock s) stocks)
     ∧ (∀ stocks,
          fst (Market.create_stocks env rows l warehouse_id w) = Ret stocks →
          Forall (λ s, Forall (λ item, 0 ≤ MarketData.count item)
                              (MarketData.items s)) stocks)).
Proof.
  intros Hl. split; [|split].
  - intros prices.
    rewrite (market_create_prices_run rows l remote) by done. cbn [fst].
    intros (priced & -> & _ & Hall)%(price_turns_ret _ _ MarketData.id);
      [|done].
    eapply Forall_impl; [done|]. simpl.
    intros p (watch & z & _ & Hz & ->). simpl.
    by eapply market_convert_nonneg.
  - intros prices.
    rewrite (seller_create_prices_run rows l remote) by done. cbn [fst].
    intros (priced & -> & _ & Hall)%(price_turns_ret _ _ SellerData.price_offer_id);
      [|done].
    eapply Forall_impl; [done|]. simpl.
    intros p (watch & v & _ & Hv & ->) z. simpl.
    apply price_conversion_digits in Hv as [s ->].
    apply int_of_digits_nonneg.
  - intros Hrows. split; intros stocks.
    + rewrite (seller_create_stocks_run rows l remote) by done. cbn [fst].
      by apply (stocks_result_nonneg ozon_stock SellerData.offer_id).
    + rewrite (market_create_stocks_run env rows l warehouse_id remote) by done.
      cbn [fst].
      apply (stocks_result_nonneg _ MarketData.sku); [done| |done].
      intros id n Hn. simpl. by repeat constructor.
Qed.

(** The scenario of the specification: the counts 100, 0 and 0. *)
Lemma records_nonnegative_witness :
  Forall (λ s, 0 ≤ SellerData.stock s)
    [SellerData.MkStock "A" 100; SellerData.MkStock "B" 0;
     SellerData.MkStock "C" 0].
Proof.
  refine (proj1 (proj2 (proj2
    (records_nonnegative silent_environment scenario_rows 1%positive
       scenario_remote "W" scenario_world _)) _) _ _).
  - reflexivity.
  - intros watch q Hw _.
    assert (watch = row (PStr "A") (PStr ">10") (PStr "100.00 руб")
            ∨ watch = row (PStr "B") (PStr "1") (PStr "50.00 руб")) as [->| ->].
    { unfold scenario_rows in Hw.
      apply elem_of_cons in Hw as [->|Hw]; [by left|].
      apply elem_of_cons in Hw as [->|Hw]; [by right|].
      by apply elem_of_nil in Hw. }
    + intros Hq. vm_compute in Hq. discriminate Hq.
    + intros Hq. vm_compute in Hq. injection Hq as <-. lia.
  - reflexivity.
Defined.

(** C9 as stated fails for the stock count: a row whose quantity is ["-5"]
    and whose code is remote gets the count -5. *)
Lemma create_stocks_negative_count :
  heap negative_world !! 1%positive = Some ["A"]
  ∧ fst (Seller.create_stocks negative_rows 1%positive negative_world)
    = Ret [SellerData.MkStock "A" (-5)]
  ∧ ¬ Forall (λ s, 0 ≤ SellerData.stock s) [SellerData.MkStock "A" (-5)].
Proof.
  split; [reflexivity|]. split; [reflexivity|].
  intros [H _]%Forall_cons. simpl in H. lia.
Qed.

(* ===================================================================== *)
(** * The paginator: [get_offer_ids]                                      *)
(* ===================================================================== *)

Lemma request_run {A} (r : Request) (reply : list Event → Outcome A) (w : World) :
  request r reply w
  = (reply (trace w ++ [Sent r]), MkWorld (heap w) (trace w ++ [Sent r])).
Proof. reflexivity. Qed.

Lemma market_loop_session (env : Environment) (c t : string) (page : string)
    (tr : list Event) (pages : list MarketData.Page) (tr' : list Event) :
  market_session env c t page tr pages tr' →
  ∀ (fuel : nat) (acc : list MarketData.Entry) (h : gmap loc (list string)),
    (length pages ≤ fuel)%nat →
    Market.get_offer_ids_loop env fuel page acc c t (MkWorld h tr)
    = (Ret (acc ++ concat (MarketData.offerMappingEntries <$> pages)),
       MkWorld h tr').
Proof.
  induction 1 as [page tr p Hp Hlast|page tr p ps tr' Hp Hmore _ IH];
    intros fuel acc h Hfuel; (destruct fuel as [|fuel]; [simpl in Hfuel; lia|]);
    cbn [Market.get_offer_ids_loop]; rewrite bind_run;
    unfold Market.get_product_list; rewrite request_run; cbn [heap trace];
    rewrite Hp.
  - rewrite Hlast. simpl. by rewrite app_nil_r.
  - rewrite Hmore. rewrite IH by (simpl in Hfuel; lia).
    simpl. by rewrite <- app_assoc.
Qed.

Lemma market_fails_requests (env : Environment) (c t : string) (page : string)
    (tr : list Event) (e : Exn) (tr' : list Event) :
  market_session_fails env c t page tr e tr' → (length tr < length tr')%nat.
Proof.
  induction 1; rewrite ?length_app in *; simpl in *; lia.
Qed.

Lemma market_loop_fails (env : Environment) (c t : string) (page : string)
    (tr : list Event) (e : Exn) (tr' : list Event) :
  market_session_fails env c t page tr e tr' →
  ∀ (fuel : nat) (acc : list MarketData.Entry) (h : gmap loc (list string)),
    (length tr' - length tr ≤ fuel)%nat →
    Market.get_offer_ids_loop env fuel page acc c t (MkWorld h tr)
    = (Raise e, MkWorld h tr').
Proof.
  induction 1 as [page tr e Hp|page tr p e tr' Hp Hmore Hrest IH];
    intros fuel acc h Hfuel.
  - rewrite length_app in Hfuel. simpl in Hfuel.
    destruct fuel as [|fuel]; [lia|].
    cbn [Market.get_offer_ids_loop]. rewrite bind_run.
    unfold Market.get_product_list. rewrite request_run. cbn [heap trace].
    by rewrite Hp.
  - assert (length tr + 1 < length tr')%nat as Hlen.
    { apply market_fails_requests in Hrest. rewrite length_app in Hrest.
      simpl in Hrest. lia. }
    destruct fuel as [|fuel]; [lia|].
    cbn [Market.get_offer_ids_loop]. rewrite bind_run.
    unfold Market.get_product_list. rewrite request_run. cbn [heap trace].
    rewrite Hp, Hmore. apply IH. rewrite length_app. simpl. lia.
Qed.

Lemma market_session_requests (env : Environment) (c t : string) (page : string)
    (tr : list Event) (pages : list MarketData.Page) (tr' : list Event) :
  market_session env c t page tr pages tr' →
  length tr' = (length tr + length pages)%nat.
Proof.
  induction 1 as [page tr p Hp Hlast|page tr p ps tr' Hp Hmore _ IH].
  - by rewrite length_app.
  - rewrite IH, length_app. simpl. lia.
Qed.

Lemma ozon_loop_session (env : Environment) (c t : string) (last_id : string)
    (n : nat) (tr : list Event) (pages : list SellerData.Page)
    (tr' : list Event) :
  ozon_session env c t last_id n tr pages tr' →
  ∀ (fuel : nat) (acc : list SellerData.Product) (h : gmap loc (list string)),
    length acc = n → (length pages ≤ fuel)%nat →
    Seller.get_offer_ids_loop env fuel last_id acc c t (MkWorld h tr)
    = (Ret (acc ++ concat (SellerData.items <$> pages)), MkWorld h tr').
Proof.
  induction 1 as [last_id n tr p Hp Hlast|last_id n tr p ps tr' Hp Hmore _ IH];
    intros fuel acc h Hacc Hfuel;
    (destruct fuel as [|fuel]; [simpl in Hfuel; lia|]);
    cbn [Seller.get_offer_ids_loop]; rewrite bind_run;
    unfold Seller.get_product_list; rewrite request_run; cbn [heap trace];
    rewrite Hp; rewrite length_app, Hacc.
  - rewrite Hlast, bool_decide_true by done. simpl. by rewrite app_nil_r.
  - rewrite bool_decide_false by done.
    rewrite IH; [|by rewrite length_app, Hacc|simpl in Hfuel; lia].
    simpl. by rewrite <- app_assoc.
Qed.

Lemma ozon_fails_requests (env : Environment) (c t : string) (last_id : string)
    (n : nat) (tr : list Event) (e : Exn) (tr' : list Event) :
  ozon_session_fails env c t last_id n tr e tr' → (length tr < length tr')%nat.
Proof.
  induction 1; rewrite ?length_app in *; simpl in *; lia.
Qed.

Lemma ozon_loop_fails (env : Environment) (c t : string) (last_id : string)
    (n : nat) (tr : list Event) (e : Exn) (tr' : list Event) :
  ozon_session_fails env c t last_id n tr e tr' →
  ∀ (fuel : nat) (acc : list SellerData.Product) (h : gmap loc (list string)),
    length acc = n → (length tr' - length tr ≤ fuel)%nat →
    Seller.get_offer_ids_loop env fuel last_id acc c t (MkWorld h tr)
    = (Raise e, MkWorld h tr').
Proof.
  induction 1 as [last_id n tr e Hp|last_id n tr p e tr' Hp Hmore Hrest IH];
    intros fuel acc h Hacc Hfuel.
  - rewrite length_app in Hfuel. simpl in Hfuel.
    destruct fuel as [|fuel]; [lia|].
    cbn [Seller.get_offer_ids_loop]. rewrite bind_run.
    unfold Seller.get_product_list. rewrite request_run. cbn [heap trace].
    by rewrite Hp.
  - assert (length tr + 1 < length tr')%nat as Hlen.
    { apply ozon_fails_requests in Hrest. rewrite length_app in Hrest.
      simpl in Hrest. lia. }
    destruct fuel as [|fuel]; [lia|].
    cbn [Seller.get_offer_ids_loop]. rewrite bind_run.
    unfold Seller.get_product_list. rewrite request_run. cbn [heap trace].
    rewrite Hp, length_app, Hacc, bool_decide_false by done.
    apply IH; [by rewrite length_app, Hacc|]. rewrite length_app. simpl. lia.
Qed.

Lemma ozon_session_requests (env : Environment) (c t : string) (last_id : string)
    (n : nat) (tr : list Event) (pages : list SellerData.Page)
    (tr' : list Event) :
  ozon_session env c t last_id n tr pages tr' →
  length tr' = (length tr + length pages)%nat.
Proof.
  induction 1 as [last_id n tr p Hp Hlast|last_id n tr p ps tr' Hp Hmore _ IH].
  - by rewrite length_app.
  - rewrite IH, length_app. simpl. lia.
Qed.

(** The second loop of [get_offer_ids]: the ids are appended one by one. *)
Lemma append_loop_run {A} (f : A → string) (items : list A) (l : loc)
    (content : list string) (w : World) :
  heap w !! l = Some content →
  for_each items (λ x, list_append l (f x)) w
  = (Ret tt, with_list w l (content ++ (f <$> items))).
Proof.
  revert content w. induction items as [|x items IH]; intros content w Hl.
  { simpl. by rewrite app_nil_r, with_list_same. }
  unfold for_each in *. cbn [for_fold]. rewrite bind_run.
  unfold list_append at 1. rewrite bind_run, (read_list_run l content) by done.
  unfold write_list. fold (with_list w l (content ++ [f x])).
  rewrite (IH (content ++ [f x])) by apply with_list_lookup.
  by rewrite with_list_twice, <- app_assoc.
Qed.

(** The end of [get_offer_ids]: a new list object receives the ids. *)
Lemma collect_ids_run {A} (f : A → string) (items : list A) (w : World) :
  let l := fresh (dom (heap w)) in
  heap w !! l = None
  ∧ (offer_ids <- new_list [] ;;
     for_each items (λ x, list_append offer_ids (f x)) ;;;
     ret offer_ids) w
    = (Ret l, with_list w l (f <$> items)).
Proof.
  intros l. split.
  { apply not_elem_of_dom. apply is_fresh. }
  rewrite bind_run. unfold new_list. fold l. fold (with_list w l []).
  rewrite bind_run.
  rewrite (append_loop_run f items l []) by apply with_list_lookup.
  by rewrite with_list_twice.
Qed.

(** C6. Against a well-behaved backend [get_offer_ids] of either marketplace
    terminates: given fuel for as many turns as the session has pages, it
    returns a new list holding the ids of all pages, in order, after exactly
    the requests of the session -- it stops at the first page with an empty
    or absent token (Yandex Market), or at the first page whose total equals
    the number of items fetched (Ozon), and not before.  When a page fetch
    fails, the exception comes out and no list is returned. *)
Theorem get_offer_ids_paginates (env : Environment) (account token : string)
    (w : World) :
  (∀ pages tr',
     market_session env account token "" (trace w) pages tr' →
     paginates_to (λ fuel, Market.get_offer_ids env fuel account token) w
       (length pages)
       (MarketData.shopSku <$> concat (MarketData.offerMappingEntries <$> pages))
       tr')
  ∧ (∀ e tr',
       market_session_fails env account token "" (trace w) e tr' →
       pagination_fails (λ fuel, Market.get_offer_ids env fuel account token) w
         (length tr' - length (trace w)) e tr')
  ∧ (∀ pages tr',
       ozon_session env account token "" 0 (trace w) pages tr' →
       paginates_to (λ fuel, Seller.get_offer_ids env fuel account token) w
         (length pages)
         (SellerData.product_offer_id <$> concat (SellerData.items <$> pages))
         tr')
  ∧ (∀ e tr',
       ozon_session_fails env account token "" 0 (trace w) e tr' →
       pagination_fails (λ fuel, Seller.get_offer_ids env fuel account token) w
         (length tr' - length (trace w)) e tr').
Proof.
  destruct w as [h tr]. cbn [trace heap]. split; [|split; [|split]].
  - intros pages tr' Hs fuel Hfuel l. split; [apply not_elem_of_dom, is_fresh|].
    unfold Market.get_offer_ids. rewrite bind_run.
    rewrite (market_loop_session _ _ _ _ _ _ _ Hs) by done.
    apply (collect_ids_run MarketData.shopSku).
  - intros e tr' Hs fuel Hfuel. unfold Market.get_offer_ids. rewrite bind_run.
    by rewrite (market_loop_fails _ _ _ _ _ _ _ Hs).
  - intros pages tr' Hs fuel Hfuel l. split; [apply not_elem_of_dom, is_fresh|].
    unfold Seller.get_offer_ids. rewrite bind_run.
    rewrite (ozon_loop_session _ _ _ _ _ _ _ _ Hs) by done.
    apply (collect_ids_run SellerData.product_offer_id).
  - intros e tr' Hs fuel Hfuel. unfold Seller.get_offer_ids. rewrite bind_run.
    by rewrite (ozon_loop_fails _ _ _ _ _ _ _ _ Hs).
Qed.

(** Three pages from either backend: four ids, three requests; and a second
    page that times out: no list, two requests. *)
Lemma get_offer_ids_paginates_witness :
  Market.get_offer_ids three_pages 3 "fbs" "token" empty_world
  = (Ret 1%positive,
     MkWorld {[ 1%positive := ["A"; "B"; "C"; "D"] ]}
       [Sent (MarketOfferMappingEntries "" "fbs" "token");
        Sent (MarketOfferMappingEntries "p2" "fbs" "token");
        Sent (MarketOfferMappingEntries "p3" "fbs" "token")])
  ∧ Seller.get_offer_ids three_pages 3 "client" "token" empty_world
    = (Ret 1%positive,
       MkWorld {[ 1%positive := ["A"; "B"; "C"; "D"] ]}
         [Sent (OzonProductList "" "client" "token");
          Sent (OzonProductList "id2" "client" "token");
          Sent (OzonProductList "id3" "client" "token")])
  ∧ Market.get_offer_ids second_page_times_out 2 "fbs" "token" empty_world
    = (Raise (MkExn ReadTimeout "read timed out"),
       MkWorld ∅
         [Sent (MarketOfferMappingEntries "" "fbs" "token");
          Sent (MarketOfferMappingEntries "p2" "fbs" "token")]).
Proof.
  split; [|split].
  - refine (proj2 (proj1 (get_offer_ids_paginates three_pages "fbs" "token"
                            empty_world)
              [MarketData.MkPage [MarketData.MkEntry "A"; MarketData.MkEntry "B"]
                 (Some "p2");
               MarketData.MkPage [MarketData.MkEntry "C"] (Some "p3");
               MarketData.MkPage [MarketData.MkEntry "D"] None]
              [Sent (MarketOfferMappingEntries "" "fbs" "token");
               Sent (MarketOfferMappingEntries "p2" "fbs" "token");
               Sent (MarketOfferMappingEntries "p3" "fbs" "token")]
              _ 3%nat _)).
    + apply market_session_next with (tr := []); [reflexivity..|].
      apply market_session_next
        with (tr := [Sent (MarketOfferMappingEntries "" "fbs" "token")]);
        [reflexivity..|].
      apply market_session_last
        with (tr := [Sent (MarketOfferMappingEntries "" "fbs" "token");
                     Sent (MarketOfferMappingEntries "p2" "fbs" "token")]);
        reflexivity.
    + simpl. lia.
  - refine (proj2 (proj1 (proj2 (proj2
              (get_offer_ids_paginates three_pages "client" "token"
                 empty_world)))
              [SellerData.MkPage
                 [SellerData.MkProduct 1 "A"; SellerData.MkProduct 2 "B"]
                 (Some 4) "id2";
               SellerData.MkPage [SellerData.MkProduct 3 "C"] (Some 4) "id3";
               SellerData.MkPage [SellerData.MkProduct 4 "D"] (Some 4) ""]
              [Sent (OzonProductList "" "client" "token");
               Sent (OzonProductList "id2" "client" "token");
               Sent (OzonProductList "id3" "client" "token")]
              _ 3%nat _)).
    + apply ozon_session_next with (tr := []); [reflexivity|done|].
      apply ozon_session_next
        with (tr := [Sent (OzonProductList "" "client" "token")]);
        [reflexivity|done|].
      apply ozon_session_last
        with (tr := [Sent (OzonProductList "" "client" "token");
                     Sent (OzonProductList "id2" "client" "token")]);
        reflexivity.
    + simpl. lia.
  - refine (proj1 (proj2 (get_offer_ids_paginates second_page_times_out
                            "fbs" "token" empty_world))
              (MkExn ReadTimeout "read timed out")
              [Sent (MarketOfferMappingEntries "" "fbs" "token");
               Sent (MarketOfferMappingEntries "p2" "fbs" "token")]
              _ 2%nat _).
    + apply market_fails_later with (tr := [])
        (p := MarketData.MkPage
                [MarketData.MkEntry "A"; MarketData.MkEntry "B"] (Some "p2"));
        [reflexivity..|].
      apply market_fails_now
        with (tr := [Sent (MarketOfferMappingEntries "" "fbs" "token")]).
      reflexivity.
    + simpl. lia.
Defined.

(* ===================================================================== *)
(** * The orchestrators: [main]                                           *)
(* ===================================================================== *)

Lemma env_str_run (env : Environment) (name value : string) (w : World) :
  environ env !! name = Some value → env_str env name w = (Ret value, w).
Proof. intros H. unfold env_str. by rewrite H. Qed.

(** A loop of update requests changes no list object and only sends its
    requests, whether it ends or is cut short by an exception. *)
Lemma update_loop_run {B} (req : B → Request) (reply : list Event → Outcome string)
    (batches : list B) (w : World) :
  ∃ evs,
    snd (for_each batches (λ b, _ <- request (req b) reply ;; ret tt) w)
    = MkWorld (heap w) (trace w ++ evs)
    ∧ Forall (λ ev, ∃ b, ev = Sent (req b)) evs.
Proof.
  revert w. induction batches as [|b batches IH]; intros w.
  { exists []. simpl. rewrite app_nil_r. by destruct w. }
  unfold for_each in *. cbn [for_fold]. rewrite bind_run, bind_run, request_run.
  destruct (reply _) as [ack|e|]; cbn [snd].
  - unfold ret at 1.
    destruct (IH (MkWorld (heap w) (trace w ++ [Sent (req b)])))
      as (evs & Hw & Hall).
    exists (Sent (req b) :: evs). cbn [heap trace] in Hw.
    rewrite <- app_assoc in Hw. split; [exact Hw|].
    constructor; [by exists b|done].
  - exists [Sent (req b)]. split; [done|]. repeat constructor. by exists b.
  - exists [Sent (req b)]. split; [done|]. repeat constructor. by exists b.
Qed.

Lemma divide_returns {A} (lst : list A) (n : Z) :
  0 < n → ∃ chunks, Seller.divide lst n = Ret chunks.
Proof. intros Hn. rewrite divide_chunks by done. by eexists. Qed.

(** Once [create_stocks] has returned on pairwise distinct remote ids,
    [create_prices] on the same list object finds nothing. *)
Lemma prices_after_stocks (rows : list Watch) (l : loc) (remote : list string)
    (stocks : list SellerData.Stock) (w w1 : World) :
  heap w !! l = Some remote → NoDup remote →
  Seller.create_stocks rows l w = (Ret stocks, w1) →
  ∃ remaining,
    heap w1 !! l = Some remaining ∧ trace w1 = trace w
    ∧ ∀ w2, heap w2 !! l = Some remaining →
            Seller.create_prices rows l w2 = (Ret [], w2).
Proof.
  intros Hl Hnd. rewrite (seller_create_stocks_run rows l remote) by done.
  unfold stocks_result.
  destruct (match_rows ozon_stock rows remote []) as [[m|e|] ids'] eqn:Hrun;
    [|done..].
  cbn [fst snd]. intros [= <- <-]. exists ids'.
  split; [apply with_list_lookup|]. split; [done|].
  intros w2 Hw2.
  rewrite (seller_create_prices_run rows l ids') by done.
  rewrite price_turns_none; [done|].
  by eapply (match_rows_consumes ozon_stock).
Qed.

Lemma report_run (e : Exn) (w : World) :
  ∃ args, report e w = (Ret tt, MkWorld (heap w) (trace w ++ [Printed args])).
Proof. unfold report. destruct (exn_kind e); by eexists. Qed.

(** The [try] with its three [except] clauses adds at most a print. *)
Lemma try_report_trace (body : M unit) (w : World) :
  ∃ evs,
    trace (snd (try_except body report w)) = trace (snd (body w)) ++ evs
    ∧ Forall (λ ev, ∃ args, ev = Printed args) evs.
Proof.
  unfold try_except. destruct (body w) as [[[]|e|] w'].
  - exists []. by rewrite app_nil_r.
  - destruct (report_run e w') as [args ->]. exists [Printed args].
    split; [done|]. repeat constructor. by eexists.
  - exists []. by rewrite app_nil_r.
Qed.

Lemma seller_main_body_trace (env : Environment) (fuel : nat)
    (client_id seller_token : string) (w : World) (l : loc)
    (remote : list string) (w1 : World) :
  Seller.get_offer_ids env fuel client_id seller_token w = (Ret l, w1) →
  heap w1 !! l = Some remote → NoDup remote →
  ∃ evs,
    trace (snd (Seller.main_body env fuel client_id seller_token w))
    = trace w1 ++ evs
    ∧ Forall (λ ev, ¬ is_price_update ev) evs.
Proof.
  intros Hget Hl Hnd. unfold Seller.main_body.
  rewrite bind_run, Hget, bind_run.
  unfold Seller.download_stock. rewrite request_run.
  set (w2 := MkWorld (heap w1) (trace w1 ++ [Sent CasioDownload])).
  assert (Forall (λ ev, ¬ is_price_update ev) [Sent CasioDownload]) as Hdl
    by (repeat constructor; simpl; tauto).
  destruct (download_reply env _) as [rows|e|];
    [|by exists [Sent CasioDownload]..].
  rewrite bind_run.
  destruct (Seller.create_stocks rows l w2) as [o w3] eqn:Hstocks.
  pose proof (seller_create_stocks_run rows l remote w2 Hl) as Hrun.
  rewrite Hstocks in Hrun.
  assert (trace w3 = trace w2) as Htr3 by (by injection Hrun as _ ->).
  destruct o as [stocks|e|];
    [|exists [Sent CasioDownload]; cbn [snd]; by rewrite Htr3..].
  destruct (prices_after_stocks rows l remote stocks w2 w3 Hl Hnd Hstocks)
    as (remaining & Hrem & _ & Hprices).
  rewrite bind_run.
  destruct (divide_returns stocks 100) as [batches ->]; [lia|].
  unfold lift at 1. rewrite bind_run.
  unfold Seller.update_stocks.
  destruct (update_loop_run (λ b, OzonImportStocks b client_id seller_token)
              (update_reply env) batches w3) as (evs & Hw4 & Hall).
  destruct (for_each batches _ w3) as [o4 w4]. cbn [snd] in Hw4. subst w4.
  assert (Forall (λ ev, ¬ is_price_update ev) (Sent CasioDownload :: evs))
    as Hevs.
  { constructor; [simpl; tauto|]. eapply Forall_impl; [done|].
    intros ev [b ->]. simpl. tauto. }
  assert (trace w3 ++ evs = trace w1 ++ Sent CasioDownload :: evs) as Htr.
  { rewrite Htr3. subst w2. cbn [trace]. by rewrite <- app_assoc. }
  destruct o4 as [[]|e|]; [|by exists (Sent CasioDownload :: evs)..].
  rewrite bind_run, Hprices by done.
  by exists (Sent CasioDownload :: evs).
Qed.

(** C5. Once [create_stocks] has returned on pairwise distinct remote ids,
    [create_prices] on the same list object returns the empty list; and
    [main] of seller.py, which passes the list it gave [create_stocks] on to
    [create_prices], sends no request that carries price records, whatever
    the inventory. *)
Theorem seller_main_sends_no_prices :
  (∀ (rows : list Watch) (l : loc) (remote : list string)
     (stocks : list SellerData.Stock) (w w1 : World),
     heap w !! l = Some remote → NoDup remote →
     Seller.create_stocks rows l w = (Ret stocks, w1) →
     Seller.create_prices rows l w1 = (Ret [], w1))
  ∧ (∀ (env : Environment) (fuel : nat) (client_id seller_token : string)
       (w : World) (l : loc) (remote : list string) (w1 : World),
       environ env !! "SELLER_TOKEN" = Some seller_token →
       environ env !! "CLIENT_ID" = Some client_id →
       Seller.get_offer_ids env fuel client_id seller_token w = (Ret l, w1) →
       heap w1 !! l = Some remote → NoDup remote →
       ∃ evs,
         trace (snd (Seller.main env fuel w)) = trace w1 ++ evs
         ∧ Forall (λ ev, ¬ is_price_update ev) evs).
Proof.
  split.
  - intros rows l remote stocks w w1 Hl Hnd Hstocks.
    destruct (prices_after_stocks rows l remote stocks w w1 Hl Hnd Hstocks)
      as (remaining & Hrem & _ & Hprices).
    by apply Hprices.
  - intros env fuel client_id seller_token w l remote w1 Htok Hcli Hget Hl Hnd.
    unfold Seller.main.
    rewrite bind_run, (env_str_run _ _ seller_token) by done.
    rewrite bind_run, (env_str_run _ _ client_id) by done.
    destruct (try_report_trace
                (Seller.main_body env fuel client_id seller_token) w)
      as (evs' & -> & Hprint).
    destruct (seller_main_body_trace env fuel client_id seller_token w l
                remote w1 Hget Hl Hnd) as (evs & -> & Hevs).
    exists (evs ++ evs'). split; [by rewrite app_assoc|].
    apply Forall_app. split; [done|].
    eapply Forall_impl; [done|]. intros ev [args ->]. simpl. tauto.
Qed.

(** The scenario of the specification, and the shop whose Ozon catalogue is
    ["A"; "B"; "C"]: after the page request, [main] downloads the inventory
    and updates the stocks, and that is all. *)
Lemma seller_main_sends_no_prices_witness :
  Seller.create_prices scenario_rows 1%positive
    (snd (Seller.create_stocks scenario_rows 1%positive scenario_world))
  = (Ret [], snd (Seller.create_stocks scenario_rows 1%positive scenario_world))
  ∧ ∃ evs,
      trace (snd (Seller.main example_shop 1 empty_world))
      = [Sent (OzonProductList "" "client" "token")] ++ evs
      ∧ Forall (λ ev, ¬ is_price_update ev) evs.
Proof.
  split.
  - apply (proj1 seller_main_sends_no_prices scenario_rows 1%positive
             scenario_remote
             [SellerData.MkStock "A" 100; SellerData.MkStock "B" 0;
              SellerData.MkStock "C" 0]
             scenario_world).
    + reflexivity.
    + compute_done.
    + reflexivity.
  - apply (proj2 seller_main_sends_no_prices example_shop 1%nat
             "client" "token" empty_world 1%positive ["A"; "B"; "C"]
             (MkWorld {[ 1%positive := ["A"; "B"; "C"] ]}
                [Sent (OzonProductList "" "client" "token")])).
    + reflexivity.
    + reflexivity.
    + reflexivity.
    + reflexivity.
    + compute_done.
Defined.

(** [main] of market.py runs the two campaigns one after the other inside
    its [try]. *)
Lemma market_main_body_pipelines (env : Environment) (fuel : nat)
    (rows : list Watch) (token fbs dbs wfbs wdbs : string) (w : World) :
  Market.main_body env fuel rows token fbs dbs wfbs wdbs w
  = (campaign_pipeline env fuel rows token fbs wfbs ;;;
     campaign_pipeline env fuel rows token dbs wdbs) w.
Proof.
  unfold Market.main_body, campaign_pipeline. rewrite !bind_run.
  destruct (Market.get_offer_ids env fuel fbs token w) as [[l|e|] w1];
    [|done..].
  rewrite !bind_run.
  destruct (Market.create_stocks env rows l wfbs w1) as [[stocks|e|] w2];
    [|done..].
  rewrite !bind_run.
  destruct (lift (Seller.divide stocks 2000) w2) as [[batches|e|] w3];
    [|done..].
  rewrite !bind_run.
  destruct (for_each batches _ w3) as [[[]|e|] w4]; [|done..].
  by rewrite !bind_run.
Qed.

(** C10, as the code has it.  When the pipeline of the FBS campaign raises,
    [main] of market.py reports the exception and returns: the trace is the
    one the FBS pipeline left, followed by the print, and nothing is done for
    the DBS campaign.  What was sent before the failure stays sent. *)
Theorem market_main_stops_at_failure (env : Environment) (fuel : nat)
    (token fbs dbs wfbs wdbs : string) (rows : list Watch) (e : Exn)
    (w w0 w1 : World) :
  environ env !! "MARKET_TOKEN" = Some token →
  environ env !! "FBS_ID" = Some fbs →
  environ env !! "DBS_ID" = Some dbs →
  environ env !! "WAREHOUSE_FBS_ID" = Some wfbs →
  environ env !! "WAREHOUSE_DBS_ID" = Some wdbs →
  Seller.download_stock env w = (Ret rows, w0) →
  campaign_pipeline env fuel rows token fbs wfbs w0 = (Raise e, w1) →
  ∃ args,
    Market.main env fuel w
    = (Ret tt, MkWorld (heap w1) (trace w1 ++ [Printed args])).
Proof.
  intros Htoken Hfbs Hdbs Hwfbs Hwdbs Hdl Hfail. unfold Market.main.
  rewrite bind_run, (env_str_run _ _ token) by done.
  rewrite bind_run, (env_str_run _ _ fbs) by done.
  rewrite bind_run, (env_str_run _ _ dbs) by done.
  rewrite bind_run, (env_str_run _ _ wfbs) by done.
  rewrite bind_run, (env_str_run _ _ wdbs) by done.
  rewrite bind_run, Hdl. unfold try_except.
  rewrite market_main_body_pipelines, bind_run, Hfail.
  apply report_run.
Qed.

(** The shop whose FBS campaign times out on its second page. *)
Lemma market_main_stops_at_failure_witness :
  ∃ args,
    Market.main example_shop 5 empty_world
    = (Ret tt,
       MkWorld ∅
         ([Sent CasioDownload;
           Sent (MarketOfferMappingEntries "" "FBS" "token");
           Sent (MarketOfferMappingEntries "p2" "FBS" "token")]
          ++ [Printed args])).
Proof.
  apply (market_main_stops_at_failure example_shop 5 "token" "FBS" "DBS"
           "WF" "WD" scenario_rows (MkExn ReadTimeout "read timed out")
           empty_world (MkWorld ∅ [Sent CasioDownload])
           (MkWorld ∅ [Sent CasioDownload;
                       Sent (MarketOfferMappingEntries "" "FBS" "token");
                       Sent (MarketOfferMappingEntries "p2" "FBS" "token")]));
    reflexivity.
Defined.

(** C10 as stated fails: in the shop whose FBS campaign times out, the DBS
    campaign would go through on its own, yet [main] ends after the report
    without a single request that addresses it. *)
Lemma market_main_skips_dbs :
  fst (campaign_pipeline example_shop 5 scenario_rows "token" "FBS" "WF"
         (MkWorld ∅ [Sent CasioDownload]))
  = Raise (MkExn ReadTimeout "read timed out")
  ∧ fst (campaign_pipeline example_shop 5 scenario_rows "token" "DBS" "WD"
           (MkWorld ∅ [Sent CasioDownload]))
    = Ret tt
  ∧ Market.main example_shop 5 empty_world
    = (Ret tt,
       MkWorld ∅
         [Sent CasioDownload;
          Sent (MarketOfferMappingEntries "" "FBS" "token");
          Sent (MarketOfferMappingEntries "p2" "FBS" "token");
          Printed [PrText "Превышено время ожидания..."]])
  ∧ ¬ Exists (addresses_campaign "DBS")
        (trace (snd (Market.main example_shop 5 empty_world))).
Proof.
  split; [reflexivity|]. split; [reflexivity|]. split; [reflexivity|].
  assert (trace (snd (Market.main example_shop 5 empty_world))
          = [Sent CasioDownload;
             Sent (MarketOfferMappingEntries "" "FBS" "token");
             Sent (MarketOfferMappingEntries "p2" "FBS" "token");
             Printed [PrText "Превышено время ожидания..."]]) as ->
    by reflexivity.
  intros H.
  repeat (apply Exists_cons in H as [H|H]; [by simpl in H|]).
  by apply Exists_nil in H.
Qed.

(* ===================================================================== *)
(** * Further properties of the batcher and of the price normaliser       *)
(* ===================================================================== *)

(** X1. A chunk size of 0 makes [divide] raise the [ValueError] of [range];
    a negative chunk size yields no chunk at all, whatever the list. *)
Theorem divide_degenerate {A} (lst : list A) (n : Z) :
  (n = 0 →
   Seller.divide lst n
   = Raise (MkExn ValueError "range() arg 3 must not be zero"))
  ∧ (n < 0 → Seller.divide lst n = Ret []).
Proof.
  split; intros Hn; unfold Seller.divide, py_range.
  - subst n. reflexivity.
  - destruct (Z.eqb_spec n 0); [lia|].
    unfold range_len.
    destruct (Z.ltb_spec 0 n); [lia|].
    destruct (Z.ltb_spec (Z.of_nat (length lst)) 0); [lia|].
    reflexivity.
Qed.

Lemma divide_degenerate_witness :
  Seller.divide [1; 2; 3] 0
  = Raise (MkExn ValueError "range() arg 3 must not be zero")
  ∧ Seller.divide [1; 2; 3] (-2) = Ret [].
Proof.
  split.
  - apply (proj1 (divide_degenerate [1; 2; 3] 0)). reflexivity.
  - apply (proj2 (divide_degenerate [1; 2; 3] (-2))). lia.
Defined.

(** X2. For a chunk size [n > 0], [divide] yields the quotient of
    [len + n - 1] by [n] chunks, none of them empty; so the empty list yields
    no chunk. *)
Theorem divide_chunk_count {A} (lst : list A) (n : Z) :
  0 < n →
  ∃ chunks : list (list A),
    Seller.divide lst n = Ret chunks
    ∧ Z.of_nat (length chunks) = (Z.of_nat (length lst) + n - 1) / n
    ∧ (∀ chunk, chunk ∈ chunks → chunk ≠ [])
    ∧ (lst = [] → chunks = []).
Proof.
  intros Hn.
  pose proof (range_len_chunks (Z.of_nat (length lst)) n
                ltac:(lia) Hn) as (Hc0 & Hcover & Hlast).
  assert (range_len 0 (Z.of_nat (length lst)) n
          = (Z.of_nat (length lst) + n - 1) / n) as Hcount.
  { unfold range_len. destruct (Z.ltb_spec 0 n); [|lia].
    destruct (Z.ltb_spec 0 (Z.of_nat (length lst))).
    - rewrite Z.sub_0_r.
      replace (Z.of_nat (length lst) + n - 1)
        with (Z.of_nat (length lst) - 1 + 1 * n) by lia.
      rewrite Z.div_add by lia. lia.
    - replace (Z.of_nat (length lst)) with 0 by lia.
      rewrite Z.div_small; lia. }
  set (c := range_len 0 (Z.of_nat (length lst)) n) in *.
  eexists. split; [by apply divide_chunks|]. fold c.
  split; [|split].
  - rewrite length_fmap, length_seq. lia.
  - intros chunk [k [-> Hk]]%list_elem_of_fmap.
    apply elem_of_seq in Hk. unfold chunk_at. intros Hnil.
    apply (f_equal length) in Hnil.
    rewrite length_take, length_drop in Hnil. simpl in Hnil.
    assert (Z.of_nat k * n ≤ (c - 1) * n) by nia.
    specialize (Hlast ltac:(lia)).
    assert (Z.of_nat (k * Z.to_nat n) = Z.of_nat k * n) by lia.
    lia.
  - intros ->. simpl in Hcount. rewrite Z.div_small in Hcount by lia.
    rewrite Hcount. reflexivity.
Qed.

Lemma divide_chunk_count_witness :
  ∃ chunks : list (list Z),
    Seller.divide [1; 2; 3; 4; 5] 2 = Ret chunks
    ∧ Z.of_nat (length chunks) = (Z.of_nat 5 + 2 - 1) / 2
    ∧ (∀ chunk, chunk ∈ chunks → chunk ≠ [])
    ∧ ([1; 2; 3; 4; 5] = [] → chunks = []).
Proof. apply (divide_chunk_count [1; 2; 3; 4; 5] 2). lia. Defined.

Lemma before_first_dot_digits (s : string) :
  Forall (λ c, is_digit c = true) (list_ascii_of_string s) →
  before_first_dot s = s.
Proof.
  induction s as [|c s IH]; simpl; [done|].
  intros [Hc Hs]%Forall_cons.
  destruct (Ascii.eqb_spec c "."); [by subst c|].
  by rewrite IH.
Qed.

Lemma delete_non_digits_id (s : string) :
  Forall (λ c, is_digit c = true) (list_ascii_of_string s) →
  delete_non_digits s = s.
Proof.
  unfold delete_non_digits. induction s as [|c s IH]; simpl; [done|].
  intros [Hc Hs]%Forall_cons. rewrite Hc. simpl. by rewrite IH.
Qed.

Lemma price_conversion_str (s : string) :
  Seller.price_conversion (PStr s) = Ret (normalize_price s).
Proof.
  unfold Seller.price_conversion, normalize_price.
  destruct (split_on_dot_first s) as [rest ->].
  by rewrite re_sub_non_digit_filter.
Qed.

(** X3. On a string, [price_conversion] returns a string of digits only, and
    converting that result again changes nothing; on a value that is not a
    string it raises [AttributeError]. *)
Theorem price_conversion_idempotent :
  (∀ s, ∃ digits,
     Seller.price_conversion (PStr s) = Ret digits
     ∧ Forall (λ c, is_digit c = true) (list_ascii_of_string digits)
     ∧ Seller.price_conversion (PStr digits) = Ret digits)
  ∧ (∀ v, (∀ s, v ≠ PStr s) →
          ∃ e, Seller.price_conversion v = Raise e
               ∧ exn_kind e = AttributeError).
Proof.
  split.
  - intros s. exists (normalize_price s).
    split; [apply price_conversion_str|].
    split; [apply delete_non_digits_digits|].
    rewrite price_conversion_str. f_equal. unfold normalize_price at 1.
    rewrite before_first_dot_digits by apply delete_non_digits_digits.
    apply delete_non_digits_id, delete_non_digits_digits.
  - intros [|s|z|b|f] Hv; [|by destruct (Hv s)|..]; by eexists.
Qed.

Lemma price_conversion_idempotent_witness :
  ∃ e, Seller.price_conversion (PInt 5990) = Raise e
       ∧ exn_kind e = AttributeError.
Proof. apply (proj2 price_conversion_idempotent (PInt 5990)). done. Defined.

(* ===================================================================== *)
(** * Further properties of the reconciler                                *)
(* ===================================================================== *)

Lemma filter_ext_elem {A} (P Q : A → Prop) `{!∀ x, Decision (P x)}
    `{!∀ x, Decision (Q x)} (l : list A) :
  (∀ x, x ∈ l → (P x ↔ Q x)) → filter P l = filter Q l.
Proof.
  induction l as [|x l IH]; intros Hext; [done|].
  rewrite !filter_cons.
  assert (filter P l = filter Q l) as ->
    by (apply IH; intros y Hy; apply Hext; by right).
  destruct (decide (P x)) as [HP|HP], (decide (Q x)) as [HQ|HQ]; try done;
    exfalso; apply (Hext x) in HP || apply (Hext x) in HQ; try done; by left.
Qed.

Lemma filter_all {A} (P : A → Prop) `{!∀ x, Decision (P x)} (l : list A) :
  (∀ x, x ∈ l → P x) → filter P l = l.
Proof.
  induction l as [|x l IH]; intros Hall; [done|].
  rewrite filter_cons_True by (apply Hall; left).
  f_equal. apply IH. intros y Hy. apply Hall. by right.
Qed.

Lemma remove_first_filter (x : string) (l l' : list string) :
  NoDup l → remove_first x l = Some l' → l' = filter (λ y, y ≠ x) l.
Proof.
  revert l'. induction l as [|y l IH]; intros l' Hnd; [done|]. simpl.
  apply NoDup_cons in Hnd as [Hy Hnd].
  case_bool_decide as Hxy.
  - intros [= <-]. subst y. rewrite filter_cons_False by (intros H; by apply H).
    symmetry. apply filter_all. intros z Hz ->. done.
  - destruct (remove_first x l) as [k|] eqn:Hk; [|done].
    intros [= <-]. rewrite filter_cons_True by congruence.
    f_equal. by apply IH.
Qed.

(** [create_prices] returns exactly when [convert] reads the price of every
    row whose code is in the list. *)
Lemma price_turns_returns {V P} (convert : Watch → Outcome V)
    (mk : string → V → P) (rows : list Watch) (ids : list string)
    (acc : list P) :
  (∃ prices, fold_outcome (price_turn convert mk ids) rows acc = Ret prices)
  ↔ (∀ watch, watch ∈ rows → code watch ∈ ids → ∃ v, convert watch = Ret v).
Proof.
  revert acc. induction rows as [|watch rows IH]; intros acc; simpl.
  { split; [|by eexists]. intros _ watch Hw. by apply elem_of_nil in Hw. }
  unfold price_turn at 1. case_bool_decide as Hin.
  - destruct (convert watch) as [v|e|] eqn:Hv.
    + rewrite IH. split.
      * intros Hall w' [->|Hw']%elem_of_cons; [by eexists|by apply Hall].
      * intros Hall w' Hw'. apply Hall. by right.
    + split; [by intros [? ?]|]. intros Hall.
      destruct (Hall watch) as [v Hv']; [left|done|congruence].
    + split; [by intros [? ?]|]. intros Hall.
      destruct (Hall watch) as [v Hv']; [left|done|congruence].
  - rewrite IH. split.
    + intros Hall w' [->|Hw']%elem_of_cons; [done|by apply Hall].
    + intros Hall w' Hw'. apply Hall. by right.
Qed.

Lemma ozon_convert_returns (watch : Watch) :
  (∃ v, ozon_convert watch = Ret v) ↔ (∃ s, dict_get watch "Цена" = PStr s).
Proof.
  unfold ozon_convert. split.
  - intros [v Hv].
    destruct (dict_get watch "Цена") as [|s|z|b|f]; [done| |done..].
    by eexists.
  - intros [s ->]. rewrite price_conversion_str. by eexists.
Qed.

Lemma market_convert_returns (watch : Watch) :
  (∃ v, market_convert watch = Ret v)
  ↔ (∃ s, dict_get watch "Цена" = PStr s ∧ normalize_price s ≠ ""
          ∧ (String.length (normalize_price s) ≤ max_str_digits)%nat).
Proof.
  unfold market_convert. split.
  - intros [v Hv].
    destruct (dict_get watch "Цена") as [|s|z|b|f]; [done| |done..].
    exists s. split; [done|]. rewrite price_conversion_str in Hv.
    cbn [py_int] in Hv. apply int_of_digits_returns. by exists v.
  - intros (s & -> & Hne). rewrite price_conversion_str. cbn [py_int].
    by apply int_of_digits_returns.
Qed.

(** X4. [create_prices] of either marketplace only reads: whatever its
    outcome, the list object, every other list object and the trace are as
    before the call. *)
Theorem create_prices_reads_only (rows : list Watch) (l : loc)
    (remote : list string) (w : World) :
  heap w !! l = Some remote →
  snd (Seller.create_prices rows l w) = w
  ∧ snd (Market.create_prices rows l w) = w.
Proof.
  intros Hl. split.
  - by rewrite (seller_create_prices_run rows l remote).
  - by rewrite (market_create_prices_run rows l remote).
Qed.

Lemma create_prices_reads_only_witness :
  snd (Seller.create_prices scenario_rows 1%positive scenario_world)
  = scenario_world
  ∧ snd (Market.create_prices scenario_rows 1%positive scenario_world)
    = scenario_world.
Proof.
  apply (create_prices_reads_only scenario_rows 1%positive scenario_remote).
  reflexivity.
Defined.

(** X5. The price records [create_prices] returns follow the inventory: their
    ids are the codes of the rows that are in the list, in the order of the
    rows and as often as the rows repeat them. *)
Theorem create_prices_order (rows : list Watch) (l : loc)
    (remote : list string) (w : World) :
  heap w !! l = Some remote →
  (∀ prices, fst (Seller.create_prices rows l w) = Ret prices →
     SellerData.price_offer_id <$> prices
     = filter (λ id, id ∈ remote) (code <$> rows))
  ∧ (∀ prices, fst (Market.create_prices rows l w) = Ret prices →
       MarketData.id <$> prices
       = filter (λ id, id ∈ remote) (code <$> rows)).
Proof.
  intros Hl. split; intros prices.
  - rewrite (seller_create_prices_run rows l remote) by done. cbn [fst].
    intros (priced & -> & Hids & _)%(price_turns_ret _ _ SellerData.price_offer_id);
      done.
  - rewrite (market_create_prices_run rows l remote) by done. cbn [fst].
    intros (priced & -> & Hids & _)%(price_turns_ret _ _ MarketData.id); done.
Qed.

Lemma create_prices_order_witness :
  SellerData.price_offer_id <$> [ozon_price "A" "100"; ozon_price "B" "50"]
  = filter (λ id, id ∈ scenario_remote) (code <$> scenario_rows).
Proof.
  refine (proj1 (create_prices_order scenario_rows 1%positive scenario_remote
                   scenario_world _) _ _); reflexivity.
Defined.

(** X6. [create_prices] of seller.py returns exactly when the price of every
    row whose code is in the list is a string; that of market.py returns
    exactly when each such price is a string with at least one and at most
    4300 digits before its first decimal point, since it reads the converted
    price with [int], which rejects the empty string and a string of more
    digits than its limit. *)
Theorem create_prices_returns (rows : list Watch) (l : loc)
    (remote : list string) (w : World) :
  heap w !! l = Some remote →
  ((∃ prices, fst (Seller.create_prices rows l w) = Ret prices)
   ↔ (∀ watch, watch ∈ rows → code watch ∈ remote →
        ∃ s, dict_get watch "Цена" = PStr s))
  ∧ ((∃ prices, fst (Market.create_prices rows l w) = Ret prices)
     ↔ (∀ watch, watch ∈ rows → code watch ∈ remote →
          ∃ s, dict_get watch "Цена" = PStr s ∧ normalize_price s ≠ ""
               ∧ (String.length (normalize_price s) ≤ 4300)%nat)).
Proof.
  intros Hl. split.
  - rewrite (seller_create_prices_run rows l remote) by done. cbn [fst].
    rewrite price_turns_returns.
    split; intros Hall watch Hw Hin; apply ozon_convert_returns; by apply Hall.
  - rewrite (market_create_prices_run rows l remote) by done. cbn [fst].
    rewrite price_turns_returns.
    split; intros Hall watch Hw Hin; apply market_convert_returns; by apply Hall.
Qed.

Lemma create_prices_returns_witness :
  ((∃ prices,
      fst (Seller.create_prices scenario_rows 1%positive scenario_world)
      = Ret prices)
   ↔ (∀ watch, watch ∈ scenario_rows → code watch ∈ scenario_remote →
        ∃ s, dict_get watch "Цена" = PStr s))
  ∧ ((∃ prices,
        fst (Market.create_prices scenario_rows 1%positive scenario_world)
        = Ret prices)
     ↔ (∀ watch, watch ∈ scenario_rows → code watch ∈ scenario_remote →
          ∃ s, dict_get watch "Цена" = PStr s ∧ normalize_price s ≠ ""
               ∧ (String.length (normalize_price s) ≤ 4300)%nat)).
Proof. apply create_prices_returns. reflexivity. Defined.

(** Rows whose code is not remote play no part in the first loop. *)
Lemma match_rows_ignores {R} (mk : string → Z → R) (rows : list Watch)
    (remote ids : list string) (acc : list R) :
  ids ⊆ remote →
  match_rows mk rows ids acc
  = match_rows mk (filter (λ watch, code watch ∈ remote) rows) ids acc.
Proof.
  revert ids acc. induction rows as [|watch rows IH]; intros ids acc Hsub;
    [done|].
  rewrite filter_cons. destruct (decide (code watch ∈ remote)) as [Hr|Hr].
  - simpl. case_bool_decide as Hin; [|by apply IH].
    destruct (stock_of watch) as [n|e|]; [|done..].
    destruct (remove_first _ _) as [ids1|] eqn:Hrem; [|done].
    apply IH. etrans; [|done].
    by apply sublist_subseteq, (remove_first_sublist (code watch)).
  - simpl. rewrite bool_decide_eq_false_2 by (intros Hin; by apply Hr, Hsub).
    by apply IH.
Qed.

Lemma price_turns_ignore {V P} (convert : Watch → Outcome V)
    (mk : string → V → P) (rows : list Watch) (ids : list string)
    (acc : list P) :
  fold_outcome (price_turn convert mk ids) rows acc
  = fold_outcome (price_turn convert mk ids)
      (filter (λ watch, code watch ∈ ids) rows) acc.
Proof.
  revert acc. induction rows as [|watch rows IH]; intros acc; [done|].
  rewrite filter_cons. destruct (decide (code watch ∈ ids)) as [Hr|Hr].
  - simpl. destruct (price_turn convert mk ids acc watch); [apply IH|done..].
  - simpl. unfold price_turn at 1. rewrite bool_decide_eq_false_2 by done.
    apply IH.
Qed.

(** X7. Inventory rows whose code is not a remote id are ignored, quantity,
    price and all: [create_stocks] and [create_prices] of either marketplace
    behave on the inventory as on its rows with a remote code alone, so a
    quantity or price that cannot be read does no harm on such a row. *)
Theorem unmatched_rows_ignored (env : Environment) (rows : list Watch)
    (l : loc) (remote : list string) (warehouse_id : string) (w : World) :
  heap w !! l = Some remote →
  let known := filter (λ watch, code watch ∈ remote) rows in
  Seller.create_stocks rows l w = Seller.create_stocks known l w
  ∧ Market.create_stocks env rows l warehouse_id w
    = Market.create_stocks env known l warehouse_id w
  ∧ Seller.create_prices rows l w = Seller.create_prices known l w
  ∧ Market.create_prices rows l w = Market.create_prices known l w.
Proof.
  intros Hl known. repeat split.
  - rewrite !(seller_create_stocks_run _ l remote) by done.
    unfold stocks_result. by rewrite (match_rows_ignores _ rows remote).
  - rewrite !(market_create_stocks_run env _ l warehouse_id remote) by done.
    unfold stocks_result. by rewrite (match_rows_ignores _ rows remote).
  - rewrite !(seller_create_prices_run _ l remote) by done.
    by rewrite price_turns_ignore.
  - rewrite !(market_create_prices_run _ l remote) by done.
    by rewrite price_turns_ignore.
Qed.

(** A row with an unknown code and with neither a quantity nor a price that
    can be read, put before the rows of the scenario. *)
Lemma unmatched_rows_ignored_witness :
  Seller.create_stocks
    (row (PStr "Z") (PStr "many") PNone :: scenario_rows) 1%positive
    scenario_world
  = Seller.create_stocks scenario_rows 1%positive scenario_world
  ∧ Market.create_prices
      (row (PStr "Z") (PStr "many") PNone :: scenario_rows) 1%positive
      scenario_world
    = Market.create_prices scenario_rows 1%positive scenario_world.
Proof.
  pose proof (unmatched_rows_ignored silent_environment
                (row (PStr "Z") (PStr "many") PNone :: scenario_rows)
                1%positive scenario_remote "W" scenario_world eq_refl)
    as (H1 & _ & _ & H4).
  split; [exact H1|exact H4].
Defined.

Lemma match_rows_order {R} (mk : string → Z → R) (id_of : R → string)
    (rows : list Watch) (ids : list string) (acc out : list R)
    (ids' : list string) :
  (∀ id n, id_of (mk id n) = id) →
  NoDup ids → NoDup (code <$> rows) →
  match_rows mk rows ids acc = (Ret out, ids') →
  id_of <$> out
  = (id_of <$> acc) ++ filter (λ id, id ∈ ids) (code <$> rows)
  ∧ ids' = filter (λ id, id ∉ code <$> rows) ids.
Proof.
  intros Hid. revert ids acc.
  induction rows as [|watch rows IH]; intros ids acc Hnd Hcodes; simpl.
  { intros [= <- <-]. rewrite app_nil_r. split; [done|].
    symmetry. apply filter_all. intros x _. apply not_elem_of_nil. }
  rewrite fmap_cons in Hcodes. apply NoDup_cons in Hcodes as [Hfresh Hcodes].
  case_bool_decide as Hin.
  - destruct (stock_of watch) as [n|e|]; [|done..].
    destruct (remove_first _ _) as [ids1|] eqn:Hrem; [|done].
    pose proof (remove_first_filter _ _ _ Hnd Hrem) as Hids1.
    assert (NoDup ids1) as Hnd1.
    { apply (sublist_NoDup ids1 ids Hnd). by eapply remove_first_sublist. }
    intros [Hout Hleft]%(IH _ _ Hnd1 Hcodes).
    rewrite filter_cons_True by done. split.
    + rewrite Hout, fmap_app, <- app_assoc. simpl. rewrite Hid.
      do 2 f_equal. apply filter_ext_elem. intros x Hx.
      rewrite Hids1, list_elem_of_filter. split; [tauto|].
      intros Hx'. split; [|done]. intros ->. done.
    + rewrite Hleft, Hids1, list_filter_filter.
      apply filter_ext_elem. intros x Hx. rewrite not_elem_of_cons. tauto.
  - intros [Hout Hleft]%(IH _ _ Hnd Hcodes).
    rewrite filter_cons_False by done. split; [done|].
    rewrite Hleft. apply filter_ext_elem. intros x Hx.
    rewrite not_elem_of_cons. split; [|tauto].
    intros Hx'. split; [|done]. intros ->. done.
Qed.

(** X8. When the remote ids are pairwise distinct and so are the codes of
    the inventory, the stock records [create_stocks] returns come in this
    order: the rows with a remote code, in inventory order, then the remote
    ids that are the code of no row, in remote order; these ids are also what
    the caller's list is left with. *)
Theorem create_stocks_order (env : Environment) (rows : list Watch)
    (l : loc) (remote : list string) (warehouse_id : string) (w : World) :
  heap w !! l = Some remote → NoDup remote → NoDup (code <$> rows) →
  let matched := filter (λ id, id ∈ remote) (code <$> rows) in
  let unmatched := filter (λ id, id ∉ code <$> rows) remote in
  (∀ stocks w',
     Seller.create_stocks rows l w = (Ret stocks, w') →
     SellerData.offer_id <$> stocks = matched ++ unmatched
     ∧ heap w' !! l = Some unmatched)
  ∧ (∀ stocks w',
       Market.create_stocks env rows l warehouse_id w = (Ret stocks, w') →
       MarketData.sku <$> stocks = matched ++ unmatched
       ∧ heap w' !! l = Some unmatched).
Proof.
  intros Hl Hnd Hcodes matched unmatched.
  assert (∀ {R} (mk : string → Z → R) (id_of : R → string) stocks w',
            (∀ id n, id_of (mk id n) = id) →
            (fst (stocks_result mk rows remote),
             with_list w l (snd (stocks_result mk rows remote)))
            = (Ret stocks, w') →
            id_of <$> stocks = matched ++ unmatched
            ∧ heap w' !! l = Some unmatched) as Hgen.
  { intros R mk id_of stocks w' Hid. unfold stocks_result.
    destruct (match_rows mk rows remote []) as [[m|e|] ids'] eqn:Hrun;
      [|done..].
    cbn [fst snd]. intros [= <- <-].
    apply (match_rows_order mk id_of) in Hrun as [Hout ->]; [|done..].
    split; [|apply with_list_lookup].
    assert (∀ l0 : list string, (id_of ∘ (λ id, mk id 0)) <$> l0 = l0) as Hfm.
    { intros l0. rewrite <- (list_fmap_id l0) at 2.
      apply list_fmap_ext. intros; simpl; apply Hid. }
    by rewrite fmap_app, Hout, <- list_fmap_compose, Hfm. }
  split; intros stocks w'.
  - rewrite (seller_create_stocks_run rows l remote) by done.
    by apply Hgen.
  - rewrite (market_create_stocks_run env rows l warehouse_id remote) by done.
    by apply Hgen.
Qed.

Lemma create_stocks_order_witness :
  SellerData.offer_id
    <$> [SellerData.MkStock "A" 100; SellerData.MkStock "B" 0;
         SellerData.MkStock "C" 0]
  = filter (λ id, id ∈ scenario_remote) (code <$> scenario_rows)
    ++ filter (λ id, id ∉ code <$> scenario_rows) scenario_remote
  ∧ heap (snd (Seller.create_stocks scenario_rows 1%positive scenario_world))
      !! 1%positive
    = Some (filter (λ id, id ∉ code <$> scenario_rows) scenario_remote).
Proof.
  refine (proj1 (create_stocks_order silent_environment scenario_rows
                   1%positive scenario_remote "W" scenario_world _ _ _) _ _ _).
  - reflexivity.
  - compute_done.
  - compute_done.
  - reflexivity.
Defined.

(** The count of a row whose quantity cell holds an integer. *)
Lemma stock_of_int (watch : Watch) (z : Z) :
  dict_get watch "Количество" = PInt z →
  stock_of watch = Ret (if z =? 1 then 0 else z).
Proof. intros Hcell. by rewrite stock_of_cell, Hcell. Qed.

(** X9. A quantity cell that holds an integer is passed on as the count,
    except the integer 1, which becomes 0: the first row with a given remote
    code and the integer quantity [z] gets the count [z], or 0 when [z] is
    1. *)
Theorem integer_quantity_count (env : Environment) (rows : list Watch)
    (l : loc) (remote : list string) (warehouse_id : string) (w : World)
    (i : nat) (watch : Watch) (z : Z) :
  heap w !! l = Some remote →
  rows !! i = Some watch → code watch ∈ remote →
  (∀ (j : nat) watch', (j < i)%nat → rows !! j = Some watch' →
                       code watch' ≠ code watch) →
  dict_get watch "Количество" = PInt z →
  (∀ stocks, fst (Seller.create_stocks rows l w) = Ret stocks →
     SellerData.MkStock (code watch) (if z =? 1 then 0 else z) ∈ stocks)
  ∧ (∀ stocks,
       fst (Market.create_stocks env rows l warehouse_id w) = Ret stocks →
       market_stock warehouse_id (utcnow env (trace w) +:+ "Z") (code watch)
         (if z =? 1 then 0 else z) ∈ stocks).
Proof.
  intros Hl Hi Hin Hfirst Hcell.
  assert (∀ {R} (mk : string → Z → R) (id_of : R → string) stocks,
            (∀ id n, id_of (mk id n) = id) →
            fst (stocks_result mk rows remote) = Ret stocks →
            mk (code watch) (if z =? 1 then 0 else z) ∈ stocks) as Hgen.
  { intros R mk id_of stocks Hid. unfold stocks_result.
    destruct (match_rows mk rows remote []) as [[m|e|] ids'] eqn:Hrun;
      [|done..].
    cbn [fst]. intros [= <-].
    destruct (match_rows_first mk id_of Hid _ _ _ _ _ i watch Hrun Hi Hin Hfirst)
      as (n & Hn & Hmem).
    rewrite (stock_of_int watch z Hcell) in Hn. injection Hn as <-.
    apply elem_of_app. by left. }
  split; intros stocks.
  - rewrite (seller_create_stocks_run rows l remote) by done.
    by apply (Hgen _ ozon_stock SellerData.offer_id).
  - rewrite (market_create_stocks_run env rows l warehouse_id remote) by done.
    by apply (Hgen _ _ MarketData.sku).
Qed.

(** A row with the integer code 7 and the integer quantity 1. *)
Lemma integer_quantity_count_witness :
  SellerData.MkStock "7" 0 ∈ [SellerData.MkStock "7" 0].
Proof.
  refine (proj1 (integer_quantity_count silent_environment
                   [row (PInt 7) (PInt 1) (PStr "1.00")] 1%positive ["7"] "W"
                   (MkWorld {[ 1%positive := ["7"] ]} []) 0
                   (row (PInt 7) (PInt 1) (PStr "1.00")) 1 _ _ _ _ _) _ _).
  - reflexivity.
  - reflexivity.
  - compute_done.
  - intros j watch' Hj. lia.
  - reflexivity.
  - reflexivity.
Defined.

(* ===================================================================== *)
(** * Further properties of the paginator                                 *)
(* ===================================================================== *)

Lemma ozon_loop_overshoot (env : Environment) (c t : string) :
  (∀ tr, ∃ p, ozon_page_reply env tr = Ret p
              ∧ ∀ total, SellerData.total p = Some total →
                         total < Z.of_nat (length (SellerData.items p))) →
  ∀ (fuel : nat) last_id acc w,
    fst (Seller.get_offer_ids_loop env fuel last_id acc c t w) = OutOfFuel.
Proof.
  intros Hpages. induction fuel as [|fuel IH]; intros last_id acc w; [done|].
  cbn [Seller.get_offer_ids_loop]. rewrite bind_run.
  unfold Seller.get_product_list. rewrite request_run.
  destruct (Hpages (trace w ++ [Sent (OzonProductList last_id c t)]))
    as (p & -> & Hp).
  rewrite length_app.
  case_bool_decide as Htotal; [apply Hp in Htotal; lia|].
  apply IH.
Qed.

(** X10. The loop of the Ozon [get_offer_ids] stops only when the number of
    items fetched equals the reported total: against a backend whose pages
    hold more items than the total they report, or report no total, it never
    stops, and no amount of fuel gives a result. *)
Theorem ozon_overshoot_never_returns (env : Environment)
    (client_id seller_token : string) (w : World) :
  (∀ tr, ∃ p, ozon_page_reply env tr = Ret p
              ∧ ∀ total, SellerData.total p = Some total →
                         total < Z.of_nat (length (SellerData.items p))) →
  ∀ fuel, fst (Seller.get_offer_ids env fuel client_id seller_token w)
          = OutOfFuel.
Proof.
  intros Hpages fuel. unfold Seller.get_offer_ids. rewrite bind_run.
  pose proof (ozon_loop_overshoot env client_id seller_token Hpages fuel "" [] w)
    as Hloop.
  destruct (Seller.get_offer_ids_loop _ _ _ _ _ _ _) as [[]]; done.
Qed.

Lemma ozon_overshoot_never_returns_witness :
  fst (Seller.get_offer_ids endless_pages 50 "client" "token" empty_world)
  = OutOfFuel.
Proof.
  apply (ozon_overshoot_never_returns endless_pages "client" "token"
           empty_world).
  intros tr. eexists. split; [reflexivity|]. simpl. intros total [= <-]. lia.
Defined.

Lemma market_loop_endless (env : Environment) (c t : string) :
  (∀ tr, ∃ p, market_page_reply env tr = Ret p
              ∧ Market.falsy (MarketData.nextPageToken p) = false) →
  ∀ (fuel : nat) page acc w,
    fst (Market.get_offer_ids_loop env fuel page acc c t w) = OutOfFuel.
Proof.
  intros Hpages. induction fuel as [|fuel IH]; intros page acc w; [done|].
  cbn [Market.get_offer_ids_loop]. rewrite bind_run.
  unfold Market.get_product_list. rewrite request_run.
  destruct (Hpages (trace w ++ [Sent (MarketOfferMappingEntries page c t)]))
    as (p & -> & ->).
  apply IH.
Qed.

(** X11. The loop of the Yandex Market [get_offer_ids] stops only at a page
    with an empty or absent token: against a backend that hands out a token
    with every page, it never stops, and no amount of fuel gives a result. *)
Theorem market_tokens_never_end (env : Environment)
    (campaign_id market_token : string) (w : World) :
  (∀ tr, ∃ p, market_page_reply env tr = Ret p
              ∧ Market.falsy (MarketData.nextPageToken p) = false) →
  ∀ fuel, fst (Market.get_offer_ids env fuel campaign_id market_token w)
          = OutOfFuel.
Proof.
  intros Hpages fuel. unfold Market.get_offer_ids. rewrite bind_run.
  pose proof (market_loop_endless env campaign_id market_token Hpages fuel
                "" [] w) as Hloop.
  destruct (Market.get_offer_ids_loop _ _ _ _ _ _ _) as [[]]; done.
Qed.

Lemma market_tokens_never_end_witness :
  fst (Market.get_offer_ids endless_pages 50 "fbs" "token" empty_world)
  = OutOfFuel.
Proof.
  apply (market_tokens_never_end endless_pages "fbs" "token" empty_world).
  intros tr. eexists. split; reflexivity.
Defined.

(* ===================================================================== *)
(** * Further properties of the orchestrators                             *)
(* ===================================================================== *)

Section EmitsOnly.
Context (P : Event → Prop).

Lemma emits_silent {A} (c : M A) :
  (∀ w, trace (snd (c w)) = trace w) → emits_only P c.
Proof. intros H w. exists []. by rewrite app_nil_r. Qed.

Lemma emits_bind {A B} (c : M A) (k : A → M B) :
  emits_only P c → (∀ a, emits_only P (k a)) → emits_only P (bind c k).
Proof.
  intros Hc Hk w. rewrite bind_run. destruct (Hc w) as (evs & Hw & Hevs).
  destruct (c w) as [[a|e|] w1]; cbn [snd] in *; [|by exists evs..].
  destruct (Hk a w1) as (evs' & Hw' & Hevs').
  exists (evs ++ evs'). rewrite Hw', Hw, app_assoc. split; [done|].
  by apply Forall_app.
Qed.

Lemma emits_try {A} (body : M A) (handler : Exn → M A) :
  emits_only P body → (∀ e, emits_only P (handler e)) →
  emits_only P (try_except body handler).
Proof.
  intros Hc Hk w. unfold try_except. destruct (Hc w) as (evs & Hw & Hevs).
  destruct (body w) as [[a|e|] w1]; cbn [snd] in *; [by exists evs| |by exists evs].
  destruct (Hk e w1) as (evs' & Hw' & Hevs').
  exists (evs ++ evs'). rewrite Hw', Hw, app_assoc. split; [done|].
  by apply Forall_app.
Qed.

Lemma emits_for_fold {A B} (body : B → A → M B) (l : list A) (acc : B) :
  (∀ acc x, emits_only P (body acc x)) → emits_only P (for_fold l acc body).
Proof.
  intros Hbody. revert acc. induction l as [|x l IH]; intros acc.
  - by apply emits_silent.
  - cbn [for_fold]. apply emits_bind; [apply Hbody|]. intros a. apply IH.
Qed.

Lemma emits_request {A} (r : Request) (reply : list Event → Outcome A) :
  P (Sent r) → emits_only P (request r reply).
Proof.
  intros Hr w. rewrite request_run. exists [Sent r]. split; [done|].
  by repeat constructor.
Qed.

Lemma emits_report : (∀ args, P (Printed args)) → ∀ e, emits_only P (report e).
Proof.
  intros HP e w. destruct (report_run e w) as [args ->].
  exists [Printed args]. split; [done|]. by repeat constructor.
Qed.

Lemma emits_env_str (env : Environment) (name : string) :
  emits_only P (env_str env name).
Proof.
  apply emits_silent. intros w. unfold env_str.
  by destruct (environ env !! name).
Qed.

Lemma emits_list_append (l : loc) (x : string) : emits_only P (list_append l x).
Proof. by apply emits_silent. Qed.

Lemma emits_stocks_loops {R} (mk : string → Z → R) (rows : list Watch) (l : loc) :
  emits_only P
    (stocks <- for_fold rows [] (stock_turn mk l) ;;
     remaining <- read_list l ;;
     for_fold remaining stocks (λ stocks offer_id,
       ret (stocks ++ [mk offer_id 0]))).
Proof.
  apply emits_bind.
  - apply emits_for_fold. intros acc watch. unfold stock_turn.
    apply emits_bind; [by apply emits_silent|]. intros [|]; [|by apply emits_silent].
    apply emits_bind.
    { apply emits_silent. intros w. by repeat destruct (String.eqb _ _). }
    intros n. apply emits_bind; [|intros; by apply emits_silent].
    apply emits_silent. intros w. unfold list_remove. rewrite bind_run.
    simpl. by destruct (remove_first _ _).
  - intros stocks. apply emits_bind; [by apply emits_silent|].
    intros remaining. apply emits_for_fold. intros; by apply emits_silent.
Qed.
End EmitsOnly.

Lemma emits_market_get_offer_ids (P : Event → Prop) (env : Environment)
    (fuel : nat) (c t : string) :
  (∀ page, P (Sent (MarketOfferMappingEntries page c t))) →
  emits_only P (Market.get_offer_ids env fuel c t).
Proof.
  intros HP. unfold Market.get_offer_ids. apply emits_bind.
  - generalize (@nil MarketData.Entry) as acc. generalize "" as page.
    induction fuel as [|fuel IH]; intros page acc; [by apply emits_silent|].
    cbn [Market.get_offer_ids_loop]. apply emits_bind.
    { apply emits_request, HP. }
    intros p. destruct (Market.falsy _); [by apply emits_silent|apply IH].
  - intros product_list. apply emits_bind; [by apply emits_silent|].
    intros l. apply emits_bind; [|intros; by apply emits_silent].
    apply emits_for_fold. intros _ x. apply emits_list_append.
Qed.

Lemma emits_campaign_pipeline (P : Event → Prop) (env : Environment)
    (fuel : nat) (rows : list Watch) (token campaign warehouse : string) :
  (∀ page, P (Sent (MarketOfferMappingEntries page campaign token))) →
  (∀ stocks, P (Sent (MarketPutStocks stocks campaign token))) →
  emits_only P (campaign_pipeline env fuel rows token campaign warehouse).
Proof.
  intros Hpage Hput. unfold campaign_pipeline.
  apply emits_bind; [by apply emits_market_get_offer_ids|]. intros l.
  apply emits_bind.
  { intros w. apply (emits_stocks_loops P
      (market_stock warehouse (utcnow env (trace w) +:+ "Z")) rows l w). }
  intros stocks. apply emits_bind; [by apply emits_silent|]. intros batches.
  apply emits_bind; [|intros; by apply emits_silent].
  apply emits_for_fold. intros _ b.
  apply emits_bind; [apply emits_request, Hput|intros; by apply emits_silent].
Qed.

(** X12. [main] of market.py never sends a request that carries prices,
    whatever the environment and the backend do: it calls the coroutine
    function [upload_prices] without awaiting it, so all it sends are the
    download, page requests and stock updates, and all it prints is the
    report of an exception. *)
Theorem market_main_never_sends_prices (env : Environment) (fuel : nat) :
  emits_only (λ ev, ¬ is_price_update ev) (Market.main env fuel).
Proof.
  set (P := λ ev, ¬ is_price_update ev).
  assert (∀ (rows : list Watch) (token fbs dbs wfbs wdbs : string),
            emits_only P
              (Market.main_body env fuel rows token fbs dbs wfbs wdbs)) as Hbody.
  { intros rows token fbs dbs wfbs wdbs w.
    rewrite market_main_body_pipelines.
    apply (emits_bind P); [|intros _];
      apply emits_campaign_pipeline; intros; unfold P; simpl; tauto. }
  unfold Market.main.
  do 5 (apply emits_bind; [apply emits_env_str|]; intros ?).
  apply emits_bind.
  { apply emits_request. unfold P. simpl. tauto. }
  intros rows. apply emits_try; [apply Hbody|].
  apply emits_report. intros args. unfold P. simpl. tauto.
Qed.

Lemma try_report_outcome (body : M unit) (w : World) (e : Exn) :
  fst (try_except body report w) ≠ Raise e.
Proof.
  unfold try_except. destruct (body w) as [[[]|e'|] w1]; [done| |done].
  by destruct (report_run e' w1) as [args ->].
Qed.

(** X13. What comes out of the two [main] functions once the environment
    variables are set.  [main] of seller.py never raises: every exception is
    caught and reported.  [main] of market.py raises exactly what the
    download of the inventory raises, since it downloads before its [try]. *)
Theorem main_error_boundary (env : Environment) (fuel : nat) (w : World)
    (e : Exn) :
  ((∃ seller_token client_id,
      environ env !! "SELLER_TOKEN" = Some seller_token
      ∧ environ env !! "CLIENT_ID" = Some client_id) →
   fst (Seller.main env fuel w) ≠ Raise e)
  ∧ ((∃ token fbs dbs wfbs wdbs,
        environ env !! "MARKET_TOKEN" = Some token
        ∧ environ env !! "FBS_ID" = Some fbs
        ∧ environ env !! "DBS_ID" = Some dbs
        ∧ environ env !! "WAREHOUSE_FBS_ID" = Some wfbs
        ∧ environ env !! "WAREHOUSE_DBS_ID" = Some wdbs) →
     (fst (Market.main env fuel w) = Raise e
      ↔ download_reply env (trace w ++ [Sent CasioDownload]) = Raise e)).
Proof.
  split.
  - intros (seller_token & client_id & Htok & Hcli). unfold Seller.main.
    rewrite bind_run, (env_str_run _ _ seller_token) by done.
    rewrite bind_run, (env_str_run _ _ client_id) by done.
    apply try_report_outcome.
  - intros (token & fbs & dbs & wfbs & wdbs & H1 & H2 & H3 & H4 & H5).
    unfold Market.main.
    rewrite bind_run, (env_str_run _ _ token) by done.
    rewrite bind_run, (env_str_run _ _ fbs) by done.
    rewrite bind_run, (env_str_run _ _ dbs) by done.
    rewrite bind_run, (env_str_run _ _ wfbs) by done.
    rewrite bind_run, (env_str_run _ _ wdbs) by done.
    rewrite bind_run. unfold Seller.download_stock. rewrite request_run.
    destruct (download_reply env _) as [rows|e'|]; cbn [fst].
    + split; [|done]. intros H. by apply try_report_outcome in H.
    + split; intros [= ->]; done.
    + split; intros [=].
Qed.

(** The example shop, whose download succeeds and whose FBS campaign times
    out: neither [main] raises. *)
Lemma main_error_boundary_witness :
  fst (Seller.main example_shop 5 empty_world)
  ≠ Raise (MkExn ReadTimeout "read timed out")
  ∧ (fst (Market.main example_shop 5 empty_world)
     = Raise (MkExn ReadTimeout "read timed out")
     ↔ download_reply example_shop (trace empty_world ++ [Sent CasioDownload])
       = Raise (MkExn ReadTimeout "read timed out")).
Proof.
  pose proof (main_error_boundary example_shop 5 empty_world
                (MkExn ReadTimeout "read timed out")) as [Hseller Hmarket].
  split.
  - apply Hseller. by exists "token", "client".
  - apply Hmarket. by exists "token", "FBS", "DBS", "WF", "WD".
Defined.

(** X14. An environment variable that is not set stops either [main] at
    once: it raises [EnvError] outside any [try], before anything is sent,
    printed or changed. *)
Theorem main_needs_environment (env : Environment) (fuel : nat) (w : World)
    (name : string) :
  environ env !! name = None →
  (name ∈ ["SELLER_TOKEN"; "CLIENT_ID"] →
   ∃ e, Seller.main env fuel w = (Raise e, w) ∧ exn_kind e = EnvError)
  ∧ (name ∈ ["MARKET_TOKEN"; "FBS_ID"; "DBS_ID"; "WAREHOUSE_FBS_ID";
             "WAREHOUSE_DBS_ID"] →
     ∃ e, Market.main env fuel w = (Raise e, w) ∧ exn_kind e = EnvError).
Proof.
  intros Hnone. split; intros Hname.
  - unfold Seller.main. rewrite !bind_run. unfold env_str.
    repeat (apply elem_of_cons in Hname as [->|Hname];
            [repeat (destruct (environ env !! _); try done); by eexists|]).
    by apply elem_of_nil in Hname.
  - unfold Market.main. rewrite !bind_run. unfold env_str.
    repeat (apply elem_of_cons in Hname as [->|Hname];
            [repeat (destruct (environ env !! _); try done); by eexists|]).
    by apply elem_of_nil in Hname.
Qed.

Lemma main_needs_environment_witness :
  ∃ e, Market.main three_pages 5 empty_world = (Raise e, empty_world)
       ∧ exn_kind e = EnvError.
Proof.
  apply (proj2 (main_needs_environment three_pages 5 empty_world "DBS_ID"
                  eq_refl)).
  compute_done.
Defined.

Lemma for_each_app {A} (l1 l2 : list A) (body : A → M unit) (w : World) :
  for_each (l1 ++ l2) body w
  = (for_each l1 body ;;; for_each l2 body) w.
Proof.
  revert w. induction l1 as [|x l1 IH]; intros w.
  { reflexivity. }
  unfold for_each in *. cbn [app for_fold]. rewrite !bind_run.
  destruct (body x w) as [[[]|e|] w1]; [|done..].
  rewrite IH. by rewrite bind_run.
Qed.

(** A loop of update requests that are all acknowledged sends them all, in
    order. *)
Lemma update_loop_acked {B} (req : B → Request)
    (reply : list Event → Outcome string) (batches : list B) (w : World) :
  (∀ tr, ∃ ack, reply tr = Ret ack) →
  for_each batches (λ b, _ <- request (req b) reply ;; ret tt) w
  = (Ret tt, MkWorld (heap w) (trace w ++ ((λ b, Sent (req b)) <$> batches))).
Proof.
  intros Hack. revert w. induction batches as [|b batches IH]; intros w.
  { simpl. rewrite app_nil_r. by destruct w. }
  unfold for_each in *. cbn [for_fold]. rewrite bind_run, bind_run, request_run.
  destruct (Hack (trace w ++ [Sent (req b)])) as [ack ->].
  unfold ret at 1. rewrite IH. cbn [heap trace].
  by rewrite <- app_assoc.
Qed.

(** A loop of update requests ends at the first request that fails. *)
Lemma update_loop_fails {B} (req : B → Request)
    (reply : list Event → Outcome string) (pre : list B) (b : B)
    (post : list B) (w w1 : World) (e : Exn) :
  for_each pre (λ b, _ <- request (req b) reply ;; ret tt) w = (Ret tt, w1) →
  reply (trace w1 ++ [Sent (req b)]) = Raise e →
  for_each (pre ++ b :: post) (λ b, _ <- request (req b) reply ;; ret tt) w
  = (Raise e, MkWorld (heap w1) (trace w1 ++ [Sent (req b)])).
Proof.
  intros Hpre Hfail. rewrite for_each_app, bind_run, Hpre.
  unfold for_each. cbn [for_fold].
  by rewrite bind_run, bind_run, request_run, Hfail.
Qed.

(** X15. The loops that submit the batches stop at the first update request
    that fails: its exception comes out, the batches before it stay sent, and
    the batches after it are never sent.  So it is for the stock updates of
    both marketplaces. *)
Theorem update_stops_at_first_failure (env : Environment) (account token : string)
    (w w1 : World) (e : Exn) :
  (∀ (pre : list (list SellerData.Stock)) batch post,
     for_each pre (λ some_stock,
       _ <- Seller.update_stocks env some_stock account token ;; ret tt) w
     = (Ret tt, w1) →
     update_reply env (trace w1 ++ [Sent (OzonImportStocks batch account token)])
     = Raise e →
     for_each (pre ++ batch :: post) (λ some_stock,
       _ <- Seller.update_stocks env some_stock account token ;; ret tt) w
     = (Raise e,
        MkWorld (heap w1)
          (trace w1 ++ [Sent (OzonImportStocks batch account token)])))
  ∧ (∀ (pre : list (list MarketData.Stock)) batch post,
       for_each pre (λ some_stock,
         _ <- Market.update_stocks env some_stock account token ;; ret tt) w
       = (Ret tt, w1) →
       update_reply env (trace w1 ++ [Sent (MarketPutStocks batch account token)])
       = Raise e →
       for_each (pre ++ batch :: post) (λ some_stock,
         _ <- Market.update_stocks env some_stock account token ;; ret tt) w
       = (Raise e,
          MkWorld (heap w1)
            (trace w1 ++ [Sent (MarketPutStocks batch account token)]))).
Proof.
  split; intros pre batch post Hpre Hfail.
  - by apply (update_loop_fails (λ b, OzonImportStocks b account token)).
  - by apply (update_loop_fails (λ b, MarketPutStocks b account token)).
Qed.

(** Three batches against a backend that rejects the second one. *)
Lemma update_stops_at_first_failure_witness :
  for_each
    ([[SellerData.MkStock "A" 100]]
     ++ [SellerData.MkStock "B" 0] :: [[SellerData.MkStock "C" 0]])
    (λ some_stock,
       _ <- Seller.update_stocks second_update_fails some_stock "client" "token" ;;
       ret tt) empty_world
  = (Raise (MkExn HTTPError "500"),
     MkWorld ∅
       ([Sent (OzonImportStocks [SellerData.MkStock "A" 100] "client" "token")]
        ++ [Sent (OzonImportStocks [SellerData.MkStock "B" 0] "client" "token")])).
Proof.
  apply (proj1 (update_stops_at_first_failure second_update_fails
                  "client" "token" empty_world
                  (MkWorld ∅
                     [Sent (OzonImportStocks [SellerData.MkStock "A" 100]
                              "client" "token")])
                  (MkExn HTTPError "500"))); reflexivity.
Defined.

(** What the callers of [divide] rely on. *)
Lemma divide_batches {A} (lst : list A) (n : Z) :
  0 < n →
  ∃ chunks, Seller.divide lst n = Ret chunks
    ∧ concat chunks = lst
    ∧ ∀ chunk, chunk ∈ chunks → Z.of_nat (length chunk) ≤ n.
Proof.
  intros Hn.
  pose proof (range_len_chunks (Z.of_nat (length lst)) n
                ltac:(lia) Hn) as (Hc0 & Hcover & _).
  eexists. split; [by apply divide_chunks|]. split.
  - rewrite concat_chunk_at. apply take_ge. nia.
  - intros chunk [k [-> _]]%list_elem_of_fmap.
    unfold chunk_at. rewrite length_take. lia.
Qed.

Lemma seller_get_offer_ids_run (env : Environment) (fuel : nat)
    (c t : string) (w : World) (pages : list SellerData.Page)
    (tr' : list Event) :
  ozon_session env c t "" 0 (trace w) pages tr' → (length pages ≤ fuel)%nat →
  Seller.get_offer_ids env fuel c t w
  = (Ret (fresh (dom (heap w))),
     MkWorld (<[fresh (dom (heap w)) :=
                SellerData.product_offer_id
                  <$> concat (SellerData.items <$> pages)]> (heap w)) tr').
Proof.
  intros Hs Hfuel. destruct w as [h tr]. cbn [heap trace] in *.
  unfold Seller.get_offer_ids. rewrite bind_run.
  rewrite (ozon_loop_session _ _ _ _ _ _ _ _ Hs) by done.
  apply (collect_ids_run SellerData.product_offer_id).
Qed.

(** The first loop of [create_stocks] returns when the count of every row
    with a remote code can be read. *)
Lemma match_rows_returns {R} (mk : string → Z → R) (rows : list Watch)
    (remote ids : list string) (acc : list R) :
  ids ⊆ remote →
  (∀ watch, watch ∈ rows → code watch ∈ remote →
     ∃ n, stock_of watch = Ret n) →
  ∃ out ids', match_rows mk rows ids acc = (Ret out, ids').
Proof.
  revert ids acc. induction rows as [|watch rows IH]; intros ids acc Hsub Hok.
  { by eexists _, _. }
  assert (∀ watch', watch' ∈ rows → code watch' ∈ remote →
            ∃ n, stock_of watch' = Ret n) as Hok'
    by (intros ???; apply Hok; [by right|done]).
  simpl. case_bool_decide as Hin; [|by apply IH].
  destruct (Hok watch) as [n ->]; [left|by apply Hsub|].
  destruct (remove_first_elem _ _ Hin) as [ids1 Hrem]. rewrite Hrem.
  apply IH; [|done]. etrans; [|done].
  by apply sublist_subseteq, (remove_first_sublist (code watch)).
Qed.

(** X16. [upload_prices] of seller.py, run to its end.  Against a
    well-behaved paging session and a backend that acknowledges updates, and
    when the price of every row with a remote code is a string, it fetches
    its own list of remote ids, returns one price record for each row whose
    code is remote, in inventory order, and sends these records in batches
    of at most 1000 that, put end to end, are the records returned. *)
Theorem upload_prices_delivers (env : Environment) (fuel : nat)
    (rows : list Watch) (client_id seller_token : string) (w : World)
    (pages : list SellerData.Page) (tr' : list Event) :
  let remote :=
    SellerData.product_offer_id <$> concat (SellerData.items <$> pages) in
  ozon_session env client_id seller_token "" 0 (trace w) pages tr' →
  (length pages ≤ fuel)%nat →
  (∀ tr, ∃ ack, update_reply env tr = Ret ack) →
  (∀ watch, watch ∈ rows → code watch ∈ remote →
     ∃ s, dict_get watch "Цена" = PStr s) →
  ∃ prices batches w',
    Seller.upload_prices env fuel rows client_id seller_token w
    = (Ret prices, w')
    ∧ SellerData.price_offer_id <$> prices
      = filter (λ id, id ∈ remote) (code <$> rows)
    ∧ concat batches = prices
    ∧ (∀ batch, batch ∈ batches → (length batch ≤ 1000)%nat)
    ∧ trace w'
      = tr' ++ ((λ batch, Sent (OzonImportPrices batch client_id seller_token))
                  <$> batches).
Proof.
  intros remote Hs Hfuel Hack Hprices. unfold Seller.upload_prices.
  rewrite bind_run, (seller_get_offer_ids_run _ _ _ _ _ pages tr') by done.
  set (l := fresh (dom (heap w))). fold remote.
  set (w1 := MkWorld (<[l := remote]> (heap w)) tr').
  assert (heap w1 !! l = Some remote) as Hl by apply lookup_insert_eq.
  rewrite bind_run, (seller_create_prices_run rows l remote) by done.
  destruct (proj2 (price_turns_returns ozon_convert ozon_price rows remote []))
    as [prices Hrun].
  { intros watch Hw Hin. apply ozon_convert_returns. by apply Hprices. }
  rewrite Hrun.
  destruct (divide_batches prices 1000) as (batches & Hdiv & Hcat & Hlen);
    [lia|].
  rewrite bind_run, Hdiv. unfold lift at 1. rewrite bind_run.
  unfold Seller.update_price.
  rewrite (update_loop_acked (λ b, OzonImportPrices b client_id seller_token))
    by done.
  exists prices, batches. eexists. split; [reflexivity|].
  apply (price_turns_ret _ _ SellerData.price_offer_id) in Hrun
    as (priced & -> & Hids & _); [|done].
  split; [exact Hids|]. split; [exact Hcat|]. split; [|reflexivity].
  intros batch Hb. specialize (Hlen batch Hb). lia.
Qed.

(** X17. [upload_stocks] of seller.py, run to its end.  Against a
    well-behaved paging session and a backend that acknowledges updates, and
    when the quantity of every row with a remote code normalises, it returns
    the stock records, one for each remote id, together with those of them
    whose count is not 0, and sends the records in batches of at most 100
    that, put end to end, are the records returned. *)
Theorem upload_stocks_delivers (env : Environment) (fuel : nat)
    (rows : list Watch) (client_id seller_token : string) (w : World)
    (pages : list SellerData.Page) (tr' : list Event) :
  let remote :=
    SellerData.product_offer_id <$> concat (SellerData.items <$> pages) in
  ozon_session env client_id seller_token "" 0 (trace w) pages tr' →
  (length pages ≤ fuel)%nat →
  (∀ tr, ∃ ack, update_reply env tr = Ret ack) →
  (∀ watch, watch ∈ rows → code watch ∈ remote →
     ∃ n, normalize_quantity (quantity_token watch) = Ret n) →
  ∃ stocks batches w',
    Seller.upload_stocks env fuel rows client_id seller_token w
    = (Ret (filter (λ s, SellerData.stock s ≠ 0) stocks, stocks), w')
    ∧ SellerData.offer_id <$> stocks ≡ₚ remote
    ∧ concat batches = stocks
    ∧ (∀ batch, batch ∈ batches → (length batch ≤ 100)%nat)
    ∧ trace w'
      = tr' ++ ((λ batch, Sent (OzonImportStocks batch client_id seller_token))
                  <$> batches).
Proof.
  intros remote Hs Hfuel Hack Hqty. unfold Seller.upload_stocks.
  rewrite bind_run, (seller_get_offer_ids_run _ _ _ _ _ pages tr') by done.
  set (l := fresh (dom (heap w))). fold remote.
  set (w1 := MkWorld (<[l := remote]> (heap w)) tr').
  assert (heap w1 !! l = Some remote) as Hl by apply lookup_insert_eq.
  rewrite bind_run, (seller_create_stocks_run rows l remote) by done.
  unfold stocks_result.
  destruct (match_rows_returns ozon_stock rows remote remote [])
    as (matched & ids' & Hrun); [done| |].
  { intros watch Hw Hin. destruct (Hqty watch Hw Hin) as [n Hn].
    exists n. by apply stock_of_ret. }
  rewrite Hrun. cbn [fst snd].
  set (stocks := matched ++ ((λ id, ozon_stock id 0) <$> ids')).
  destruct (divide_batches stocks 100) as (batches & Hdiv & Hcat & Hlen);
    [lia|].
  rewrite bind_run, Hdiv. unfold lift at 1. rewrite bind_run.
  unfold Seller.update_stocks.
  rewrite (update_loop_acked (λ b, OzonImportStocks b client_id seller_token))
    by done.
  exists stocks, batches. eexists. split; [reflexivity|].
  split; [|split; [exact Hcat|split; [|reflexivity]]].
  - apply (match_rows_ret ozon_stock SellerData.offer_id) in Hrun
      as (m & [= ->] & Hperm & _); [|done].
    subst stocks. rewrite fmap_app, <- list_fmap_compose.
    assert ((SellerData.offer_id ∘ (λ id, ozon_stock id 0)) <$> ids' = ids')
      as ->; [|done].
    rewrite <- (list_fmap_id ids') at 2. by apply list_fmap_ext.
  - intros batch Hb. specialize (Hlen batch Hb). lia.
Qed.

Lemma ozon_three_pages_session :
  ozon_session three_pages "client" "token" "" 0 [] ozon_three_pages
    ozon_three_requests.
Proof.
  apply ozon_session_next with (tr := []); [reflexivity|done|].
  apply ozon_session_next
    with (tr := [Sent (OzonProductList "" "client" "token")]);
    [reflexivity|done|].
  apply ozon_session_last
    with (tr := [Sent (OzonProductList "" "client" "token");
                 Sent (OzonProductList "id2" "client" "token")]);
    reflexivity.
Qed.

Lemma scenario_rows_cases (P : Watch → Prop) :
  P (row (PStr "A") (PStr ">10") (PStr "100.00 руб")) →
  P (row (PStr "B") (PStr "1") (PStr "50.00 руб")) →
  ∀ watch, watch ∈ scenario_rows → P watch.
Proof.
  intros HA HB watch Hw. unfold scenario_rows in Hw.
  apply elem_of_cons in Hw as [->|Hw]; [done|].
  apply elem_of_cons in Hw as [->|Hw]; [done|].
  by apply elem_of_nil in Hw.
Qed.

(** The rows of the scenario against the three pages of Ozon. *)
Lemma upload_prices_delivers_witness :
  ∃ prices batches w',
    Seller.upload_prices three_pages 3 scenario_rows "client" "token"
      empty_world
    = (Ret prices, w')
    ∧ SellerData.price_offer_id <$> prices
      = filter (λ id, id ∈ SellerData.product_offer_id
                            <$> concat (SellerData.items <$> ozon_three_pages))
          (code <$> scenario_rows)
    ∧ concat batches = prices
    ∧ (∀ batch, batch ∈ batches → (length batch ≤ 1000)%nat)
    ∧ trace w'
      = ozon_three_requests
        ++ ((λ batch, Sent (OzonImportPrices batch "client" "token"))
              <$> batches).
Proof.
  apply (upload_prices_delivers three_pages 3 scenario_rows "client" "token"
           empty_world ozon_three_pages ozon_three_requests).
  - apply ozon_three_pages_session.
  - simpl. lia.
  - intros tr. by eexists.
  - apply (scenario_rows_cases
             (λ watch, _ → ∃ s, dict_get watch "Цена" = PStr s));
      intros _; by eexists.
Defined.

Lemma upload_stocks_delivers_witness :
  ∃ stocks batches w',
    Seller.upload_stocks three_pages 3 scenario_rows "client" "token"
      empty_world
    = (Ret (filter (λ s, SellerData.stock s ≠ 0) stocks, stocks), w')
    ∧ SellerData.offer_id <$> stocks
      ≡ₚ SellerData.product_offer_id
           <$> concat (SellerData.items <$> ozon_three_pages)
    ∧ concat batches = stocks
    ∧ (∀ batch, batch ∈ batches → (length batch ≤ 100)%nat)
    ∧ trace w'
      = ozon_three_requests
        ++ ((λ batch, Sent (OzonImportStocks batch "client" "token"))
              <$> batches).
Proof.
  apply (upload_stocks_delivers three_pages 3 scenario_rows "client" "token"
           empty_world ozon_three_pages ozon_three_requests).
  - apply ozon_three_pages_session.
  - simpl. lia.
  - intros tr. by eexists.
  - apply (scenario_rows_cases
             (λ watch, _ → ∃ n, normalize_quantity (quantity_token watch)
                                = Ret n));
      intros _; by eexists.
Defined.

(** X18. The fixed parts of the records.  Every stock record of
    [create_stocks] of market.py carries the warehouse id of the call and one
    item of type ["FIT"], stamped with the time read once at the start of the
    call; every price record of seller.py carries ["UNKNOWN"], ["RUB"] and
    the old price ["0"]; every price record of market.py is in ["RUR"]. *)
Theorem record_shapes (env : Environment) (rows : list Watch) (l : loc)
    (remote : list string) (warehouse_id : string) (w : World) :
  heap w !! l = Some remote →
  (∀ stocks,
     fst (Market.create_stocks env rows l warehouse_id w) = Ret stocks →
     Forall (λ s, MarketData.warehouseId s = warehouse_id
                  ∧ ∃ n, MarketData.items s
                         = [MarketData.MkItem n "FIT"
                              (utcnow env (trace w) +:+ "Z")]) stocks)
  ∧ (∀ prices, fst (Seller.create_prices rows l w) = Ret prices →
       Forall (λ p, SellerData.auto_action_enabled p = "UNKNOWN"
                    ∧ SellerData.currency_code p = "RUB"
                    ∧ SellerData.old_price p = "0") prices)
  ∧ (∀ prices, fst (Market.create_prices rows l w) = Ret prices →
       Forall (λ p, MarketData.currencyId (MarketData.price p) = "RUR") prices).
Proof.
  intros Hl. split; [|split].
  - intros stocks.
    rewrite (market_create_stocks_run env rows l warehouse_id remote) by done.
    unfold stocks_result.
    destruct (match_rows _ rows remote []) as [[m|e|] ids'] eqn:Hrun; [|done..].
    cbn [fst]. intros [= <-].
    apply (match_rows_ret _ MarketData.sku) in Hrun
      as (m' & [= ->] & _ & Hall); [|done].
    apply Forall_app. split.
    + eapply Forall_impl; [done|]. simpl.
      intros s (watch & n & _ & _ & _ & ->). split; [done|]. by eexists.
    + apply Forall_fmap, Forall_forall. intros id _. simpl.
      split; [done|]. by eexists.
  - intros prices.
    rewrite (seller_create_prices_run rows l remote) by done. cbn [fst].
    intros (priced & -> & _ & Hall)%(price_turns_ret _ _ SellerData.price_offer_id);
      [|done].
    eapply Forall_impl; [done|]. simpl. by intros p (watch & v & _ & _ & ->).
  - intros prices.
    rewrite (market_create_prices_run rows l remote) by done. cbn [fst].
    intros (priced & -> & _ & Hall)%(price_turns_ret _ _ MarketData.id); [|done].
    eapply Forall_impl; [done|]. simpl. by intros p (watch & v & _ & _ & ->).
Qed.

Lemma record_shapes_witness :
  Forall (λ p, SellerData.auto_action_enabled p = "UNKNOWN"
               ∧ SellerData.currency_code p = "RUB"
               ∧ SellerData.old_price p = "0")
    [ozon_price "A" "100"; ozon_price "B" "50"].
Proof.
  refine (proj1 (proj2 (record_shapes silent_environment scenario_rows
                          1%positive scenario_remote "W" scenario_world _))
            _ _); reflexivity.
Defined.
